(** * Gestion-Notes front-end: session, guards, cache, loading counter

    A shallow embedding of the TypeScript services of the school-management
    front-end, and the properties of its specification proved against it.

    Conventions of the embedding.
    - A service instance is a record of its fields; a method is a function
      from the record (and its arguments) to the new record and the result.
    - [Date.now()] is a natural number of milliseconds since the epoch and is
      passed to the methods that read the clock.
    - A JavaScript number is a binary64 value, kept as the exact rational
      ([Q]) it denotes, or an infinity or NaN.  A number literal (in JSON
      text or in a string converted by [ToNumber]) and the quotient
      [Date.now() / 1000] are rounded to the nearest binary64, ties to
      even, as the engines do.  Counters, time stamps and identifiers are
      integers ([Z], [N]) far below 2^53, on which the arithmetic of the
      model (comparison, adding a TTL, counting up and down by one) is
      exact.
    - A JavaScript string is the list of its UTF-16 code units where the
      token codec works on it, and a Rocq [string] elsewhere (keys, URLs,
      role names, messages).
    - A [BehaviorSubject] keeps its current value and, for every subscriber
      that is still subscribed, the list of values delivered to it. *)

From Stdlib Require Import ZArith QArith Lqa Lia List Bool String Ascii.
From stdpp Require Import gmap strings list fin_maps pretty.

Set Warnings "-register-all".

Local Open Scope Z_scope.

(* ===================================================================== *)
(** ** rxjs: BehaviorSubject and one-shot observables                     *)
(* ===================================================================== *)

Module Rx.

(** [new BehaviorSubject<A>(v)]: the current value and one inbox per
    active subscriber, oldest delivery first. *)
Record BehaviorSubject (A : Type) : Type := mkSubject {
  value : A;
  inboxes : list (list A)
}.
Arguments mkSubject {A} _ _.
Arguments value {A} _.
Arguments inboxes {A} _.

Definition create {A} (v : A) : BehaviorSubject A := mkSubject v [].

(** [subject.next(v)]: store [v] and deliver it to every subscriber. *)
Definition next {A} (v : A) (s : BehaviorSubject A) : BehaviorSubject A :=
  mkSubject v (map (fun inbox => inbox ++ [v]) (inboxes s)).

(** [subject.subscribe(...)]: a BehaviorSubject replays its current value
    to the new subscriber. *)
Definition subscribe {A} (s : BehaviorSubject A) : BehaviorSubject A :=
  mkSubject (value s) (inboxes s ++ [[value s]]).

(** [subscription.unsubscribe()] of the [i]-th subscriber. *)
Definition unsubscribe {A} (i : nat) (s : BehaviorSubject A) : BehaviorSubject A :=
  mkSubject (value s) (delete i (inboxes s)).


(** What an [HttpClient] observable delivers to its subscriber: one
    value and completion, or an error of type [E]. *)
Inductive Observable (E A : Type) : Type :=
| Emit (a : A)
| Fail (e : E).
Arguments Emit {E A} _.
Arguments Fail {E A} _.

(** [throwError(() => e)] *)
Definition throwError {E A} (e : E) : Observable E A := Fail e.

(** [tap(f)]: run the side effect [f] on the emitted value; an error
    passes through and [f] is not run. *)
Definition tap {S E A} (f : A -> S -> S) (o : Observable E A) (s : S)
  : S * Observable E A :=
  match o with
  | Emit a => (f a s, Emit a)
  | Fail e => (s, Fail e)
  end.

(** A [catchError] selector either returns the observable to continue
    with or throws; rxjs forwards what it throws as an error. *)
Inductive selected (E A : Type) : Type :=
| Returned (o : Observable E A)
| Thrown (e : E).
Arguments Returned {E A} _.
Arguments Thrown {E A} _.

Definition catchError {E E' A} (selector : E -> selected E' A)
    (o : Observable E A) : Observable E' A :=
  match o with
  | Emit a => Emit a
  | Fail e =>
      match selector e with
      | Returned o' => o'
      | Thrown e' => Fail e'
      end
  end.

(** [map(f)] *)
Definition map {E A B} (f : A -> B) (o : Observable E A) : Observable E B :=
  match o with
  | Emit a => Emit (f a)
  | Fail e => Fail e
  end.

End Rx.

(* ===================================================================== *)
(** ** The JavaScript platform used by the token codec                    *)
(* ===================================================================== *)

Module JS.

Local Open Scope N_scope.

(** A JavaScript string is the sequence of its UTF-16 code units. *)
Definition jstring : Type := list N.

(** An ASCII literal of the source as a JavaScript string. *)
Definition js (s : string) : jstring :=
  map N_of_ascii (list_ascii_of_string s).

(** *** Exceptions and completions *)

Inductive exn : Type :=
| TypeError
| SyntaxError
| URIError
| InvalidCharacterError
| Error (message : string).

(** The outcome of evaluating a statement list: a returned value or a
    thrown exception. *)
Inductive completion (A : Type) : Type :=
| Normal (a : A)
| Throw (e : exn).
Arguments Normal {A} _.
Arguments Throw {A} _.

Definition bind {A B} (c : completion A) (k : A -> completion B) : completion B :=
  match c with
  | Normal a => k a
  | Throw e => Throw e
  end.

(** [try { body } catch (e) { handler }] *)
Definition try_catch {A} (body : completion A) (handler : exn -> completion A)
  : completion A :=
  match body with
  | Normal a => Normal a
  | Throw e => handler e
  end.

Definition of_option {A} (e : exn) (o : option A) : completion A :=
  match o with
  | Some a => Normal a
  | None => Throw e
  end.

(** *** Number values *)

(** A Number: NaN, an infinity, or a finite binary64 value, kept as the
    rational it denotes (the two zeros are not told apart: nothing in
    the code does). *)
Inductive number : Type :=
| NaN
| PosInf
| NegInf
| Fin (q : Q).

(** [n / d] rounded to the nearest integer, ties to even, for [0 <= n]
    and [0 < d]. *)
Definition round_half_even (n d : Z) : Z :=
  let q := (n / d)%Z in
  match (2 * (n mod d) ?= d)%Z with
  | Lt => q
  | Gt => (q + 1)%Z
  | Eq => if Z.even q then q else (q + 1)%Z
  end.

(** The exponent [e] with [2^e <= n / d < 2^(e+1)], for positive [n]
    and [d]. *)
Definition binade (n d : Z) : Z :=
  let e := (Z.log2 n - Z.log2 d)%Z in
  let below :=
    if (0 <=? e)%Z then (n <? d * 2 ^ e)%Z else (n * 2 ^ (- e) <? d)%Z in
  if below then (e - 1)%Z else e.

(** The value nearest to [q] in the binary64 format, ties to even: a
    multiple [m * 2^u] of the unit in the last place of [q], which is
    [2^(e - 52)] in the binade [e] of [q] and [2^(-1074)] below the
    normal range.  The exponent is not bounded above here; [double]
    adds the overflow. *)
Definition nearest (q : Q) : Q :=
  let n := Z.abs (Qnum q) in
  let d := Zpos (Qden q) in
  if (n =? 0)%Z then 0%Q
  else
    let u := Z.max (binade n d - 52) (-1074) in
    let m :=
      if (0 <=? u)%Z then round_half_even n (d * 2 ^ u)
      else round_half_even (n * 2 ^ (- u)) d in
    let z := if (Qnum q <? 0)%Z then (- m)%Z else m in
    Qred (if (0 <=? u)%Z then inject_Z (z * 2 ^ u)
          else Qmake z (Z.to_pos (2 ^ (- u)))).

(** The Number for the real [q]: the nearest binary64 value, and an
    infinity when that value is out of range (from [2^1024] on). *)
Definition double (q : Q) : number :=
  let r := nearest q in
  if Qle_bool (inject_Z (2 ^ 1024)) r then PosInf
  else if Qle_bool r (inject_Z (- 2 ^ 1024)) then NegInf
  else Fin r.

(** *** Values produced by [JSON.parse] *)

Inductive value : Type :=
| Undefined
| Null
| Bool (b : bool)
| Num (n : number)
| Str (s : jstring)
| Arr (elements : list value)
| Obj (members : list (jstring * value)).

Definition ToBoolean (v : value) : bool :=
  match v with
  | Undefined | Null => false
  | Bool b => b
  | Num NaN => false
  | Num (PosInf | NegInf) => true
  | Num (Fin q) => negb (Qeq_bool q 0)
  | Str s => match s with [] => false | _ :: _ => true end
  | Arr _ | Obj _ => true
  end.

(** The own property [k] of an object built by [JSON.parse]: when a key
    is repeated in the text the last member wins. *)
Fixpoint own (k : jstring) (ms : list (jstring * value)) : option value :=
  match ms with
  | [] => None
  | (k', v) :: ms' =>
      match own k ms' with
      | Some w => Some w
      | None => if decide (k = k') then Some v else None
      end
  end.

(** [v.k] for a key [k] that no built-in prototype defines (such as
    [exp]): a TypeError on [null] and [undefined], the own property of
    an object, [undefined] on everything else. *)
Definition get (v : value) (k : jstring) : completion value :=
  match v with
  | Undefined | Null => Throw TypeError
  | Obj ms => Normal (match own k ms with Some w => w | None => Undefined end)
  | Bool _ | Num _ | Str _ | Arr _ => Normal Undefined
  end.

(** *** String.prototype.split and replace, as the codec uses them *)

(** [s.split(sep)] for a one-character separator. *)
Fixpoint split (sep : N) (s : jstring) : list jstring :=
  match s with
  | [] => [[]]
  | c :: r =>
      if c =? sep then [] :: split sep r
      else match split sep r with
           | [] => [[c]]
           | w :: ws => (c :: w) :: ws
           end
  end.

(** [s.replace(/a/g, b)] for single characters [a] and [b]. *)
Definition replace_all (a b : N) (s : jstring) : jstring :=
  map (fun c => if c =? a then b else c) s.

(** *** atob: the forgiving-base64 decoder of the HTML standard *)

Definition is_ascii_whitespace (c : N) : bool :=
  (c =? 9) || (c =? 10) || (c =? 12) || (c =? 13) || (c =? 32).

Definition sextet (c : N) : option N :=
  if (65 <=? c) && (c <=? 90) then Some (c - 65)
  else if (97 <=? c) && (c <=? 122) then Some (c - 71)
  else if (48 <=? c) && (c <=? 57) then Some (c + 4)
  else if c =? 43 then Some 62
  else if c =? 47 then Some 63
  else None.

(** One or two trailing [=] are dropped when the length is a multiple
    of four. *)
Definition strip_padding (d : jstring) : jstring :=
  if N.of_nat (length d) mod 4 =? 0 then
    match rev d with
    | 61 :: 61 :: r => rev r
    | 61 :: r => rev r
    | _ => d
    end
  else d.

Fixpoint decode_groups (l : list N) : list N :=
  match l with
  | a :: b :: c :: d :: r =>
      (a * 4 + b / 16) :: ((b mod 16) * 16 + c / 4) :: ((c mod 4) * 64 + d)
        :: decode_groups r
  | [a; b; c] => [a * 4 + b / 16; (b mod 16) * 16 + c / 4]
  | [a; b] => [a * 4 + b / 16]
  | _ => []
  end.

Fixpoint sextets (d : jstring) : option (list N) :=
  match d with
  | [] => Some []
  | c :: r =>
      match sextet c, sextets r with
      | Some x, Some xs => Some (x :: xs)
      | _, _ => None
      end
  end.

(** [atob(data)]: the decoded bytes, one code unit each. *)
Definition atob (data : jstring) : completion jstring :=
  let d := strip_padding (List.filter (fun c => negb (is_ascii_whitespace c)) data) in
  if N.of_nat (length d) mod 4 =? 1 then Throw InvalidCharacterError
  else match sextets d with
       | Some xs => Normal (decode_groups xs)
       | None => Throw InvalidCharacterError
       end.

(** *** Percent-encoding and decodeURIComponent *)

Definition hex_char (d : N) : N := if d <? 10 then 48 + d else 87 + d.

(** ['%' + ('00' + c.charCodeAt(0).toString(16)).slice(-2)] *)
Definition percent_encode (c : N) : jstring :=
  let h := c mod 256 in [37; hex_char (h / 16); hex_char (h mod 16)].

Definition hex_digit (c : N) : option N :=
  if (48 <=? c) && (c <=? 57) then Some (c - 48)
  else if (97 <=? c) && (c <=? 102) then Some (c - 87)
  else if (65 <=? c) && (c <=? 70) then Some (c - 55)
  else None.

(** A [%XY] escape at the head of the string. *)
Definition hex_octet (s : jstring) : option (N * jstring) :=
  match s with
  | c :: h :: l :: r =>
      if c =? 37 then
        match hex_digit h, hex_digit l with
        | Some x, Some y => Some (x * 16 + y, r)
        | _, _ => None
        end
      else None
  | _ => None
  end.

Fixpoint hex_octets (n : nat) (s : jstring) : option (list N * jstring) :=
  match n with
  | O => Some ([], s)
  | S n' =>
      match hex_octet s with
      | Some (b, r) =>
          match hex_octets n' r with
          | Some (bs, r') => Some (b :: bs, r')
          | None => None
          end
      | None => None
      end
  end.

Definition is_continuation (b : N) : bool := (128 <=? b) && (b <? 192).

(** The code point of a multi-byte UTF-8 sequence, when it is well
    formed: shortest form, no surrogate, at most U+10FFFF. *)
Definition utf8_code_point (octets : list N) : option N :=
  match octets with
  | [b0; b1] =>
      let cp := (b0 - 192) * 64 + (b1 - 128) in
      if (192 <=? b0) && (b0 <? 224) && is_continuation b1 && (128 <=? cp)
      then Some cp else None
  | [b0; b1; b2] =>
      let cp := (b0 - 224) * 4096 + (b1 - 128) * 64 + (b2 - 128) in
      if (224 <=? b0) && (b0 <? 240) && is_continuation b1 && is_continuation b2
         && (2048 <=? cp) && negb ((55296 <=? cp) && (cp <=? 57343))
      then Some cp else None
  | [b0; b1; b2; b3] =>
      let cp := (b0 - 240) * 262144 + (b1 - 128) * 4096 + (b2 - 128) * 64
                + (b3 - 128) in
      if (240 <=? b0) && (b0 <? 248) && is_continuation b1 && is_continuation b2
         && is_continuation b3 && (65536 <=? cp) && (cp <=? 1114111)
      then Some cp else None
  | _ => None
  end.

Definition utf16_encode (cp : N) : jstring :=
  if cp <? 65536 then [cp]
  else [55296 + (cp - 65536) / 1024; 56320 + (cp - 65536) mod 1024].

(** Number of octets announced by the first octet of an escape sequence
    (0 for a single ASCII octet; 1 and more than 4 are errors). *)
Definition announced (b : N) : nat :=
  if b <? 128 then 0%nat
  else if b <? 192 then 1%nat
  else if b <? 224 then 2%nat
  else if b <? 240 then 3%nat
  else if b <? 248 then 4%nat
  else 5%nat.

Fixpoint decode_uri (fuel : nat) (s : jstring) : option jstring :=
  match fuel with
  | O => match s with [] => Some [] | _ => None end
  | S fuel' =>
      match s with
      | [] => Some []
      | c :: r0 =>
          if c =? 37 then
            match hex_octet s with
            | None => None
            | Some (b, r) =>
                match announced b with
                | O => option_map (cons b) (decode_uri fuel' r)
                | S O => None
                | S (S k) =>
                    if (2 <? N.of_nat k)%N then None
                    else match hex_octets (S k) r with
                         | None => None
                         | Some (bs, r') =>
                             match utf8_code_point (b :: bs), decode_uri fuel' r' with
                             | Some cp, Some rest => Some (utf16_encode cp ++ rest)
                             | _, _ => None
                             end
                         end
                end
            end
          else option_map (cons c) (decode_uri fuel' r0)
      end
  end.

(** [decodeURIComponent(s)]: a URIError on a malformed escape or on
    octets that are not well-formed UTF-8.  Every step consumes a
    character, so the length of the string is fuel enough (lemma
    [JsonFuel.decode_uri_enough] below). *)
Definition decodeURIComponent (s : jstring) : completion jstring :=
  of_option URIError (decode_uri (length s) s).


(** *** JSON.parse *)

Definition Qltb (a b : Q) : bool :=
  match Qcompare a b with Lt => true | _ => false end.

Definition is_digit (c : N) : bool := (48 <=? c) && (c <=? 57).

(** The leading decimal digits of a string, as digit values. *)
Fixpoint span_digits (s : jstring) : list N * jstring :=
  match s with
  | c :: r =>
      if is_digit c then let '(ds, r') := span_digits r in ((c - 48) :: ds, r')
      else ([], s)
  | [] => ([], [])
  end.

Definition digits_value (ds : list N) : N :=
  fold_left (fun a d => a * 10 + d) ds 0.

(** [(-1)^neg * m * 10^scale], the mathematical value of a decimal
    literal, which [double] then rounds. *)
Definition decimal (neg : bool) (m : N) (scale : Z) : Q :=
  let z := if neg then (- Z.of_N m)%Z else Z.of_N m in
  if (0 <=? scale)%Z then inject_Z (z * 10 ^ scale)
  else Qmake z (Z.to_pos (10 ^ (- scale))).

(** The rest of the string after the character [c] at its head. *)
Definition head_is (c : N) (s : jstring) : option jstring :=
  match s with
  | x :: r => if x =? c then Some r else None
  | [] => None
  end.

(** An optional leading [-], or [+] where [plus] allows it: whether the
    sign is negative, and the rest. *)
Definition leading_sign (plus : bool) (s : jstring) : bool * jstring :=
  match s with
  | c :: r =>
      if c =? 45 then (true, r)
      else if plus && (c =? 43) then (false, r)
      else (false, s)
  | [] => (false, s)
  end.

(** An optional exponent part [e|E (+|-)? digits]; [None] when the
    letter is there and no digit follows. *)
Definition exponent_part (s : jstring) : option (Z * jstring) :=
  match s with
  | c :: r =>
      if (c =? 101) || (c =? 69) then
        let '(neg, r1) := leading_sign true r in
        match span_digits r1 with
        | ([], _) => None
        | (ds, r2) =>
            let e := Z.of_N (digits_value ds) in
            Some (if neg then (- e)%Z else e, r2)
        end
      else Some (0%Z, s)
  | [] => Some (0%Z, s)
  end.

(** An optional fraction [. digits+] of a JSON number. *)
Definition fraction_part (s : jstring) : option (list N * jstring) :=
  match head_is 46 s with
  | Some r =>
      match span_digits r with
      | ([], _) => None
      | (fp, s3) => Some (fp, s3)
      end
  | None => Some ([], s)
  end.

(** A JSON number: [-? (0 | [1-9] digits) (. digits+)? exponent?], as
    the Number nearest to the value of the literal. *)
Definition parse_number (s : jstring) : option (number * jstring) :=
  let '(neg, s1) := leading_sign false s in
  match span_digits s1 with
  | ([], _) => None
  | (0 :: _ :: _, _) => None
  | (ip, s2) =>
      match fraction_part s2 with
      | None => None
      | Some (fp, s3) =>
          match exponent_part s3 with
          | None => None
          | Some (e, s4) =>
              Some (double (decimal neg (digits_value (ip ++ fp))
                              (e - Z.of_nat (length fp))), s4)
          end
      end
  end.

(** The character a one-letter escape stands for. *)
Definition escape (e : N) : option N :=
  if e =? 34 then Some 34
  else if e =? 92 then Some 92
  else if e =? 47 then Some 47
  else if e =? 98 then Some 8
  else if e =? 102 then Some 12
  else if e =? 110 then Some 10
  else if e =? 114 then Some 13
  else if e =? 116 then Some 9
  else None.

Definition hex4 (a b c d : N) : option N :=
  match hex_digit a, hex_digit b, hex_digit c, hex_digit d with
  | Some x, Some y, Some z, Some w => Some (((x * 16 + y) * 16 + z) * 16 + w)
  | _, _, _, _ => None
  end.

(** The rest of a JSON string literal after its opening quote; [acc] is
    the reversed prefix already read. *)
Fixpoint parse_string (s : jstring) (acc : jstring) : option (jstring * jstring) :=
  match s with
  | [] => None
  | c :: r =>
      if c =? 34 then Some (rev acc, r)
      else if c =? 92 then
        match r with
        | [] => None
        | e :: r1 =>
            if e =? 117 then
              match r1 with
              | a :: b :: c' :: d :: r' =>
                  match hex4 a b c' d with
                  | Some u => parse_string r' (u :: acc)
                  | None => None
                  end
              | _ => None
              end
            else
              match escape e with
              | Some x => parse_string r1 (x :: acc)
              | None => None
              end
        end
      else if c <? 32 then None
      else parse_string r (c :: acc)
  end.

Definition is_json_whitespace (c : N) : bool :=
  (c =? 9) || (c =? 10) || (c =? 13) || (c =? 32).

Fixpoint skip_ws (s : jstring) : jstring :=
  match s with
  | c :: r => if is_json_whitespace c then skip_ws r else s
  | [] => []
  end.

Fixpoint strip_prefix (p s : jstring) : option jstring :=
  match p, s with
  | [], _ => Some s
  | a :: p', b :: s' => if a =? b then strip_prefix p' s' else None
  | _ :: _, [] => None
  end.

(** [null], [true], [false] or a number at the head of the string. *)
Definition parse_scalar (s : jstring) : option (value * jstring) :=
  match strip_prefix (js "null") s with
  | Some r => Some (Null, r)
  | None =>
  match strip_prefix (js "true") s with
  | Some r => Some (Bool true, r)
  | None =>
  match strip_prefix (js "false") s with
  | Some r => Some (Bool false, r)
  | None =>
  match parse_number s with
  | Some (q, r) => Some (Num q, r)
  | None => None
  end end end end.

(** The three parsers take the fuel left; every call uses one unit.
    [parse_elements] reads the elements of an array after its bracket
    up to and including the closing bracket, [parse_members] the members
    of an object likewise. *)
Fixpoint parse_value (fuel : nat) (s : jstring) : option (value * jstring) :=
  match fuel with
  | O => None
  | S f =>
      match head_is 91 (skip_ws s) with
      | Some r =>
          match head_is 93 (skip_ws r) with
          | Some r' => Some (Arr [], r')
          | None =>
              match parse_elements f r with
              | Some (vs, r') => Some (Arr vs, r')
              | None => None
              end
          end
      | None =>
      match head_is 123 (skip_ws s) with
      | Some r =>
          match head_is 125 (skip_ws r) with
          | Some r' => Some (Obj [], r')
          | None =>
              match parse_members f r with
              | Some (ms, r') => Some (Obj ms, r')
              | None => None
              end
          end
      | None =>
      match head_is 34 (skip_ws s) with
      | Some r =>
          match parse_string r [] with
          | Some (str, r') => Some (Str str, r')
          | None => None
          end
      | None => parse_scalar (skip_ws s)
      end end end
  end
with parse_elements (fuel : nat) (s : jstring) : option (list value * jstring) :=
  match fuel with
  | O => None
  | S f =>
      match parse_value f s with
      | Some (v, r) =>
          match head_is 44 (skip_ws r) with
          | Some r' =>
              match parse_elements f r' with
              | Some (vs, r'') => Some (v :: vs, r'')
              | None => None
              end
          | None =>
              match head_is 93 (skip_ws r) with
              | Some r' => Some ([v], r')
              | None => None
              end
          end
      | None => None
      end
  end
with parse_members (fuel : nat) (s : jstring)
  : option (list (jstring * value) * jstring) :=
  match fuel with
  | O => None
  | S f =>
      match head_is 34 (skip_ws s) with
      | Some r =>
          match parse_string r [] with
          | Some (k, r1) =>
              match head_is 58 (skip_ws r1) with
              | Some r2 =>
                  match parse_value f r2 with
                  | Some (v, r3) =>
                      match head_is 44 (skip_ws r3) with
                      | Some r4 =>
                          match parse_members f r4 with
                          | Some (ms, r5) => Some ((k, v) :: ms, r5)
                          | None => None
                          end
                      | None =>
                          match head_is 125 (skip_ws r3) with
                          | Some r4 => Some ([(k, v)], r4)
                          | None => None
                          end
                      end
                  | None => None
                  end
              | None => None
              end
          | None => None
          end
      | None => None
      end
  end.

(** [JSON.parse(text)]: a SyntaxError unless the text is one JSON value
    between optional white space.  Twice the length of the text is fuel
    enough (lemma [JsonFuel.parse_value_enough] below). *)
Definition JSON_parse (text : jstring) : completion value :=
  match parse_value (2 * length text + 2) text with
  | Some (v, r) =>
      match skip_ws r with
      | [] => Normal v
      | _ :: _ => Throw SyntaxError
      end
  | None => Throw SyntaxError
  end.


(** *** ToNumber and the relational operator *)

(** White space and line terminators trimmed by [StringToNumber]. *)
Definition is_str_whitespace (c : N) : bool :=
  (c =? 9) || (c =? 10) || (c =? 11) || (c =? 12) || (c =? 13) || (c =? 32)
  || (c =? 160) || (c =? 5760) || ((8192 <=? c) && (c <=? 8202))
  || (c =? 8232) || (c =? 8233) || (c =? 8239) || (c =? 8287)
  || (c =? 12288) || (c =? 65279).

Fixpoint drop_ws (s : jstring) : jstring :=
  match s with
  | c :: r => if is_str_whitespace c then drop_ws r else s
  | [] => []
  end.

Definition trim (s : jstring) : jstring := rev (drop_ws (rev (drop_ws s))).

(** The value of a non-empty string of digits in the given radix. *)
Fixpoint radix_value (radix : N) (s : jstring) (acc : N) : option N :=
  match s with
  | [] => Some acc
  | c :: r =>
      match hex_digit c with
      | Some d => if d <? radix then radix_value radix r (acc * radix + d) else None
      | None => None
      end
  end.

Definition non_decimal (radix : N) (s : jstring) : number :=
  match s with
  | [] => NaN
  | _ :: _ =>
      match radix_value radix s 0 with
      | Some n => double (inject_Z (Z.of_N n))
      | None => NaN
      end
  end.

(** [StrDecimalLiteral]: an optional sign, then [Infinity] or decimal
    digits with an optional fraction and exponent. *)
Definition str_decimal (t : jstring) : number :=
  let '(neg, u) := leading_sign true t in
  if decide (u = js "Infinity") then (if neg then NegInf else PosInf)
  else
    let '(ip, s2) := span_digits u in
    let '(fp, s3) :=
      match head_is 46 s2 with
      | Some r => span_digits r
      | None => ([], s2)
      end in
    match ip ++ fp with
    | [] => NaN
    | ds =>
        match exponent_part s3 with
        | Some (e, []) =>
            double (decimal neg (digits_value ds) (e - Z.of_nat (length fp)))
        | _ => NaN
        end
    end.

Definition StringToNumber (s : jstring) : number :=
  match trim s with
  | [] => Fin 0
  | 48 :: x :: r =>
      if (x =? 120) || (x =? 88) then non_decimal 16 r
      else if (x =? 111) || (x =? 79) then non_decimal 8 r
      else if (x =? 98) || (x =? 66) then non_decimal 2 r
      else str_decimal (48 :: x :: r)
  | t => str_decimal t
  end.

(** [ToNumber(v)] for a value built by [JSON.parse].
    - A plain object converts through [Object.prototype.toString] to
      ["[object Object]"], which is not a number; when it has an own
      member [toString] (never callable in parsed JSON) the conversion
      finds no method and throws a TypeError.
    - An array converts through [join]: no element gives the empty
      string (0), one element gives the string of that element ([null]
      gives the empty string, a number its own digits), two or more
      give a string with a comma, which is not a number. *)
Fixpoint ToNumber (v : value) : completion number :=
  match v with
  | Undefined => Normal NaN
  | Null => Normal (Fin 0)
  | Bool b => Normal (Fin (if b then 1 else 0))
  | Num n => Normal n
  | Str s => Normal (StringToNumber s)
  | Obj ms =>
      match own (js "toString") ms with
      | Some _ => Throw TypeError
      | None => Normal NaN
      end
  | Arr l =>
      let element (x : value) : completion number :=
        match x with
        | Undefined => Normal (Fin 0)
        | Bool _ => Normal NaN
        | _ => ToNumber x
        end in
      let fix joined (l : list value) : completion (list number) :=
        match l with
        | [] => Normal []
        | x :: r =>
            bind (element x) (fun n =>
            bind (joined r) (fun ns => Normal (n :: ns)))
        end in
      bind (joined l) (fun ns =>
        Normal (match ns with
                | [] => Fin 0
                | [n] => n
                | _ :: _ :: _ => NaN
                end))
  end.

(** [v > t] where [t] is a finite number: both operands are converted
    to numbers, and a comparison with NaN is false. *)
Definition greater_than (v : value) (t : Q) : completion bool :=
  bind (ToNumber v) (fun n =>
    Normal (match n with
            | NaN | NegInf => false
            | PosInf => true
            | Fin q => Qltb t q
            end)).

End JS.

(* ===================================================================== *)
(** ** Strings that may be undefined                                      *)
(* ===================================================================== *)

Module Opt.

(** Truthiness of a string that may be missing: [undefined] and the
    empty string are falsy. *)
Definition truthy (o : option string) : bool :=
  match o with
  | Some s => negb (String.eqb s "")
  | None => false
  end.

(** [a || b] on strings *)
Definition or_else (a : option string) (b : string) : string :=
  match a with
  | Some s => if String.eqb s "" then b else s
  | None => b
  end.

(** A value used as a string, as in a template literal. *)
Definition interpolate (o : option string) : string :=
  match o with
  | Some s => s
  | None => "undefined"
  end.

End Opt.

(* ===================================================================== *)
(** ** Angular HttpClient errors and the browser                          *)
(* ===================================================================== *)

Module Http.

(** The body [error.error] of an error response, as the handlers read
    it: whether it is an [ErrorEvent], and its [error] and [message]
    members when they are there. *)
Record body : Type := mkBody {
  isErrorEvent : bool;
  body_error : option string;
  body_message : option string
}.

Record HttpErrorResponse : Type := mkResponse {
  status : Z;
  message : string;
  error : option body
}.

(** What a subscriber can receive as an error: the response of the
    transport itself, or an [Error] object made by a handler. *)
Inductive failure : Type :=
| Raw (e : HttpErrorResponse)
| ErrorObject (message : string).

(** [error.error?.error] and [error.error?.message] *)
Definition error_error (e : HttpErrorResponse) : option string :=
  match error e with
  | Some b => body_error b
  | None => None
  end.

Definition error_message (e : HttpErrorResponse) : option string :=
  match error e with
  | Some b => body_message b
  | None => None
  end.

(** [error.error instanceof ErrorEvent] *)
Definition is_client_side (e : HttpErrorResponse) : bool :=
  match error e with
  | Some b => isErrorEvent b
  | None => false
  end.

End Http.

Module Browser.

(** [localStorage], [sessionStorage] and the calls of [router.navigate],
    oldest first. *)
Record t : Type := mk {
  localStorage : gmap string JS.jstring;
  sessionStorage : gmap string string;
  navigations : list string
}.

Definition setLocal (k : string) (v : JS.jstring) (b : t) : t :=
  mk (<[k := v]> (localStorage b)) (sessionStorage b) (navigations b).

Definition removeLocal (k : string) (b : t) : t :=
  mk (delete k (localStorage b)) (sessionStorage b) (navigations b).

Definition setSession (k : string) (v : string) (b : t) : t :=
  mk (localStorage b) (<[k := v]> (sessionStorage b)) (navigations b).

Definition navigate (path : string) (b : t) : t :=
  mk (localStorage b) (sessionStorage b) (navigations b ++ [path]).

End Browser.

(* ===================================================================== *)
(** ** services/auth/auth.service.ts                                      *)
(* ===================================================================== *)

Module AuthService.
Import JS.

(** [role: 'student' | 'teacher' | 'admin'] *)
Inductive Role : Type := student | teacher | admin.

Definition role_name (r : Role) : string :=
  match r with
  | student => "student"
  | teacher => "teacher"
  | admin => "admin"
  end.

Record StudentInfo : Type := mkStudentInfo {
  student_id : Z;
  matricule : string;
  student_full_name : string;
  class_id : Z
}.

Record TeacherInfo : Type := mkTeacherInfo {
  teacher_id : Z;
  teacher_full_name : string
}.

Record User : Type := mkUser {
  id : Z;
  username : string;
  email : string;
  role : Role;
  created_at : string;
  is_active : bool;
  student_info : option StudentInfo;
  teacher_info : option TeacherInfo
}.

Record LoginRequest : Type := mkLoginRequest {
  login_username : string;
  password : string
}.

Record LoginResponse : Type := mkLoginResponse {
  access_token : jstring;
  user : User
}.

(** The service: the browser it runs in and its two subjects. *)
Record t : Type := mk {
  browser : Browser.t;
  currentUserSubject : Rx.BehaviorSubject (option User);
  isAuthenticatedSubject : Rx.BehaviorSubject bool
}.

Definition TOKEN_KEY : string := "school_auth_token".
Definition USER_KEY : string := "school_user_data".

Definition with_browser (f : Browser.t -> Browser.t) (s : t) : t :=
  mk (f (browser s)) (currentUserSubject s) (isAuthenticatedSubject s).

Definition getToken (s : t) : option jstring :=
  Browser.localStorage (browser s) !! TOKEN_KEY.

Definition getCurrentUser (s : t) : option User :=
  Rx.value (currentUserSubject s).

Definition getUserRole (s : t) : option string :=
  match getCurrentUser s with
  | Some u => Some (role_name (role u))
  | None => None
  end.

(** [userRole === role] *)
Definition hasRole (s : t) (r : string) : bool :=
  match getUserRole s with
  | Some userRole => String.eqb userRole r
  | None => false
  end.

(** [userRole ? roles.includes(userRole) : false] *)
Definition hasAnyRole (s : t) (roles : list string) : bool :=
  match getUserRole s with
  | Some userRole =>
      if String.eqb userRole "" then false
      else existsb (String.eqb userRole) roles
  | None => false
  end.

Definition isAdmin (s : t) : bool := hasRole s "admin".
Definition isTeacher (s : t) : bool := hasRole s "teacher".
Definition isStudent (s : t) : bool := hasRole s "student".

(** [token.split('.')[1]], the two [replace] calls, [atob], the
    percent-encoding of every byte, [decodeURIComponent] and
    [JSON.parse], inside the [try] whose [catch] throws
    [new Error('Token JWT invalide')].  Calling [replace] on the
    [undefined] that a token without a dot gives is a TypeError. *)
Definition decodeJWT (token : jstring) : completion value :=
  try_catch
    (bind (of_option TypeError (nth_error (split 46 token) 1)) (fun base64Url =>
     let base64 := replace_all 95 47 (replace_all 45 43 base64Url) in
     bind (atob base64) (fun bytes =>
     bind (decodeURIComponent (concat (List.map percent_encode bytes)))
       (fun jsonPayload => JSON_parse jsonPayload))))
    (fun _ => Throw (Error "Token JWT invalide")).

(** [Date.now() / 1000]: the quotient of two integral Numbers, rounded
    to the nearest Number.  A time value is an integer of at most
    8.64e15 milliseconds in magnitude, so it is exact and the quotient
    is finite. *)
Definition seconds (now : N) : Q := nearest (Qmake (Z.of_N now) 1000).

(** The JavaScript value that [hasValidToken] returns: [a && b] is [a]
    itself when [a] is falsy. *)
Definition hasValidToken_value (s : t) (now : N) : completion value :=
  match getToken s with
  | None | Some [] => Normal (Bool false)
  | Some token =>
      try_catch
        (bind (decodeJWT token) (fun payload =>
         let currentTime := seconds now in
         bind (get payload (js "exp")) (fun exp =>
         if ToBoolean exp then
           bind (get payload (js "exp")) (fun exp' =>
           bind (greater_than exp' currentTime) (fun b => Normal (Bool b)))
         else Normal exp)))
        (fun _ => Normal (Bool false))
  end.

(** [hasValidToken(): boolean].  The declared result is a boolean and
    every caller tests it ([!isAuthenticated()], the initial value of a
    [BehaviorSubject<boolean>]), so the result is read through
    [ToBoolean]. *)
Definition hasValidToken (s : t) (now : N) : completion bool :=
  bind (hasValidToken_value s now) (fun v => Normal (ToBoolean v)).

Definition isAuthenticated (s : t) (now : N) : completion bool :=
  hasValidToken s now.

Definition setToken (token : jstring) (s : t) : t :=
  with_browser (Browser.setLocal TOKEN_KEY token) s.

Definition logout (s : t) : t :=
  let b := Browser.removeLocal USER_KEY (Browser.removeLocal TOKEN_KEY (browser s)) in
  mk (Browser.navigate "/login" b)
     (Rx.next None (currentUserSubject s))
     (Rx.next false (isAuthenticatedSubject s)).

(** [handleError(error: HttpErrorResponse)] *)
Definition handleError {A} (error : Http.HttpErrorResponse)
  : Rx.selected Http.failure A :=
  let errorMessage :=
    if Http.is_client_side error then
      "Erreur: " +:+ Opt.interpolate (Http.error_message error)
    else if Http.status error =? 401 then "Identifiants invalides"
    else if Http.status error =? 403 then "Accès non autorisé"
    else if Http.status error =? 500 then "Erreur serveur"
    else if Opt.truthy (Http.error_error error) then
      Opt.interpolate (Http.error_error error)
    else "Erreur " +:+ pretty (Http.status error) +:+ ": " +:+ Http.message error in
  Rx.Returned (Rx.throwError (Http.ErrorObject errorMessage)).

Section Serializer.

(** [JSON.stringify] on a user. *)
Variable JSON_stringify : User -> jstring.

Definition setUser (u : User) (s : t) : t :=
  with_browser (Browser.setLocal USER_KEY (JSON_stringify u)) s.

(** [login(credentials)], subscribed to; [http_post] is the exchange
    with the server behind [this.http.post]. *)
Definition login
    (http_post : LoginRequest -> Rx.Observable Http.HttpErrorResponse LoginResponse)
    (credentials : LoginRequest) (s : t)
  : t * Rx.Observable Http.failure LoginResponse :=
  let '(s', o) :=
    Rx.tap (fun response s0 =>
              let s1 := setToken (access_token response) s0 in
              let s2 := setUser (user response) s1 in
              mk (browser s2)
                 (Rx.next (Some (user response)) (currentUserSubject s2))
                 (Rx.next true (isAuthenticatedSubject s2)))
           (http_post credentials) s in
  (s', Rx.catchError handleError o).

Definition getProfile
    (http_get : Rx.Observable Http.HttpErrorResponse User) (s : t)
  : t * Rx.Observable Http.failure User :=
  let '(s', o) :=
    Rx.tap (fun u s0 =>
              let s1 := setUser u s0 in
              mk (browser s1) (Rx.next (Some u) (currentUserSubject s1))
                 (isAuthenticatedSubject s1))
           http_get s in
  (s', Rx.catchError handleError o).

End Serializer.

End AuthService.

(* ===================================================================== *)
(** ** services/auth/auth-guard.service.ts and guards/auth.guard.ts       *)
(* ===================================================================== *)

Module Guards.
Import AuthService.

(** [route.data]: the members [roles] and [role], when declared. *)
Record RouteData : Type := mkData {
  data_roles : option (list string);
  data_role : option string
}.

Definition REDIRECT_KEY : string := "redirectUrl".

Module AuthGuard.

(** [checkAuth(url?)]: [isAuthenticated$.pipe(take(1), map(...))] reads
    the current value of the subject. *)
Definition checkAuth (url : option string) (s : t) : t * bool :=
  if Rx.value (isAuthenticatedSubject s) then (s, true)
  else
    let s1 :=
      if Opt.truthy url then
        with_browser (Browser.setSession REDIRECT_KEY (Opt.interpolate url)) s
      else s in
    (with_browser (Browser.navigate "/login") s1, false).

Definition canActivate (route : RouteData) (url : string) (s : t) : t * bool :=
  checkAuth (Some url) s.

Definition canActivateChild (route : RouteData) (url : string) (s : t)
  : t * bool :=
  canActivate route url s.

Definition canLoad (s : t) : t * bool := checkAuth None s.

End AuthGuard.

Module RoleGuard.

Definition handleUnauthorized (s : t) : t :=
  let target :=
    match getUserRole s with
    | Some r =>
        if String.eqb r "admin" then "/admin/dashboard"
        else if String.eqb r "teacher" then "/teacher/dashboard"
        else if String.eqb r "student" then "/student/dashboard"
        else "/unauthorized"
    | None => "/unauthorized"
    end in
  with_browser (Browser.navigate target) s.

Definition checkRole (route : RouteData) (url : string) (s : t) : t * bool :=
  if negb (Rx.value (isAuthenticatedSubject s)) then
    (with_browser (Browser.navigate "/login")
       (with_browser (Browser.setSession REDIRECT_KEY url) s), false)
  else
    let allowedRoles := data_roles route in
    let requiredRole := data_role route in
    if negb (bool_decide (is_Some allowedRoles)) && negb (Opt.truthy requiredRole)
    then (s, true)
    else
      match getCurrentUser s with
      | None => (handleUnauthorized s, false)
      | Some _ =>
          let hasAccess := false in
          let hasAccess :=
            match allowedRoles with
            | Some l => if (0 <? length l)%nat then hasAnyRole s l else hasAccess
            | None => hasAccess
            end in
          let hasAccess :=
            if Opt.truthy requiredRole
            then hasRole s (Opt.interpolate requiredRole)
            else hasAccess in
          if negb hasAccess then (handleUnauthorized s, false)
          else (s, true)
      end.

Definition canActivate (route : RouteData) (url : string) (s : t) : t * bool :=
  checkRole route url s.

End RoleGuard.

Module AdminGuard.

Definition checkAdminRole (url : string) (s : t) : t * bool :=
  if negb (Rx.value (isAuthenticatedSubject s)) then
    (with_browser (Browser.navigate "/login")
       (with_browser (Browser.setSession REDIRECT_KEY url) s), false)
  else if negb (isAdmin s) then
    (with_browser (Browser.navigate "/unauthorized") s, false)
  else (s, true).

End AdminGuard.

Module TeacherGuard.

Definition checkTeacherRole (url : string) (s : t) : t * bool :=
  if negb (Rx.value (isAuthenticatedSubject s)) then
    (with_browser (Browser.navigate "/login")
       (with_browser (Browser.setSession REDIRECT_KEY url) s), false)
  else if negb (hasAnyRole s ["admin"; "teacher"]) then
    (with_browser (Browser.navigate "/unauthorized") s, false)
  else (s, true).

End TeacherGuard.

Module StudentGuard.

Definition checkStudentRole (url : string) (s : t) : t * bool :=
  if negb (Rx.value (isAuthenticatedSubject s)) then
    (with_browser (Browser.navigate "/login")
       (with_browser (Browser.setSession REDIRECT_KEY url) s), false)
  else if negb (hasAnyRole s ["admin"; "student"]) then
    (with_browser (Browser.navigate "/unauthorized") s, false)
  else (s, true).

End StudentGuard.

(** The functional guard [authGuard] of guards/auth.guard.ts, the one the
    route table installs.  [expectedRoles.includes] on a route without
    [roles] is a TypeError. *)
Definition authGuard (route : RouteData) (url : string) (now : N) (s : t)
  : t * JS.completion bool :=
  let expectedRoles := data_roles route in
  match isAuthenticated s now with
  | JS.Throw e => (s, JS.Throw e)
  | JS.Normal false => (with_browser (Browser.navigate "/login") s, JS.Normal false)
  | JS.Normal true =>
      let userRole := getUserRole s in
      match expectedRoles with
      | None => (s, JS.Throw JS.TypeError)
      | Some l =>
          if match userRole with
             | Some r => existsb (String.eqb r) l
             | None => false
             end
          then (s, JS.Normal true)
          else (with_browser (Browser.navigate "/login") s, JS.Normal false)
      end
  end.

End Guards.

(* ===================================================================== *)
(** ** services/shared/cache.service.ts                                   *)
(* ===================================================================== *)

Module CacheService.

Section Data.

(** The type of the cached data; [null] is the [None] of [option T]. *)
Variable T : Type.

Record CacheItem : Type := mkItem {
  data : T;
  timestamp : Z;
  expiry : option Z;
  key : string
}.

Record CacheOptions : Type := mkOptions {
  ttl : option Z;
  forceRefresh : bool;
  persistent : bool
}.

(** [options: CacheOptions = {}] *)
Definition no_options : CacheOptions := mkOptions None false false.

Record t : Type := mk {
  cache : gmap string CacheItem;
  cacheSubjects : gmap string (Rx.BehaviorSubject (option T))
}.

Definition init : t := mk ∅ ∅.

(** [5 * 60 * 1000] *)
Definition defaultTTL : Z := 5 * 60 * 1000.

(** [isExpired(item)]: [!item.expiry] holds for a missing expiry and
    for 0. *)
Definition isExpired (now : N) (item : CacheItem) : bool :=
  match expiry item with
  | None => false
  | Some e => if e =? 0 then false else Z.of_N now >? e
  end.

(** [subject.next(v)] on the subject of [k], when there is one. *)
Definition notify (k : string) (v : option T)
    (subjects : gmap string (Rx.BehaviorSubject (option T)))
  : gmap string (Rx.BehaviorSubject (option T)) :=
  match subjects !! k with
  | Some subject => <[k := Rx.next v subject]> subjects
  | None => subjects
  end.

Definition delete (k : string) (s : t) : t * bool :=
  let deleted := bool_decide (is_Some (cache s !! k)) in
  (mk (base.delete k (cache s))
      (if deleted then notify k None (cacheSubjects s) else cacheSubjects s),
   deleted).

Definition get (now : N) (k : string) (s : t) : t * option T :=
  match cache s !! k with
  | None => (s, None)
  | Some item =>
      if isExpired now item then (fst (delete k s), None)
      else (s, Some (data item))
  end.

(** [options.ttl || this.defaultTTL], the first line of [set]: a
    missing [ttl] and a [ttl] of 0 both give the default. *)
Definition effective_ttl (options : CacheOptions) : Z :=
  match ttl options with
  | Some x => if x =? 0 then defaultTTL else x
  | None => defaultTTL
  end.

(** [set(key, data, options)]; both reads of the clock give [now]. *)
Definition set (now : N) (k : string) (d : T) (options : CacheOptions) (s : t) : t :=
  let ttl := effective_ttl options in
  let expiry := if ttl >? 0 then Some (Z.of_N now + ttl) else None in
  let item := mkItem d (Z.of_N now) expiry k in
  mk (<[k := item]> (cache s)) (notify k (Some d) (cacheSubjects s)).

Definition has (now : N) (k : string) (s : t) : t * bool :=
  match cache s !! k with
  | None => (s, false)
  | Some item =>
      if isExpired now item then (fst (delete k s), false)
      else (s, true)
  end.

Definition clear (s : t) : t :=
  mk ∅ (Rx.next None <$> cacheSubjects s).

Definition size (s : t) : nat := base.size (cache s).

(** [Array.from(this.cache.keys())], in the order of the map. *)
Definition keys (s : t) : list string := (map_to_list (cache s)).*1.

(** [watch(key)]: the subject of the key, created on first use with
    the value [get] gives. *)
Definition watch (now : N) (k : string) (s : t) : t :=
  match cacheSubjects s !! k with
  | Some _ => s
  | None =>
      let '(s', currentValue) := get now k s in
      mk (cache s') (<[k := Rx.create currentValue]> (cacheSubjects s'))
  end.

(** [watch(key).subscribe(...)] *)
Definition subscribe (now : N) (k : string) (s : t) : t :=
  let s' := watch now k s in
  mk (cache s') (alter Rx.subscribe k (cacheSubjects s')).

End Data.

Arguments mkItem {T} _ _ _ _.
Arguments data {T} _.
Arguments timestamp {T} _.
Arguments expiry {T} _.
Arguments key {T} _.
Arguments mk {T} _ _.
Arguments cache {T} _.
Arguments cacheSubjects {T} _.
Arguments init {T}.
Arguments isExpired {T} _ _.
Arguments notify {T} _ _ _.
Arguments delete {T} _ _.
Arguments get {T} _ _ _.
Arguments set {T} _ _ _ _ _.
Arguments has {T} _ _ _.
Arguments clear {T} _.
Arguments size {T} _.
Arguments keys {T} _.
Arguments watch {T} _ _ _.
Arguments subscribe {T} _ _ _.

End CacheService.

(* ===================================================================== *)
(** ** services/api: the resource clients                                 *)
(* ===================================================================== *)

Module GradeService.

Inductive Appreciation : Type := CA | CANT | NC.

(** [getAppreciation(grade)] on a finite number; the comparisons of
    finite numbers are those of the rationals. *)
Definition getAppreciation (grade : Q) : Appreciation :=
  if JS.Qltb 10 grade then CA
  else if Qle_bool 7 grade && Qle_bool grade 10 then CANT
  else NC.

(** [handleError(error)]: logs and throws the error it was given. *)
Definition handleError {A} (error : Http.HttpErrorResponse)
  : Rx.selected Http.failure A :=
  Rx.Thrown (Http.Raw error).

(** [getGrade(id)]: [this.http.get(...).pipe(catchError(this.handleError))] *)
Definition getGrade {Grade} (http_get : Rx.Observable Http.HttpErrorResponse Grade)
  : Rx.Observable Http.failure Grade :=
  Rx.catchError handleError http_get.

End GradeService.

Module SubjectService.

Definition handleError {A} (error : Http.HttpErrorResponse)
  : Rx.selected Http.failure A :=
  let errorMessage :=
    if Http.is_client_side error then
      "Erreur client: " +:+ Opt.interpolate (Http.error_message error)
    else if Http.status error =? 400 then
      Opt.or_else (Http.error_error error) "Données invalides"
    else if Http.status error =? 401 then "Non autorisé - Veuillez vous reconnecter"
    else if Http.status error =? 403 then "Accès refusé - Permissions insuffisantes"
    else if Http.status error =? 404 then "Matière non trouvée"
    else if Http.status error =? 409 then "Une matière avec ce code existe déjà"
    else if Http.status error =? 500 then "Erreur serveur - Veuillez réessayer plus tard"
    else "Erreur " +:+ pretty (Http.status error) +:+ ": "
           +:+ Opt.or_else (Http.error_error error) (Http.message error) in
  Rx.Returned (Rx.throwError (Http.ErrorObject errorMessage)).

Definition getSubject {Subject}
    (http_get : Rx.Observable Http.HttpErrorResponse Subject)
  : Rx.Observable Http.failure Subject :=
  Rx.catchError handleError http_get.

End SubjectService.

Module ClassService.

Definition handleError {A} (error : Http.HttpErrorResponse)
  : Rx.selected Http.failure A :=
  let errorMessage :=
    if Http.is_client_side error then
      "Erreur: " +:+ Opt.interpolate (Http.error_message error)
    else if Http.status error =? 401 then "Session expirée. Veuillez vous reconnecter."
    else if Http.status error =? 403 then "Accès non autorisé."
    else if Http.status error =? 404 then "Classe non trouvée."
    else if Http.status error =? 409 then "Une classe avec ce nom existe déjà."
    else if Http.status error =? 422 then
      Opt.or_else (Http.error_error error) "Données invalides."
    else if Http.status error =? 500 then "Erreur interne du serveur."
    else Opt.or_else (Http.error_error error) "Une erreur est survenue" in
  Rx.Returned (Rx.throwError (Http.ErrorObject errorMessage)).

Definition getClass {Class}
    (http_get : Rx.Observable Http.HttpErrorResponse Class)
  : Rx.Observable Http.failure Class :=
  Rx.catchError handleError http_get.

End ClassService.

Module TeacherService.

(** The handler shared word for word with the student client. *)
Definition handleError {A} (error : Http.HttpErrorResponse)
  : Rx.selected Http.failure A :=
  let errorMessage :=
    if Opt.truthy (Http.error_error error) then Opt.interpolate (Http.error_error error)
    else if Opt.truthy (Http.error_message error) then
      Opt.interpolate (Http.error_message error)
    else if negb (String.eqb (Http.message error) "") then Http.message error
    else "Une erreur est survenue" in
  Rx.Returned (Rx.throwError (Http.ErrorObject errorMessage)).

Definition getTeacher {Teacher}
    (http_get : Rx.Observable Http.HttpErrorResponse Teacher)
  : Rx.Observable Http.failure Teacher :=
  Rx.catchError handleError http_get.

(** [canTeachSubject]: [getTeacher(...).pipe(map(...), catchError(() => [false]))];
    [teaches] is the test the [map] applies to the teacher. *)
Definition canTeachSubject {Teacher} (teaches : Teacher -> bool)
    (http_get : Rx.Observable Http.HttpErrorResponse Teacher)
  : Rx.Observable Http.failure bool :=
  Rx.catchError (fun _ : Http.failure => Rx.Returned (Rx.Emit false))
    (Rx.map teaches (getTeacher http_get)).

End TeacherService.

(* ===================================================================== *)
(** ** services/core/loading.service.ts                                   *)
(* ===================================================================== *)

Module LoadingService.

Record t : Type := mk {
  loadingSubject : Rx.BehaviorSubject bool;
  loadingCounter : Z
}.

(** Field initialisers of the class. *)
Definition init : t := mk (Rx.create false) 0.

Definition show (s : t) : t :=
  let c := loadingCounter s + 1 in
  mk (if c =? 1 then Rx.next true (loadingSubject s) else loadingSubject s) c.

Definition hide (s : t) : t :=
  let c := if loadingCounter s >? 0 then loadingCounter s - 1
           else loadingCounter s in
  mk (if c =? 0 then Rx.next false (loadingSubject s) else loadingSubject s) c.

Definition forceHide (s : t) : t :=
  mk (Rx.next false (loadingSubject s)) 0.

Definition isLoading (s : t) : bool := Rx.value (loadingSubject s).

Definition getLoadingCount (s : t) : Z := loadingCounter s.

(** A call made by a client of the service. *)
Inductive call : Type := Show | Hide.

Definition step (s : t) (c : call) : t :=
  match c with Show => show s | Hide => hide s end.

Definition run (cs : list call) : t := fold_left step cs init.

(** Number of [show()] calls, and of [hide()] calls, in a sequence. *)
Fixpoint shows (cs : list call) : Z :=
  match cs with
  | [] => 0
  | Show :: cs' => 1 + shows cs'
  | Hide :: cs' => shows cs'
  end.

Fixpoint hides (cs : list call) : Z :=
  match cs with
  | [] => 0
  | Show :: cs' => hides cs'
  | Hide :: cs' => 1 + hides cs'
  end.

(** [hide()] never outnumbers [show()] in a prefix of the calls. *)
Definition matched (cs : list call) : Prop :=
  forall n : nat, hides (take n cs) <= shows (take n cs).

End LoadingService.

(* ===================================================================== *)
(** ** Concrete sessions, tokens and responses used to run the model      *)
(* ===================================================================== *)

Module Examples.
Import JS AuthService Guards.

(** A browser that holds [token] and nothing else, nobody signed in. *)
Definition session (token : jstring) : AuthService.t :=
  AuthService.mk (Browser.mk {[ TOKEN_KEY := token ]} ∅ [])
    (Rx.create None) (Rx.create false).

Definition anonymous : AuthService.t :=
  AuthService.mk (Browser.mk ∅ ∅ []) (Rx.create None) (Rx.create false).

Definition signed_in (u : User) (token : jstring) : AuthService.t :=
  AuthService.mk (Browser.mk {[ TOKEN_KEY := token ]} ∅ [])
    (Rx.create (Some u)) (Rx.create true).

(** Header [{"alg":"HS256","typ":"JWT"}], signature [sig], and the
    payloads [{"exp":99999999999}], [{"exp":1}], [{"exp":"99999999999"}]
    and [{"sub":"1"}]. *)
Definition token_exp_number : jstring :=
  js "eyJhbGciOiJIUzI1NiIsInR5cCI6IkpXVCJ9.eyJleHAiOjk5OTk5OTk5OTk5fQ.c2ln".
Definition token_expired : jstring :=
  js "eyJhbGciOiJIUzI1NiIsInR5cCI6IkpXVCJ9.eyJleHAiOjF9.c2ln".
Definition token_exp_string : jstring :=
  js "eyJhbGciOiJIUzI1NiIsInR5cCI6IkpXVCJ9.eyJleHAiOiI5OTk5OTk5OTk5OSJ9.c2ln".
Definition token_no_exp : jstring :=
  js "eyJhbGciOiJIUzI1NiIsInR5cCI6IkpXVCJ9.eyJzdWIiOiIxIn0.c2ln".

(** The payloads [{"exp":1700000000.0000000001}] and
    [{"exp":1700000000.002}], whose literals are not binary64 values. *)
Definition token_exp_fraction : jstring :=
  js "eyJhbGciOiJIUzI1NiIsInR5cCI6IkpXVCJ9.eyJleHAiOjE3MDAwMDAwMDAuMDAwMDAwMDAwMX0.c2ln".
Definition token_exp_millis : jstring :=
  js "eyJhbGciOiJIUzI1NiIsInR5cCI6IkpXVCJ9.eyJleHAiOjE3MDAwMDAwMDAuMDAyfQ.c2ln".

(** The payloads [{"exp":1699999999.9999999999}], read as [1700000000],
    and [{"exp":1e-400}], read as [0]. *)
Definition token_exp_just_below : jstring :=
  js "eyJhbGciOiJIUzI1NiIsInR5cCI6IkpXVCJ9.eyJleHAiOjE2OTk5OTk5OTkuOTk5OTk5OTk5OX0.c2ln".
Definition token_exp_tiny : jstring :=
  js "eyJhbGciOiJIUzI1NiIsInR5cCI6IkpXVCJ9.eyJleHAiOjFlLTQwMH0.c2ln".

(** [Date.now()] on 2023-11-14T22:13:20Z. *)
Definition a_time : N := 1700000000000%N.

Definition alice : User :=
  mkUser 7 "alice" "alice@school.test" student "2024-09-01" true None None.

(** A serializer to run [login] with: the text [{"username":"..."}]. *)
Definition stringify (u : User) : jstring :=
  (js "{" ++ [34%N] ++ js "username" ++ [34%N] ++ js ":" ++ [34%N]
     ++ js (username u) ++ [34%N] ++ js "}")%list.

Definition credentials : LoginRequest := mkLoginRequest "alice" "secret".

Definition server_accepts (_ : LoginRequest)
  : Rx.Observable Http.HttpErrorResponse LoginResponse :=
  Rx.Emit (mkLoginResponse token_exp_number alice).

Definition server_rejects (_ : LoginRequest)
  : Rx.Observable Http.HttpErrorResponse LoginResponse :=
  Rx.Fail (Http.mkResponse 401 "Http failure response: 401 UNAUTHORIZED" None).

(** [data: { roles: ['admin'] }] as in the route table. *)
Definition admin_only : RouteData := mkData (Some ["admin"]) None.

Definition zero_ttl : CacheService.CacheOptions :=
  CacheService.mkOptions (Some 0) false false.

(** A cache with one subscriber watching ["grades"], then one write. *)
Definition watched : CacheService.t nat :=
  CacheService.set 1000 "grades" 42%nat zero_ttl
    (CacheService.subscribe 1000 "grades" CacheService.init).

Definition not_found : Http.HttpErrorResponse :=
  Http.mkResponse 404 "Http failure response for /api/grades/3: 404 Not Found" None.

(** What [hasValidToken] evaluates inside its [try] once the token is
    decoded. *)
Definition verdict (payload : value) (now : N) : completion value :=
  bind (get payload (js "exp")) (fun exp =>
    if ToBoolean exp then
      bind (get payload (js "exp")) (fun exp' =>
      bind (greater_than exp' (seconds now)) (fun b => Normal (Bool b)))
    else Normal exp).

End Examples.

(* ===================================================================== *)
(** ** services/shared/cache.service.ts: the other methods                *)
(* ===================================================================== *)

Module CacheOps.
Import CacheService.

Section Data.

Context {T : Type}.

(** One turn of the loop of [cleanup]: an expired entry is deleted and
    counted. *)
Definition sweep (now : N) (acc : t T * nat) (entry : string * CacheItem T)
  : t T * nat :=
  if isExpired now entry.2 then ((delete entry.1 acc.1).1, S acc.2) else acc.

(** [cleanup()]: the loop over [this.cache.entries()]. *)
Definition cleanup (now : N) (s : t T) : t T * nat :=
  fold_left (sweep now) (map_to_list (cache s)) (s, 0%nat).

(** One turn of the loop of [deleteMultiple] and of [clearByPrefix]:
    [if (this.delete(key)) deletedCount++]. *)
Definition delete_counting (acc : t T * nat) (k : string) : t T * nat :=
  let '(s', deleted) := delete k acc.1 in
  (s', if deleted then S acc.2 else acc.2).

Definition deleteMultiple (keys : list string) (s : t T) : t T * nat :=
  fold_left delete_counting keys (s, 0%nat).

(** [clearByPrefix(prefix)]: [this.keys().filter(key => key.startsWith(prefix))],
    then the loop of [deleteMultiple]. *)
Definition clearByPrefix (prefix : string) (s : t T) : t T * nat :=
  let keysToDelete := List.filter (String.prefix prefix) (keys s) in
  fold_left delete_counting keysToDelete (s, 0%nat).

(** [update(key, updater, options)] *)
Definition update (now : N) (k : string) (updater : option T -> T)
    (options : CacheOptions) (s : t T) : t T :=
  let '(s1, current) := get now k s in
  let updated := updater current in
  set now k updated options s1.

(** [cacheObservable(key, observable, options)], subscribed to: the call
    is made at [now] and the source, when it is asked, answers at
    [later]. *)
Definition cacheObservable {E} (now later : N) (k : string)
    (observable : Rx.Observable E T) (options : CacheOptions) (s : t T)
  : t T * Rx.Observable E T :=
  let s1 := if forceRefresh options then (delete k s).1 else s in
  let '(s2, cachedData) := get now k s1 in
  match cachedData with
  | Some d => (s2, Rx.Emit d)
  | None => Rx.tap (fun d st => set later k d options st) observable s2
  end.

End Data.

End CacheOps.

(* ===================================================================== *)
(** ** services/core/loading.service.ts: the other methods                *)
(* ===================================================================== *)

Module LoadingOps.
Import LoadingService.

Definition reset (s : t) : t :=
  mk (Rx.next false (loadingSubject s)) 0.

(** How a subscription to the observable returned by [withLoading] ends:
    the inner observable completes, it fails, or the subscriber
    unsubscribes first. *)
Inductive ending : Type := Completed | Failed | Unsubscribed.

(** [withLoading(fn, showLoading)], the call itself: [show()] runs
    before anything is subscribed. *)
Definition withLoading (showLoading : bool) (s : t) : t :=
  if showLoading then show s else s.

(** The end of a subscription to that observable.  On completion and on
    failure the callback calls [hide()] and then notifies the observer,
    which closes the subscription and runs the teardown function, and the
    teardown function calls [hide()] too; unsubscribing runs the teardown
    function alone. *)
Definition withLoading_end (showLoading : bool) (e : ending) (s : t) : t :=
  let hide_once (s : t) := if showLoading then hide s else s in
  match e with
  | Completed | Failed => hide_once (hide_once s)
  | Unsubscribed => hide_once s
  end.

(** [withLoadingAsync(fn, showLoading)]: [show()] before the promise,
    [hide()] in the [finally]. *)
Definition withLoadingAsync_begin (showLoading : bool) (s : t) : t :=
  if showLoading then show s else s.

Definition withLoadingAsync_finally (showLoading : bool) (s : t) : t :=
  if showLoading then hide s else s.

(** A step made by a client of the service, through any of its public
    methods. *)
Inductive action : Type :=
| DoShow
| DoHide
| DoForceHide
| DoReset
| DoWithLoading (showLoading : bool)
| DoWithLoadingEnd (showLoading : bool) (e : ending)
| DoAsyncBegin (showLoading : bool)
| DoAsyncFinally (showLoading : bool).

Definition act (s : t) (a : action) : t :=
  match a with
  | DoShow => show s
  | DoHide => hide s
  | DoForceHide => forceHide s
  | DoReset => reset s
  | DoWithLoading b => withLoading b s
  | DoWithLoadingEnd b e => withLoading_end b e s
  | DoAsyncBegin b => withLoadingAsync_begin b s
  | DoAsyncFinally b => withLoadingAsync_finally b s
  end.

Definition play (l : list action) : t := fold_left act l init.

(** The indicator follows the counter, and the counter is not negative. *)
Definition sound (s : t) : Prop :=
  0 <= loadingCounter s /\ isLoading s = (0 <? loadingCounter s).

End LoadingOps.

(* ===================================================================== *)
(** ** services/auth/auth.service.ts: the other methods                   *)
(* ===================================================================== *)

Module AuthOps.
Import JS AuthService.

(** [v < t] where [t] is a finite number: as for [>], both operands are
    converted to numbers and a comparison with NaN is false. *)
Definition less_than (v : value) (t : Q) : completion bool :=
  bind (ToNumber v) (fun n =>
    Normal (match n with
            | NaN | PosInf => false
            | NegInf => true
            | Fin q => Qltb q t
            end)).

(** [checkTokenValidity()], run by the constructor: a stored token that
    cannot be decoded, or whose [exp] is truthy and less than the current
    time, logs the user out. *)
Definition checkTokenValidity (now : N) (s : t) : t :=
  match getToken s with
  | None | Some [] => s
  | Some token =>
      match
        bind (decodeJWT token) (fun payload =>
        let currentTime := seconds now in
        bind (get payload (js "exp")) (fun exp =>
        if ToBoolean exp then
          bind (get payload (js "exp")) (fun exp' => less_than exp' currentTime)
        else Normal false))
      with
      | Normal true => logout s
      | Normal false => s
      | Throw _ => logout s
      end
  end.

(** [user?.student_info || null] and [user?.teacher_info || null] *)
Definition getStudentInfo (s : t) : option StudentInfo :=
  match getCurrentUser s with
  | Some u => student_info u
  | None => None
  end.

Definition getTeacherInfo (s : t) : option TeacherInfo :=
  match getCurrentUser s with
  | Some u => teacher_info u
  | None => None
  end.

(** [canAccessStudent(studentId)] *)
Definition canAccessStudent (s : t) (studentId : Z) : bool :=
  match getCurrentUser s with
  | None => false
  | Some u =>
      match role u with
      | admin => true
      | student =>
          match getStudentInfo s with
          | Some info => student_id info =? studentId
          | None => false
          end
      | teacher => true
      end
  end.

End AuthOps.

(* ===================================================================== *)
(** ** services/auth/auth-guard.service.ts: LoginGuard                    *)
(* ===================================================================== *)

Module LoginGuard.
Import AuthService.

Definition redirectToDashboard (s : t) : t :=
  let target :=
    match getUserRole s with
    | Some r =>
        if String.eqb r "admin" then "/admin/dashboard"
        else if String.eqb r "teacher" then "/teacher/dashboard"
        else if String.eqb r "student" then "/student/dashboard"
        else "/dashboard"
    | None => "/dashboard"
    end in
  with_browser (Browser.navigate target) s.

(** [canActivate()]: the login page is closed to a signed-in user. *)
Definition canActivate (s : t) : t * bool :=
  if Rx.value (isAuthenticatedSubject s) then (redirectToDashboard s, false)
  else (s, true).

End LoginGuard.

Module GuardFrame.
Import AuthService Guards.

(** What a guard that denies does to the service and the browser: one
    more navigation, to [target], and nothing else but the entry
    [redirectUrl] of the session storage. *)
Definition redirected (target : string) (s s' : t) : Prop :=
  Browser.navigations (browser s') = (Browser.navigations (browser s) ++ [target])%list /\
  Browser.localStorage (browser s') = Browser.localStorage (browser s) /\
  (forall k, k <> REDIRECT_KEY ->
     Browser.sessionStorage (browser s') !! k = Browser.sessionStorage (browser s) !! k) /\
  currentUserSubject s' = currentUserSubject s /\
  isAuthenticatedSubject s' = isAuthenticatedSubject s.

(** The guards of the file, each as a function of the service state. *)
Definition class_guards (route : RouteData) (url : string) : list (t -> t * bool) :=
  [ AuthGuard.canActivate route url;
    AuthGuard.canActivateChild route url;
    AuthGuard.canLoad;
    RoleGuard.canActivate route url;
    AdminGuard.checkAdminRole url;
    TeacherGuard.checkTeacherRole url;
    StudentGuard.checkStudentRole url;
    LoginGuard.canActivate ].

End GuardFrame.

(* ===================================================================== *)
(** ** HttpInterceptorService, the HTTP interceptor                        *)
(* ===================================================================== *)

Module HttpInterceptorService.

(** An [HttpRequest], as the interceptor reads it.  [HttpHeaders] keeps
    one entry a header, under its lower-cased name. *)
Record HttpRequest : Type := mkRequest {
  method : string;
  url : string;
  body_is_FormData : bool;
  headers : gmap string JS.jstring
}.

Definition AUTHORIZATION : string := "authorization".
Definition CONTENT_TYPE : string := "content-type".

(** [request.clone({ setHeaders })] and
    [request.clone({ headers: request.headers.delete(name) })] *)
Definition setHeaders (hs : list (string * JS.jstring)) (request : HttpRequest)
  : HttpRequest :=
  mkRequest (method request) (url request) (body_is_FormData request)
    (fold_left (fun m h => <[h.1 := h.2]> m) hs (headers request)).

Definition deleteHeader (name : string) (request : HttpRequest) : HttpRequest :=
  mkRequest (method request) (url request) (body_is_FormData request)
    (delete name (headers request)).

(** [s.includes(sub)] *)
Fixpoint includes (s sub : string) : bool :=
  String.prefix sub s ||
  match s with
  | EmptyString => false
  | String _ r => includes r sub
  end.

(** What [handleError] throws. *)
Record InterceptedError : Type := mkError {
  message : string;
  status : Z;
  originalError : Http.HttpErrorResponse
}.

(** The loading service, the browser, the URL the router is at, and the
    [queryParams] of the navigations the interceptor asked for, oldest
    first. *)
Record t : Type := mk {
  loadingService : LoadingService.t;
  browser : Browser.t;
  routerUrl : string;
  queryParams : list (list (string * string))
}.

Definition with_loading (f : LoadingService.t -> LoadingService.t) (s : t) : t :=
  mk (f (loadingService s)) (browser s) (routerUrl s) (queryParams s).

Definition skipLoadingUrls : list string :=
  ["/api/auth/profile"; "/api/dashboard/quick"].

Definition shouldShowLoading (request : HttpRequest) : bool :=
  let shouldSkip := existsb (fun u => includes (url request) u) skipLoadingUrls in
  negb shouldSkip &&
  (negb (String.eqb (method request) "GET")
   || includes (url request) "/api/reports/"
   || includes (url request) "/api/grades/import").

Definition getAuthToken (b : Browser.t) : option JS.jstring :=
  Browser.localStorage b !! "access_token".

Definition isFileUpload (request : HttpRequest) : bool := body_is_FormData request.

(** The request that [intercept] hands to the next handler. *)
Definition prepare (token : option JS.jstring) (request : HttpRequest) : HttpRequest :=
  let modifiedRequest :=
    match token with
    | Some (c :: tk) =>
        setHeaders [(AUTHORIZATION, (JS.js "Bearer " ++ c :: tk)%list);
                    (CONTENT_TYPE, JS.js "application/json")] request
    | _ => setHeaders [(CONTENT_TYPE, JS.js "application/json")] request
    end in
  if isFileUpload request then deleteHeader CONTENT_TYPE modifiedRequest
  else modifiedRequest.

Definition handleUnauthorized (s : t) : t :=
  let b := Browser.removeLocal "user_data"
             (Browser.removeLocal "access_token" (browser s)) in
  mk (loadingService s) (Browser.navigate "/login" b) (routerUrl s)
     (queryParams s ++ [[("returnUrl", routerUrl s); ("reason", "session_expired")]]).

Section Validation.

(** [Object.values(error.error.errors).flat().join(', ')] when
    [error.error?.errors] is truthy. *)
Variable validationErrors : Http.HttpErrorResponse -> option string.

Definition handleError (error : Http.HttpErrorResponse) (s : t)
  : t * InterceptedError :=
  let '(s', errorMessage) :=
    if Http.is_client_side error then
      (s, "Erreur client: " +:+ Opt.interpolate (Http.error_message error))
    else if Http.status error =? 0 then
      (s, "Impossible de se connecter au serveur. Vérifiez votre connexion internet.")
    else if Http.status error =? 400 then
      (s, Opt.or_else (Http.error_error error) "Requête incorrecte")
    else if Http.status error =? 401 then
      (handleUnauthorized s, "Session expirée. Veuillez vous reconnecter.")
    else if Http.status error =? 403 then
      (s, "Accès refusé. Vous n'avez pas les permissions nécessaires.")
    else if Http.status error =? 404 then (s, "Ressource non trouvée")
    else if Http.status error =? 422 then
      (s, match validationErrors error with
          | Some joined => joined
          | None => Opt.or_else (Http.error_error error) "Données invalides"
          end)
    else if Http.status error =? 429 then
      (s, "Trop de requêtes. Veuillez patienter avant de réessayer.")
    else if Http.status error =? 500 then
      (s, "Erreur interne du serveur. Veuillez réessayer plus tard.")
    else if (Http.status error =? 502) || (Http.status error =? 503)
            || (Http.status error =? 504) then
      (s, "Service temporairement indisponible. Veuillez réessayer plus tard.")
    else
      (s, Opt.or_else (Http.error_error error)
            ("Erreur HTTP " +:+ pretty (Http.status error))) in
  (s', mkError errorMessage (Http.status error) error).

(** [intercept(request, next)], subscribed to until it settles: [show]
    before the request is handed on, [handleError] on a failure, and the
    [finalize] callback last. *)
Definition intercept {A} (request : HttpRequest)
    (next : HttpRequest -> Rx.Observable Http.HttpErrorResponse A) (s : t)
  : t * Rx.Observable InterceptedError A :=
  let shouldShow := shouldShowLoading request in
  let s1 := if shouldShow then with_loading LoadingService.show s else s in
  let modifiedRequest := prepare (getAuthToken (browser s1)) request in
  let '(s2, o) :=
    match next modifiedRequest with
    | Rx.Emit event => (s1, Rx.Emit event)
    | Rx.Fail error =>
        let '(s', e) := handleError error s1 in (s', Rx.throwError e)
    end in
  (if shouldShow then with_loading LoadingService.hide s2 else s2, o).

End Validation.

End HttpInterceptorService.

(* ===================================================================== *)
(** ** services/api/grade.service.ts: validation and grouping             *)
(* ===================================================================== *)

Module GradeOps.
Import JS GradeService.

Record Grade : Type := mkGrade {
  id : Z;
  student_id : Z;
  student_name : string;
  subject_id : Z;
  subject_name : string;
  teacher_id : Z;
  teacher_name : string;
  value : Q;
  appreciation : Appreciation;
  semester : string;
  academic_year : string;
  exam_type : string;
  created_at : string;
  updated_at : string
}.

(** [value < t] and [value > t] on numbers; a comparison with NaN is
    false. *)
Definition number_lt (v : number) (t : Q) : bool :=
  match v with
  | NaN | PosInf => false
  | NegInf => true
  | Fin q => Qltb q t
  end.

Definition number_gt (v : number) (t : Q) : bool :=
  match v with
  | NaN | NegInf => false
  | PosInf => true
  | Fin q => Qltb t q
  end.

(** [Number.isFinite(value)] *)
Definition isFinite (v : number) : bool :=
  match v with
  | Fin _ => true
  | _ => false
  end.

Record Validation : Type := mkValidation {
  isValid : bool;
  errors : list string
}.

(** [validateGrade(value)] *)
Definition validateGrade (v : number) : Validation :=
  let errors := [] in
  let errors :=
    if number_lt v 0 then errors ++ ["La note ne peut pas être négative"]
    else errors in
  let errors :=
    if number_gt v 20 then errors ++ ["La note ne peut pas être supérieure à 20"]
    else errors in
  let errors :=
    if negb (isFinite v) then errors ++ ["La note doit être un nombre valide"]
    else errors in
  mkValidation (length errors =? 0)%nat errors.

(** The property names that every object inherits from
    [Object.prototype]; each of them is a function, or the prototype
    itself for [__proto__], and none has a [push]. *)
Definition object_prototype_keys : list string :=
  ["constructor"; "__defineGetter__"; "__defineSetter__"; "hasOwnProperty";
   "__lookupGetter__"; "__lookupSetter__"; "isPrototypeOf";
   "propertyIsEnumerable"; "toString"; "valueOf"; "__proto__"; "toLocaleString"].

Definition inherited (k : string) : bool :=
  existsb (String.eqb k) object_prototype_keys.

(** One step of the [reduce] of the three grouping methods, which
    differ in the member they group by.  [groups[k]] is the own array
    when there is one; otherwise what the prototype gives, on which
    [push] is not a function, or nothing, and then the group is
    created. *)
Definition group_step (key : Grade -> string)
    (acc : completion (gmap string (list Grade))) (grade : Grade)
  : completion (gmap string (list Grade)) :=
  bind acc (fun groups =>
    let k := key grade in
    match groups !! k with
    | Some l => Normal (<[k := (l ++ [grade])%list]> groups)
    | None =>
        if inherited k then Throw TypeError
        else Normal (<[k := [grade]]> groups)
    end).

Definition groupGradesBySubject (grades : list Grade)
  : completion (gmap string (list Grade)) :=
  fold_left (group_step subject_name) grades (Normal ∅).

Definition groupGradesBySemester (grades : list Grade)
  : completion (gmap string (list Grade)) :=
  fold_left (group_step semester) grades (Normal ∅).

Definition groupGradesByExamType (grades : list Grade)
  : completion (gmap string (list Grade)) :=
  fold_left (group_step exam_type) grades (Normal ∅).

(** The grades of one group, in the order of the input. *)
Definition group_of (key : Grade -> string) (k : string) (grades : list Grade)
  : list Grade :=
  List.filter (fun g => String.eqb (key g) k) grades.

(** What the grouping of [grades] by [key] should be. *)
Definition grouped (key : Grade -> string) (grades : list Grade)
    (r : completion (gmap string (list Grade))) : Prop :=
  if existsb (fun g => inherited (key g)) grades then r = Throw TypeError
  else exists groups,
         r = Normal groups /\
         forall k, groups !! k = match group_of key k grades with
                                 | [] => None
                                 | l => Some l
                                 end.

End GradeOps.

(* ===================================================================== *)
(** * Properties                                                          *)
(* ===================================================================== *)

Module QFacts.

Lemma Qltb_lt (a b : Q) : JS.Qltb a b = true <-> (a < b)%Q.
Proof.
  unfold JS.Qltb. rewrite Qlt_alt. destruct (a ?= b)%Q; split; congruence.
Qed.

Lemma Qltb_ge (a b : Q) : JS.Qltb a b = false <-> (b <= a)%Q.
Proof.
  split.
  - intros H. apply Qnot_lt_le. intros L%Qltb_lt. congruence.
  - intros H. destruct (JS.Qltb a b) eqn:E; [|reflexivity].
    apply Qltb_lt in E. lra.
Qed.

Lemma round_half_even_nonneg (n d : Z) :
  0 <= n -> 0 < d -> 0 <= JS.round_half_even n d.
Proof.
  intros Hn Hd. unfold JS.round_half_even.
  pose proof (Z.div_pos n d Hn Hd).
  destruct (2 * (n mod d) ?= d); [destruct (Z.even (n / d))| |]; lia.
Qed.

(** Rounding keeps the sign. *)
Lemma nearest_nonneg (q : Q) : (0 <= q)%Q -> (0 <= JS.nearest q)%Q.
Proof.
  intros H. assert (Hn : 0 <= Qnum q) by (unfold Qle in H; cbn in H; lia).
  unfold JS.nearest.
  destruct (Z.abs (Qnum q) =? 0); [apply Qle_refl|].
  rewrite Qred_correct.
  assert ((Qnum q <? 0) = false) as -> by (apply Z.ltb_ge; lia).
  set (n := Z.abs (Qnum q)). assert (Hn' : 0 <= n) by apply Z.abs_nonneg.
  set (u := Z.max (JS.binade n (Z.pos (Qden q)) - 52) (-1074)).
  destruct (Z.leb_spec 0 u) as [Hu|Hu].
  - assert (Hp : 0 < 2 ^ u) by (apply Z.pow_pos_nonneg; lia).
    assert (Hd : 0 < Z.pos (Qden q) * 2 ^ u) by (apply Z.mul_pos_pos; lia).
    pose proof (round_half_even_nonneg n _ Hn' Hd) as Hm.
    unfold Qle. cbn. nia.
  - assert (Hp : 0 <= 2 ^ (- u)) by (apply Z.pow_nonneg; lia).
    assert (Hs : 0 <= n * 2 ^ (- u)) by (apply Z.mul_nonneg_nonneg; lia).
    pose proof (round_half_even_nonneg _ (Z.pos (Qden q)) Hs (Pos2Z.is_pos _)) as Hm.
    unfold Qle. cbn. lia.
Qed.

Lemma seconds_nonneg (now : N) : (0 <= AuthService.seconds now)%Q.
Proof.
  unfold AuthService.seconds. apply nearest_nonneg. unfold Qle. cbn. lia.
Qed.

End QFacts.

(* --------------------------------------------------------------------- *)
(** ** Rounding to binary64                                               *)
(* --------------------------------------------------------------------- *)

Module Binary64.
Import JS.
Local Open Scope Z_scope.

Lemma round_half_even_unit (n : Z) : round_half_even n 1 = n.
Proof.
  unfold round_half_even. rewrite Z.div_1_r, Z.mod_1_r. reflexivity.
Qed.

Lemma binade_integer (n : Z) : 0 < n -> binade n 1 = Z.log2 n.
Proof.
  intros Hn. unfold binade. change (Z.log2 1) with 0. rewrite Z.sub_0_r.
  pose proof (Z.log2_nonneg n) as H0. pose proof (Z.log2_spec n Hn) as [H1 _].
  destruct (Z.leb_spec 0 (Z.log2 n)); [|lia].
  destruct (Z.ltb_spec n (1 * 2 ^ Z.log2 n)); [lia|reflexivity].
Qed.

(** An integer below [2^53] in magnitude is a binary64 value. *)
Lemma nearest_integer (z : Z) :
  Z.abs z < 2 ^ 53 -> (nearest (inject_Z z) == inject_Z z)%Q.
Proof.
  intros Hz. unfold nearest. cbn [Qnum Qden inject_Z].
  destruct (Z.eqb_spec (Z.abs z) 0) as [E|E].
  - assert (z = 0) as -> by lia. reflexivity.
  - rewrite Qred_correct.
    assert (Hn : 0 < Z.abs z) by lia.
    rewrite (binade_integer _ Hn).
    assert (Hl : Z.log2 (Z.abs z) < 53) by (apply Z.log2_lt_pow2; lia).
    pose proof (Z.log2_nonneg (Z.abs z)) as H0.
    rewrite Z.max_l by lia.
    assert (Hs : (if z <? 0 then - Z.abs z else Z.abs z) = z)
      by (destruct (Z.ltb_spec z 0); lia).
    destruct (Z.leb_spec 0 (Z.log2 (Z.abs z) - 52)) as [Hu|Hu].
    + assert (Z.log2 (Z.abs z) - 52 = 0) as -> by lia.
      change (1 * 2 ^ 0) with 1. rewrite round_half_even_unit, Hs.
      unfold Qeq. cbn. lia.
    + rewrite round_half_even_unit.
      set (k := - (Z.log2 (Z.abs z) - 52)).
      assert (Hk : 0 < 2 ^ k) by (apply Z.pow_pos_nonneg; lia).
      unfold Qeq. cbn [Qnum Qden inject_Z].
      rewrite Z2Pos.id by exact Hk.
      destruct (Z.ltb_spec z 0); lia.
Qed.

(** The rounding at work: a value between two binary64 values, two
    ties (to the even neighbour), the least subnormal and half of it,
    an overflow, and a literal with more digits than a binary64 value
    holds. *)
Lemma nearest_examples :
  nearest (1 # 10) = (3602879701896397 # 36028797018963968)%Q /\
  nearest (inject_Z (2 ^ 53 + 1)) = inject_Z (2 ^ 53) /\
  nearest (inject_Z (2 ^ 53 + 3)) = inject_Z (2 ^ 53 + 4) /\
  nearest (Qmake 1 (2 ^ 1075)) = 0%Q /\
  nearest (Qmake 3 (2 ^ 1075)) = Qmake 1 (2 ^ 1073) /\
  double (inject_Z (10 ^ 309)) = PosInf /\
  double (Qmake 17000000000000000001 10000000000) = Fin 1700000000.
Proof.
  split; [|split; [|split; [|split; [|split; [|split]]]]]; vm_compute; reflexivity.
Qed.
End Binary64.

(* --------------------------------------------------------------------- *)
(** ** The fuel of the platform model is enough                           *)
(* --------------------------------------------------------------------- *)

Module JsonFuel.
Import JS.
Local Open Scope nat_scope.

Lemma head_is_length c s r : head_is c s = Some r -> length s = S (length r).
Proof.
  destruct s as [|x s']; cbn; [discriminate|].
  destruct (x =? c)%N; [|discriminate]. now intros [= ->].
Qed.

Lemma skip_ws_length s : length (skip_ws s) <= length s.
Proof.
  induction s as [|c s IH]; cbn; [lia|].
  destruct (is_json_whitespace c); cbn; lia.
Qed.

Lemma parse_string_length : forall n s acc k r,
  length s <= n -> parse_string s acc = Some (k, r) -> length r < length s.
Proof.
  induction n as [|n IH]; intros s acc k r Hn H.
  - destruct s; [discriminate | cbn in Hn; lia].
  - destruct s as [|c s1]; [discriminate|]. cbn [parse_string] in H.
    cbn [length] in *.
    destruct (c =? 34)%N; [injection H as _ <-; lia|].
    destruct (c =? 92)%N.
    + destruct s1 as [|e r1]; [discriminate|].
      destruct (e =? 117)%N.
      * destruct r1 as [|a [|b [|c' [|d r']]]]; try discriminate.
        destruct (hex4 a b c' d); [|discriminate].
        apply IH in H; cbn [length] in *; lia.
      * destruct (escape e); [|discriminate].
        apply IH in H; cbn [length] in *; lia.
    + destruct (c <? 32)%N; [discriminate|].
      apply IH in H; lia.
Qed.

Lemma strip_prefix_length : forall p s r,
  strip_prefix p s = Some r -> length s = length p + length r.
Proof.
  induction p as [|a p IH]; intros s r H; cbn in *.
  - now injection H as ->.
  - destruct s as [|b s']; [discriminate|].
    destruct (a =? b)%N; [|discriminate]. apply IH in H. cbn. lia.
Qed.

Lemma span_digits_length : forall s ds r,
  span_digits s = (ds, r) -> length s = length ds + length r.
Proof.
  induction s as [|c s IH]; intros ds r H; cbn in H.
  - now injection H as <- <-.
  - destruct (is_digit c).
    + destruct (span_digits s) as [ds' r'] eqn:E. injection H as <- <-.
      cbn. rewrite (IH _ _ eq_refl). lia.
    + injection H as <- <-. cbn. lia.
Qed.

Lemma leading_sign_length plus s neg r :
  leading_sign plus s = (neg, r) -> length r <= length s.
Proof.
  unfold leading_sign. destruct s as [|c s']; [intros [= _ <-]; lia|].
  destruct (c =? 45)%N; [intros [= _ <-]; cbn; lia|].
  destruct (plus && (c =? 43)%N); intros [= _ <-]; cbn; lia.
Qed.

Lemma exponent_part_length s e r :
  exponent_part s = Some (e, r) -> length r <= length s.
Proof.
  unfold exponent_part. destruct s as [|c s']; [intros [= _ <-]; lia|].
  destruct ((c =? 101)%N || (c =? 69)%N); [|intros [= _ <-]; lia].
  destruct (leading_sign true s') as [neg r1] eqn:E1.
  destruct (span_digits r1) as [[|d ds] r2] eqn:E2; [discriminate|].
  intros [= _ <-]. apply leading_sign_length in E1.
  apply span_digits_length in E2. cbn [length] in *. lia.
Qed.

Lemma fraction_part_length s fp r :
  fraction_part s = Some (fp, r) -> length r <= length s.
Proof.
  unfold fraction_part. destruct (head_is 46 s) as [r0|] eqn:E0.
  - destruct (span_digits r0) as [[|d ds] r2] eqn:E2; [discriminate|].
    intros [= _ <-]. apply head_is_length in E0.
    apply span_digits_length in E2. cbn [length] in *. lia.
  - intros [= _ <-]. lia.
Qed.

Lemma parse_number_length s q r :
  parse_number s = Some (q, r) -> length r < length s.
Proof.
  unfold parse_number. destruct (leading_sign false s) as [neg s1] eqn:E1.
  destruct (span_digits s1) as [ip s2] eqn:E2.
  intros H.
  assert (Hip : ip <> [] /\
                match fraction_part s2 with
                | Some (fp, s3) =>
                    match exponent_part s3 with
                    | Some (e, s4) => r = s4
                    | None => False
                    end
                | None => False
                end).
  { destruct ip as [|d [|d' ds]]; [discriminate| |].
    - split; [discriminate|].
      destruct d; destruct (fraction_part s2) as [[fp s3]|]; try discriminate;
        destruct (exponent_part s3) as [[e s4]|]; try discriminate;
        now injection H as _ <-.
    - split; [discriminate|].
      destruct d; [discriminate|].
      destruct (fraction_part s2) as [[fp s3]|]; try discriminate;
        destruct (exponent_part s3) as [[e s4]|]; try discriminate;
        now injection H as _ <-. }
  destruct Hip as [Hne Hr].
  destruct (fraction_part s2) as [[fp s3]|] eqn:E3; [|contradiction].
  destruct (exponent_part s3) as [[e s4]|] eqn:E4; [|contradiction]. subst s4.
  apply leading_sign_length in E1. apply span_digits_length in E2.
  apply fraction_part_length in E3. apply exponent_part_length in E4.
  destruct ip; [congruence|]. cbn [length] in *. lia.
Qed.

Lemma parse_scalar_length s v r :
  parse_scalar s = Some (v, r) -> length r < length s.
Proof.
  unfold parse_scalar.
  destruct (strip_prefix (js "null") s) eqn:E1.
  { intros [= _ <-]. apply strip_prefix_length in E1. cbn in E1. lia. }
  destruct (strip_prefix (js "true") s) eqn:E2.
  { intros [= _ <-]. apply strip_prefix_length in E2. cbn in E2. lia. }
  destruct (strip_prefix (js "false") s) eqn:E3.
  { intros [= _ <-]. apply strip_prefix_length in E3. cbn in E3. lia. }
  destruct (parse_number s) as [[q r']|] eqn:E4; [|discriminate].
  intros [= _ <-]. now apply parse_number_length in E4.
Qed.

(** A successful parse consumes at least one character, and any fuel
    from twice the length of the input on gives the same result. *)
Lemma parse_fuel : forall f,
  (forall s res, parse_value f s = Some res ->
     length (snd res) < length s /\
     forall f', 2 * length s + 1 <= f' -> parse_value f' s = Some res) /\
  (forall s res, parse_elements f s = Some res ->
     length (snd res) < length s /\
     forall f', 2 * length s + 2 <= f' -> parse_elements f' s = Some res) /\
  (forall s res, parse_members f s = Some res ->
     length (snd res) < length s /\
     forall f', 2 * length s + 2 <= f' -> parse_members f' s = Some res).
Proof.
  induction f as [|f (IHv & IHe & IHm)].
  { repeat split; discriminate. }
  pose proof (skip_ws_length) as Hws.
  split; [|split]; intros s res H.
  - cbn [parse_value] in H.
    destruct (head_is 91 (skip_ws s)) as [r|] eqn:E91.
    { pose proof (head_is_length _ _ _ E91) as L1. pose proof (Hws s).
      destruct (head_is 93 (skip_ws r)) as [r'|] eqn:E93.
      - injection H as <-. pose proof (head_is_length _ _ _ E93). pose proof (Hws r).
        split; [cbn; lia|]. intros [|f'] Hf; [lia|].
        cbn [parse_value]. now rewrite E91, E93.
      - destruct (parse_elements f r) as [[vs r']|] eqn:Ee; [|discriminate].
        injection H as <-. apply IHe in Ee as [Hl Hm]. cbn [snd] in *.
        split; [lia|]. intros [|f'] Hf; [lia|].
        cbn [parse_value]. rewrite E91, E93, Hm by lia. reflexivity. }
    destruct (head_is 123 (skip_ws s)) as [r|] eqn:E123.
    { pose proof (head_is_length _ _ _ E123) as L1. pose proof (Hws s).
      destruct (head_is 125 (skip_ws r)) as [r'|] eqn:E125.
      - injection H as <-. pose proof (head_is_length _ _ _ E125). pose proof (Hws r).
        split; [cbn; lia|]. intros [|f'] Hf; [lia|].
        cbn [parse_value]. now rewrite E91, E123, E125.
      - destruct (parse_members f r) as [[ms r']|] eqn:Em; [|discriminate].
        injection H as <-. apply IHm in Em as [Hl Hm]. cbn [snd] in *.
        split; [lia|]. intros [|f'] Hf; [lia|].
        cbn [parse_value]. rewrite E91, E123, E125, Hm by lia. reflexivity. }
    destruct (head_is 34 (skip_ws s)) as [r|] eqn:E34.
    { pose proof (head_is_length _ _ _ E34) as L1. pose proof (Hws s).
      destruct (parse_string r []) as [[str r']|] eqn:Es; [|discriminate].
      injection H as <-. pose proof (parse_string_length _ _ _ _ _ (le_n _) Es).
      split; [cbn; lia|]. intros [|f'] Hf; [lia|].
      cbn [parse_value]. now rewrite E91, E123, E34, Es. }
    destruct res as [v r]. pose proof (parse_scalar_length _ _ _ H). pose proof (Hws s).
    split; [cbn; lia|]. intros [|f'] Hf; [lia|].
    cbn [parse_value]. now rewrite E91, E123, E34.
  - cbn [parse_elements] in H.
    destruct (parse_value f s) as [[v r]|] eqn:Ev; [|discriminate].
    apply IHv in Ev as [Hl Hm]. cbn [snd] in *. pose proof (Hws r).
    destruct (head_is 44 (skip_ws r)) as [r'|] eqn:E44.
    + pose proof (head_is_length _ _ _ E44).
      destruct (parse_elements f r') as [[vs r'']|] eqn:Ee; [|discriminate].
      injection H as <-. apply IHe in Ee as [Hl' Hm']. cbn [snd] in *.
      split; [lia|]. intros [|f'] Hf; [lia|].
      cbn [parse_elements]. rewrite Hm, E44, Hm' by lia. reflexivity.
    + destruct (head_is 93 (skip_ws r)) as [r'|] eqn:E93; [|discriminate].
      injection H as <-. pose proof (head_is_length _ _ _ E93).
      split; [cbn; lia|]. intros [|f'] Hf; [lia|].
      cbn [parse_elements]. rewrite Hm, E44, E93 by lia. reflexivity.
  - cbn [parse_members] in H.
    destruct (head_is 34 (skip_ws s)) as [r|] eqn:E34; [|discriminate].
    pose proof (head_is_length _ _ _ E34). pose proof (Hws s).
    destruct (parse_string r []) as [[k r1]|] eqn:Es; [|discriminate].
    pose proof (parse_string_length _ _ _ _ _ (le_n _) Es).
    destruct (head_is 58 (skip_ws r1)) as [r2|] eqn:E58; [|discriminate].
    pose proof (head_is_length _ _ _ E58). pose proof (Hws r1).
    destruct (parse_value f r2) as [[v r3]|] eqn:Ev; [|discriminate].
    apply IHv in Ev as [Hl Hm]. cbn [snd] in *. pose proof (Hws r3).
    destruct (head_is 44 (skip_ws r3)) as [r4|] eqn:E44.
    + pose proof (head_is_length _ _ _ E44).
      destruct (parse_members f r4) as [[ms r5]|] eqn:Em; [|discriminate].
      injection H as <-. apply IHm in Em as [Hl' Hm']. cbn [snd] in *.
      split; [lia|]. intros [|f'] Hf; [lia|].
      cbn [parse_members]. rewrite E34, Es, E58, Hm, E44, Hm' by lia. reflexivity.
    + destruct (head_is 125 (skip_ws r3)) as [r4|] eqn:E125; [|discriminate].
      injection H as <-. pose proof (head_is_length _ _ _ E125).
      split; [cbn; lia|]. intros [|f'] Hf; [lia|].
      cbn [parse_members]. rewrite E34, Es, E58, Hm, E44, E125 by lia. reflexivity.
Qed.

(** Whatever fuel makes [parse_value] succeed, the fuel that
    [JSON_parse] provides gives the same result: the parser never
    fails for lack of fuel. *)
Lemma parse_value_enough (f : nat) (text : jstring) (res : value * jstring) :
  parse_value f text = Some res ->
  parse_value (2 * length text + 2) text = Some res.
Proof.
  intros H. destruct (parse_fuel f) as (Hv & _ & _).
  apply Hv in H as [_ H]. apply H. lia.
Qed.
Lemma hex_octet_length s b r : hex_octet s = Some (b, r) -> length s = 3 + length r.
Proof.
  unfold hex_octet. destruct s as [|c [|h [|l r']]]; try discriminate.
  destruct (c =? 37)%N; [|discriminate].
  destruct (hex_digit h), (hex_digit l); try discriminate.
  now intros [= _ <-].
Qed.

Lemma hex_octets_length : forall n s bs r,
  hex_octets n s = Some (bs, r) -> length r <= length s.
Proof.
  induction n as [|n IH]; intros s bs r H; cbn in H.
  - injection H as _ <-. lia.
  - destruct (hex_octet s) as [[b r0]|] eqn:E; [|discriminate].
    destruct (hex_octets n r0) as [[bs' r']|] eqn:E'; [|discriminate].
    injection H as _ <-. apply hex_octet_length in E. apply IH in E'. lia.
Qed.

Lemma decode_uri_fuel : forall f1 f2 s,
  length s <= f1 -> length s <= f2 -> decode_uri f1 s = decode_uri f2 s.
Proof.
  induction f1 as [|f1 IH]; intros f2 s H1 H2.
  - destruct s; [|cbn in H1; lia]. destruct f2; reflexivity.
  - destruct s as [|c r0]; [destruct f2; reflexivity|].
    destruct f2 as [|f2]; [cbn in H2; lia|].
    cbn [length] in *. cbn [decode_uri].
    destruct (c =? 37)%N.
    + destruct (hex_octet (c :: r0)) as [[b r]|] eqn:E; [|reflexivity].
      apply hex_octet_length in E. cbn [length] in E.
      destruct (announced b) as [|[|k]]; [|reflexivity|].
      * rewrite (IH f2 r) by lia. reflexivity.
      * destruct (2 <? N.of_nat k)%N; [reflexivity|].
        destruct (hex_octets (S k) r) as [[bs r']|] eqn:E'; [|reflexivity].
        apply hex_octets_length in E'.
        rewrite (IH f2 r') by lia. reflexivity.
    + rewrite (IH f2 r0) by lia. reflexivity.
Qed.

Lemma decode_uri_enough (f : nat) (s : jstring) :
  length s <= f -> decode_uri f s = decode_uri (length s) s.
Proof. intros H. now apply decode_uri_fuel. Qed.
End JsonFuel.

(* --------------------------------------------------------------------- *)
(** ** Session and token validation                                       *)
(* --------------------------------------------------------------------- *)

Module AuthSpec.
Import JS AuthService Examples QFacts.

(** A value that compares greater than a non-negative number is truthy,
    so the left operand of [&&] never hides a valid expiry. *)
Lemma greater_than_truthy (v : value) (t : Q) :
  (0 <= t)%Q -> greater_than v t = Normal true -> ToBoolean v = true.
Proof.
  intros Ht H.
  destruct v as [| |b|n|s|l|ms]; cbn in *; try reflexivity; try discriminate.
  - injection H as H. apply Qltb_lt in H. lra.
  - destruct b; [reflexivity|]. injection H as H. apply Qltb_lt in H. lra.
  - destruct n as [| | |q]; try discriminate; try reflexivity.
    injection H as H. apply Qltb_lt in H.
    destruct (Qeq_bool q 0) eqn:E; [|reflexivity].
    apply Qeq_bool_iff in E. lra.
  - destruct s; [|reflexivity]. cbn in H. injection H as H.
    apply Qltb_lt in H. lra.
Qed.

Lemma decodeJWT_empty : decodeJWT [] = Throw (Error "Token JWT invalide").
Proof. reflexivity. Qed.

(** Whatever goes wrong inside [decodeJWT], the caller sees the one
    [Error] of its [catch]. *)
Lemma decodeJWT_throws (token : jstring) (e : exn) :
  decodeJWT token = Throw e -> e = Error "Token JWT invalide".
Proof.
  unfold decodeJWT, try_catch.
  match goal with
  | |- context [match ?c with Normal _ => _ | Throw _ => _ end] => destruct c
  end; congruence.
Qed.

Lemma hasValidToken_value_eq (s : t) (now : N) :
  hasValidToken_value s now =
    match getToken s with
    | None => Normal (Bool false)
    | Some token =>
        match decodeJWT token with
        | Normal payload =>
            try_catch (verdict payload now) (fun _ => Normal (Bool false))
        | Throw _ => Normal (Bool false)
        end
    end.
Proof.
  unfold hasValidToken_value.
  destruct (getToken s) as [[|c token]|]; try reflexivity.
  destruct (decodeJWT (c :: token)); reflexivity.
Qed.

Lemma isAuthenticated_decoded (s : t) (now : N) token payload exp :
  getToken s = Some token -> decodeJWT token = Normal payload ->
  get payload (js "exp") = Normal exp ->
  isAuthenticated s now =
    Normal (match greater_than exp (seconds now) with
            | Normal b => ToBoolean exp && b
            | Throw _ => false
            end).
Proof.
  intros Ht Hd He. unfold isAuthenticated, hasValidToken.
  rewrite hasValidToken_value_eq, Ht, Hd. unfold verdict. rewrite He. cbn [bind].
  destruct (ToBoolean exp) eqn:Eb.
  - destruct (greater_than exp (seconds now)) as [[]|]; reflexivity.
  - cbn. rewrite Eb. destruct (greater_than exp (seconds now)); reflexivity.
Qed.

(** [isAuthenticated] always returns: nothing is thrown past it. *)
Lemma isAuthenticated_total (s : t) (now : N) :
  exists b, isAuthenticated s now = Normal b.
Proof.
  unfold isAuthenticated, hasValidToken. rewrite hasValidToken_value_eq.
  destruct (getToken s) as [token|]; [|eexists; reflexivity].
  destruct (decodeJWT token) as [payload|]; [|eexists; reflexivity].
  destruct (verdict payload now); eexists; reflexivity.
Qed.

(** The JavaScript value behind a [true] is the boolean [true] itself. *)
Lemma hasValidToken_true_value (s : t) (now : N) :
  isAuthenticated s now = Normal true <->
  hasValidToken_value s now = Normal (Bool true).
Proof.
  unfold isAuthenticated, hasValidToken. rewrite hasValidToken_value_eq.
  destruct (getToken s) as [token|]; [|split; discriminate].
  destruct (decodeJWT token) as [payload|]; [|split; discriminate].
  unfold verdict. destruct (get payload (js "exp")) as [exp|]; [|split; discriminate].
  cbn [bind]. destruct (ToBoolean exp) eqn:Eb.
  - destruct (greater_than exp (seconds now)) as [[]|]; cbn; split; congruence.
  - cbn. rewrite Eb. split; [discriminate|].
    intros H. injection H as ->. discriminate.
Qed.

(** C1. [isAuthenticated()] returns true if and only if a token is in
    storage and the [exp] claim of its decoded payload is strictly
    greater than the current time in seconds; with a numeric expiry at
    or before now it returns false, and with a numeric expiry after now
    it returns true.  The expiry is the Number that [JSON.parse] makes
    of the claim and the current time is the Number [Date.now() / 1000]:
    both are binary64 values, and they are compared as such. *)
Theorem isAuthenticated_iff (s : t) (now : N) :
  (isAuthenticated s now = Normal true <->
     exists token payload exp,
       getToken s = Some token /\
       decodeJWT token = Normal payload /\
       get payload (js "exp") = Normal exp /\
       greater_than exp (seconds now) = Normal true) /\
  (forall token payload (e : Q),
     getToken s = Some token -> decodeJWT token = Normal payload ->
     get payload (js "exp") = Normal (Num (Fin e)) ->
     (e <= seconds now)%Q -> isAuthenticated s now = Normal false) /\
  (forall token payload (e : Q),
     getToken s = Some token -> decodeJWT token = Normal payload ->
     get payload (js "exp") = Normal (Num (Fin e)) ->
     (seconds now < e)%Q -> isAuthenticated s now = Normal true).
Proof.
  split; [split|split].
  - intros H. unfold isAuthenticated, hasValidToken in H.
    rewrite hasValidToken_value_eq in H.
    destruct (getToken s) as [token|] eqn:Ht; [|discriminate].
    destruct (decodeJWT token) as [payload|] eqn:Hd; [|discriminate].
    unfold verdict in H.
    destruct (get payload (js "exp")) as [exp|] eqn:He; [|discriminate].
    cbn [bind] in H. destruct (ToBoolean exp) eqn:Eb.
    + destruct (greater_than exp (seconds now)) as [[]|] eqn:Eg; try discriminate.
      exists token, payload, exp. auto.
    + cbn in H. congruence.
  - intros (token & payload & exp & Ht & Hd & He & Hg).
    rewrite (isAuthenticated_decoded _ _ _ _ _ Ht Hd He), Hg.
    now rewrite (greater_than_truthy _ _ (seconds_nonneg now) Hg).
  - intros token payload e Ht Hd He Hle.
    rewrite (isAuthenticated_decoded _ _ _ _ _ Ht Hd He). cbn.
    destruct (Qltb (seconds now) e) eqn:E.
    + apply Qltb_lt in E. lra.
    + now rewrite andb_false_r.
  - intros token payload e Ht Hd He Hlt.
    rewrite (isAuthenticated_decoded _ _ _ _ _ Ht Hd He). cbn.
    apply Qltb_lt in Hlt. rewrite Hlt, andb_true_r.
    destruct (Qeq_bool e 0) eqn:E; [|reflexivity].
    apply Qeq_bool_iff in E. apply Qltb_lt in Hlt.
    pose proof (seconds_nonneg now). lra.
Qed.

(** A valid and an expired token; then two tokens whose claim is not a
    binary64 value: [1700000000.0000000001] is read as [1700000000],
    which is not after the current time [1700000000]; and at
    [Date.now() = 1700000000002] the current time is the binary64 value
    nearest to [1700000000.002], which is also what the claim
    [1700000000.002] is read as. *)
Lemma isAuthenticated_iff_witness :
  isAuthenticated (session token_exp_number) a_time = Normal true /\
  isAuthenticated (session token_expired) a_time = Normal false /\
  isAuthenticated (session token_exp_fraction) a_time = Normal false /\
  isAuthenticated (session token_exp_millis) 1700000000002 = Normal false.
Proof.
  split; [|split; [|split]].
  - refine (proj2 (proj2 (isAuthenticated_iff (session token_exp_number) a_time))
              token_exp_number (Obj [(js "exp", Num (Fin 99999999999))])
              99999999999%Q _ _ _ _);
      vm_compute; reflexivity.
  - refine (proj1 (proj2 (isAuthenticated_iff (session token_expired) a_time))
              token_expired (Obj [(js "exp", Num (Fin 1))]) 1%Q _ _ _ _);
      try (vm_compute; reflexivity).
    vm_compute. discriminate.
  - refine (proj1 (proj2 (isAuthenticated_iff (session token_exp_fraction) a_time))
              token_exp_fraction (Obj [(js "exp", Num (Fin 1700000000))])
              1700000000%Q _ _ _ _);
      try (vm_compute; reflexivity).
    vm_compute. discriminate.
  - refine (proj1 (proj2 (isAuthenticated_iff (session token_exp_millis)
                            1700000000002))
              token_exp_millis
              (Obj [(js "exp", Num (Fin (7130316800008389 # 4194304)))])
              (7130316800008389 # 4194304)%Q _ _ _ _);
      try (vm_compute; reflexivity).
    vm_compute. discriminate.
Defined.

(** A payload whose [exp] is the string ["99999999999"] has no numeric
    [exp], and the session counts as authenticated: [>] converts the
    string to a number. *)
Lemma string_exp_accepted :
  exists payload,
    getToken (session token_exp_string) = Some token_exp_string /\
    decodeJWT token_exp_string = Normal payload /\
    (forall q, get payload (js "exp") <> Normal (Num q)) /\
    isAuthenticated (session token_exp_string) a_time = Normal true.
Proof.
  exists (Obj [(js "exp", Str (js "99999999999"))]).
  split; [vm_compute; reflexivity|].
  split; [vm_compute; reflexivity|].
  split; [|vm_compute; reflexivity].
  intros q. vm_compute. discriminate.
Qed.

(** C2 (amended). No exception leaves [isAuthenticated()], whatever is
    stored.  It returns false for every token that [decodeJWT] cannot
    decode (no payload segment, bad base64, bad UTF-8, bad JSON), for a
    payload on which reading [exp] fails ([null]), for a payload without
    an [exp] member, and for a payload whose [exp] is not a number and
    does not convert to a number greater than the current time. *)
Theorem malformed_token_rejected (s : t) (now : N) :
  (exists b, isAuthenticated s now = Normal b) /\
  (forall token e,
     getToken s = Some token -> decodeJWT token = Throw e ->
     isAuthenticated s now = Normal false) /\
  (forall token payload e,
     getToken s = Some token -> decodeJWT token = Normal payload ->
     get payload (js "exp") = Throw e ->
     isAuthenticated s now = Normal false) /\
  (forall token ms,
     getToken s = Some token -> decodeJWT token = Normal (Obj ms) ->
     own (js "exp") ms = None ->
     isAuthenticated s now = Normal false) /\
  (forall token payload exp,
     getToken s = Some token -> decodeJWT token = Normal payload ->
     get payload (js "exp") = Normal exp ->
     (forall q, exp <> Num q) ->
     greater_than exp (seconds now) <> Normal true ->
     isAuthenticated s now = Normal false).
Proof.
  assert (Hgen : forall token payload exp,
     getToken s = Some token -> decodeJWT token = Normal payload ->
     get payload (js "exp") = Normal exp ->
     greater_than exp (seconds now) <> Normal true ->
     isAuthenticated s now = Normal false).
  { intros token payload exp Ht Hd He Hg.
    rewrite (isAuthenticated_decoded _ _ _ _ _ Ht Hd He).
    destruct (greater_than exp (seconds now)) as [[]|]; try reflexivity.
    - congruence.
    - now rewrite andb_false_r. }
  split; [apply isAuthenticated_total|].
  split; [|split; [|split]].
  - intros token e Ht Hd. unfold isAuthenticated, hasValidToken.
    now rewrite hasValidToken_value_eq, Ht, Hd.
  - intros token payload e Ht Hd He. unfold isAuthenticated, hasValidToken.
    rewrite hasValidToken_value_eq, Ht, Hd. unfold verdict. now rewrite He.
  - intros token ms Ht Hd Ho. apply (Hgen token (Obj ms) Undefined Ht Hd).
    + unfold get. now rewrite Ho.
    + discriminate.
  - intros token payload exp Ht Hd He _ Hg. eauto.
Qed.

Lemma malformed_token_rejected_witness :
  isAuthenticated (session (js "abc")) a_time = Normal false /\
  isAuthenticated (session token_no_exp) a_time = Normal false.
Proof.
  split.
  - refine (proj1 (proj2 (malformed_token_rejected (session (js "abc")) a_time))
              (js "abc") (Error "Token JWT invalide") _ _);
      vm_compute; reflexivity.
  - refine (proj1 (proj2 (proj2 (proj2
              (malformed_token_rejected (session token_no_exp) a_time))))
              token_no_exp [(js "sub", Str (js "1"))] _ _ _);
      vm_compute; reflexivity.
Defined.

End AuthSpec.

(* --------------------------------------------------------------------- *)
(** ** Login                                                              *)
(* --------------------------------------------------------------------- *)

Module LoginSpec.
Import JS AuthService Examples.

Lemma auth_handleError_message {A} (error : Http.HttpErrorResponse) :
  exists msg,
    @handleError A error = Rx.Returned (Rx.Fail (Http.ErrorObject msg)) /\
    msg <> "".
Proof.
  unfold handleError, Rx.throwError. eexists; split; [reflexivity|].
  destruct (Http.is_client_side error); [discriminate|].
  repeat match goal with
    | |- context [if ?c then _ else _] => destruct c eqn:?
    end; try discriminate.
  unfold Opt.truthy, Opt.interpolate in *.
  destruct (Http.error_error error) as [m|]; [|discriminate].
  destruct (String.eqb_spec m ""); [discriminate|assumption].
Qed.

(** C3. On a successful response [login] emits the response, stores the
    returned token and user, and pushes the user and [true] on the two
    subjects; on a failed response it leaves the whole service state
    (stored token, stored user, both subjects) as it was and delivers an
    [Error] with a message to the subscriber. *)
Theorem login_outcome (JSON_stringify : User -> jstring)
    (http_post : LoginRequest -> Rx.Observable Http.HttpErrorResponse LoginResponse)
    (credentials : LoginRequest) (s : t) :
  (forall response, http_post credentials = Rx.Emit response ->
     let s' := fst (login JSON_stringify http_post credentials s) in
     snd (login JSON_stringify http_post credentials s) = Rx.Emit response /\
     getToken s' = Some (access_token response) /\
     Browser.localStorage (browser s') !! USER_KEY
       = Some (JSON_stringify (user response)) /\
     currentUserSubject s' = Rx.next (Some (user response)) (currentUserSubject s) /\
     isAuthenticatedSubject s' = Rx.next true (isAuthenticatedSubject s) /\
     Rx.value (isAuthenticatedSubject s') = true) /\
  (forall error, http_post credentials = Rx.Fail error ->
     fst (login JSON_stringify http_post credentials s) = s /\
     exists msg,
       snd (login JSON_stringify http_post credentials s)
         = Rx.Fail (Http.ErrorObject msg) /\
       msg <> "").
Proof.
  split.
  - intros response H. unfold login. rewrite H. cbn.
    split; [reflexivity|]. split; [|split; [|split; [|split]]]; try reflexivity.
    + unfold getToken. cbn. rewrite lookup_insert_ne by discriminate.
      apply lookup_insert_eq.
    + apply lookup_insert_eq.
  - intros error H. unfold login. rewrite H.
    unfold Rx.tap, Rx.catchError. cbn [fst snd]. split; [reflexivity|].
    destruct (@auth_handleError_message LoginResponse error) as (msg & Hm & Hne).
    exists msg. now rewrite Hm.
Qed.

Lemma login_outcome_witness :
  getToken (fst (login stringify server_accepts credentials anonymous))
    = Some token_exp_number /\
  fst (login stringify server_rejects credentials anonymous) = anonymous.
Proof.
  split.
  - exact (proj1 (proj2 (proj1
             (login_outcome stringify server_accepts credentials anonymous)
             _ eq_refl))).
  - exact (proj1 (proj2
             (login_outcome stringify server_rejects credentials anonymous)
             _ eq_refl)).
Defined.

End LoginSpec.

(* --------------------------------------------------------------------- *)
(** ** Route guards                                                       *)
(* --------------------------------------------------------------------- *)

Module GuardSpec.
Import JS AuthService Guards Examples.




Lemma hasAnyRole_student (s : t) (u : User) :
  getCurrentUser s = Some u -> role u = student ->
  hasAnyRole s ["admin"] = false.
Proof. intros Hu Hr. unfold hasAnyRole, getUserRole. now rewrite Hu, Hr. Qed.

Lemma hasRole_student (s : t) (u : User) (r : string) :
  getCurrentUser s = Some u -> role u = student ->
  hasRole s r = String.eqb "student" r.
Proof. intros Hu Hr. unfold hasRole, getUserRole. now rewrite Hu, Hr. Qed.

Lemma handleUnauthorized_student (s : t) (u : User) :
  getCurrentUser s = Some u -> role u = student ->
  RoleGuard.handleUnauthorized s
    = with_browser (Browser.navigate "/student/dashboard") s.
Proof.
  intros Hu Hr. unfold RoleGuard.handleUnauthorized, getUserRole.
  now rewrite Hu, Hr.
Qed.

(** C5. For an authenticated session whose user is a student and a
    route whose allow-list [roles] is [["admin"]], the guard denies the
    navigation and redirects.  [RoleGuard], for a session whose
    [isAuthenticated$] holds true, redirects to the student dashboard,
    on a route that declares the list alone, as every route of the
    route table does, and on any route whose single [role], if it has
    one, is not ["student"]; the functional [authGuard], for a session
    that [isAuthenticated()] accepts, redirects to [/login]. *)
Theorem student_denied_on_admin_route
    (route : RouteData) (url : string) (s : t) (u : User) :
  getCurrentUser s = Some u -> role u = student ->
  data_roles route = Some ["admin"] ->
  (Rx.value (isAuthenticatedSubject s) = true ->
   data_role route <> Some "student" ->
     RoleGuard.checkRole route url s
       = (with_browser (Browser.navigate "/student/dashboard") s, false)) /\
  (forall now, isAuthenticated s now = Normal true ->
     authGuard route url now s
       = (with_browser (Browser.navigate "/login") s, Normal false)).
Proof.
  intros Hu Hr Hroles. split.
  - intros Ha Hrole. unfold RoleGuard.checkRole.
    rewrite Ha, Hroles, Hu, (hasAnyRole_student _ _ Hu Hr),
      (handleUnauthorized_student _ _ Hu Hr).
    rewrite bool_decide_eq_true_2 by eauto.
    cbn [negb andb length Nat.ltb Nat.leb].
    destruct (Opt.truthy (data_role route)) eqn:Et; [|reflexivity].
    rewrite (hasRole_student _ _ _ Hu Hr).
    destruct (data_role route) as [r|]; [|discriminate]. cbn [Opt.interpolate].
    destruct (String.eqb_spec "student" r); [congruence|reflexivity].
  - intros now Ha. unfold authGuard. rewrite Ha, Hroles.
    unfold getUserRole. now rewrite Hu, Hr.
Qed.

Lemma student_denied_on_admin_route_witness :
  snd (RoleGuard.checkRole admin_only "/admin" (signed_in alice token_exp_number))
    = false /\
  snd (authGuard admin_only "/admin" a_time (signed_in alice token_exp_number))
    = Normal false.
Proof.
  pose proof (student_denied_on_admin_route admin_only "/admin"
                (signed_in alice token_exp_number) alice eq_refl eq_refl eq_refl)
    as [H1 H2].
  split.
  - rewrite H1; [reflexivity | reflexivity | discriminate].
  - rewrite (H2 a_time); [reflexivity | vm_compute; reflexivity].
Defined.

End GuardSpec.

(* --------------------------------------------------------------------- *)
(** ** TTL cache                                                          *)
(* --------------------------------------------------------------------- *)

Module CacheSpec.
Import CacheService Examples.

(** One millisecond after [set] with [ttl: 0] the zero TTL has elapsed,
    and the entry is still served. *)
Lemma zero_ttl_is_not_zero_lifetime :
  snd (get 1001 "k" (set 1000 "k" 42%nat zero_ttl init)) = Some 42%nat /\
  snd (has 1001 "k" (set 1000 "k" 42%nat zero_ttl init)) = true.
Proof. split; vm_compute; reflexivity. Qed.

Section Entry.
Context {T : Type}.
Variables (now : N) (k : string) (v : T) (options : CacheOptions) (s : t T).

Lemma lookup_set :
  cache (set now k v options s) !! k =
    Some (mkItem v (Z.of_N now)
            (if effective_ttl options >? 0
             then Some (Z.of_N now + effective_ttl options) else None) k).
Proof. unfold set. cbn [cache]. now rewrite lookup_insert_eq. Qed.

Lemma fresh (later : N) :
  0 < effective_ttl options ->
  Z.of_N later <= Z.of_N now + effective_ttl options ->
  isExpired later
    (mkItem v (Z.of_N now)
       (if effective_ttl options >? 0
        then Some (Z.of_N now + effective_ttl options) else None) k) = false.
Proof.
  intros Hpos Hle. unfold isExpired. cbn [expiry].
  destruct (Z.gtb_spec (effective_ttl options) 0); [|lia].
  destruct (Z.eqb_spec (Z.of_N now + effective_ttl options) 0); [reflexivity|].
  destruct (Z.gtb_spec (Z.of_N later) (Z.of_N now + effective_ttl options));
    [lia|reflexivity].
Qed.

Lemma stale (later : N) :
  0 < effective_ttl options ->
  Z.of_N now + effective_ttl options < Z.of_N later ->
  isExpired later
    (mkItem v (Z.of_N now)
       (if effective_ttl options >? 0
        then Some (Z.of_N now + effective_ttl options) else None) k) = true.
Proof.
  intros Hpos Hlt. unfold isExpired. cbn [expiry].
  destruct (Z.gtb_spec (effective_ttl options) 0); [|lia].
  destruct (Z.eqb_spec (Z.of_N now + effective_ttl options) 0); [lia|].
  destruct (Z.gtb_spec (Z.of_N later) (Z.of_N now + effective_ttl options));
    [reflexivity|lia].
Qed.

End Entry.

(** C6 (amended). [set(k, v, {ttl: 0})] followed at once by [get(k)]
    returns [v]; a [ttl] of 0 selects the default TTL of 300000 ms.
    With a positive effective TTL (the [ttl] given, or the default when
    it is 0 or missing) the entry is served while no more than that
    time has passed since [set], and once more has passed [get(k)]
    returns null and [has(k)] returns false, each evicting the entry on
    that read. *)
Theorem set_then_get (T : Type) (now : N) (k : string) (v : T)
    (options : CacheOptions) (s : t T) :
  (ttl options = Some 0 ->
     snd (get now k (set now k v options s)) = Some v /\
     effective_ttl options = 300000) /\
  (forall later : N,
     0 < effective_ttl options ->
     Z.of_N later <= Z.of_N now + effective_ttl options ->
     snd (get later k (set now k v options s)) = Some v /\
     snd (has later k (set now k v options s)) = true) /\
  (forall later : N,
     0 < effective_ttl options ->
     Z.of_N now + effective_ttl options < Z.of_N later ->
     snd (get later k (set now k v options s)) = None /\
     cache (fst (get later k (set now k v options s))) !! k = None /\
     snd (has later k (set now k v options s)) = false /\
     cache (fst (has later k (set now k v options s))) !! k = None).
Proof.
  split; [|split].
  - intros H.
    assert (He : effective_ttl options = 300000)
      by (unfold effective_ttl; now rewrite H).
    split; [|exact He].
    unfold get. rewrite lookup_set, fresh; [reflexivity | lia | lia].
  - intros later Hpos Hle. split.
    + unfold get. now rewrite lookup_set, fresh.
    + unfold has. now rewrite lookup_set, fresh.
  - intros later Hpos Hlt. split; [|split; [|split]].
    + unfold get. now rewrite lookup_set, stale.
    + unfold get. rewrite lookup_set, stale by assumption.
      cbn. apply lookup_delete_eq.
    + unfold has. now rewrite lookup_set, stale.
    + unfold has. rewrite lookup_set, stale by assumption.
      cbn. apply lookup_delete_eq.
Qed.

Lemma set_then_get_witness :
  snd (get 1000 "k" (set 1000 "k" 42%nat zero_ttl init)) = Some 42%nat /\
  snd (get 301001 "k" (set 1000 "k" 42%nat zero_ttl init)) = None /\
  snd (has 301001 "k" (set 1000 "k" 42%nat zero_ttl init)) = false.
Proof.
  pose proof (set_then_get nat 1000 "k" 42%nat zero_ttl init) as (H1 & _ & H3).
  split; [apply H1; reflexivity|].
  destruct (H3 301001%N) as (Hg & _ & Hh & _); [reflexivity | reflexivity |].
  split; assumption.
Defined.

(** C7. After [clear()] the list [keys()] is empty, and the subject of
    every watched key holds null and has delivered null to each of its
    subscribers. *)
Theorem clear_empties_keys_and_notifies (T : Type) (s : t T) :
  keys (clear s) = [] /\
  size (clear s) = 0%nat /\
  (forall k subject,
     cacheSubjects s !! k = Some subject ->
     exists subject',
       cacheSubjects (clear s) !! k = Some subject' /\
       Rx.value subject' = None /\
       Rx.inboxes subject'
         = List.map (fun inbox => (inbox ++ [None])%list) (Rx.inboxes subject)).
Proof.
  split; [reflexivity|]. split; [reflexivity|].
  intros k subject H. exists (Rx.next None subject).
  split; [|split; reflexivity].
  unfold clear. cbn [cacheSubjects]. now rewrite lookup_fmap, H.
Qed.

Lemma clear_empties_keys_and_notifies_witness :
  keys (clear watched) = [] /\
  exists subject',
    cacheSubjects (clear watched) !! "grades" = Some subject' /\
    Rx.inboxes subject' = [[None; Some 42%nat; None]].
Proof.
  destruct (clear_empties_keys_and_notifies nat watched) as (Hk & _ & Hn).
  split; [exact Hk|].
  destruct (Hn "grades" (Rx.mkSubject (Some 42%nat) [[None; Some 42%nat]]))
    as (subject' & Hl & _ & Hi); [vm_compute; reflexivity|].
  exists subject'. split; assumption.
Defined.

End CacheSpec.

(* --------------------------------------------------------------------- *)
(** ** Error paths of the resource clients                                *)
(* --------------------------------------------------------------------- *)

Module ClientSpec.
Import Examples.

Lemma append_nonempty (a b : string) : a <> "" -> a +:+ b <> "".
Proof. destruct a; [congruence|discriminate]. Qed.

Lemma or_else_nonempty (o : option string) (d : string) :
  d <> "" -> Opt.or_else o d <> "".
Proof.
  intros Hd. unfold Opt.or_else. destruct o as [m|]; [|assumption].
  destruct (String.eqb_spec m ""); assumption.
Qed.

Lemma truthy_nonempty (o : option string) :
  Opt.truthy o = true -> Opt.interpolate o <> "".
Proof.
  unfold Opt.truthy, Opt.interpolate. destruct o as [m|]; [|discriminate].
  destruct (String.eqb_spec m ""); [discriminate|auto].
Qed.

(** Case analysis on the branches of a handler, then the message of the
    branch is a literal, a literal prefix, or a truthy string. *)
Ltac message :=
  repeat match goal with
    | |- context [if ?c then _ else _] => destruct c eqn:?
    end;
  first [ discriminate
        | apply append_nonempty; discriminate
        | apply or_else_nonempty; discriminate
        | apply truthy_nonempty; assumption
        | idtac ].

Lemma subject_message {A} (error : Http.HttpErrorResponse) :
  exists msg, @SubjectService.handleError A error
              = Rx.Returned (Rx.Fail (Http.ErrorObject msg)) /\ msg <> "".
Proof. eexists; split; [reflexivity|]. message. Qed.

Lemma class_message {A} (error : Http.HttpErrorResponse) :
  exists msg, @ClassService.handleError A error
              = Rx.Returned (Rx.Fail (Http.ErrorObject msg)) /\ msg <> "".
Proof. eexists; split; [reflexivity|]. message. Qed.

Lemma teacher_message {A} (error : Http.HttpErrorResponse) :
  exists msg, @TeacherService.handleError A error
              = Rx.Returned (Rx.Fail (Http.ErrorObject msg)) /\ msg <> "".
Proof.
  eexists; split; [reflexivity|]. message.
  match goal with
  | H : negb (String.eqb ?m "") = true |- _ =>
      destruct (String.eqb_spec m ""); [discriminate|assumption]
  end.
Qed.

(** On a 404 the grade client hands its subscriber the transport's own
    error response, not an [Error] with a message. *)
Lemma grade_client_rethrows_raw :
  @GradeService.getGrade nat (Rx.Fail not_found) = Rx.Fail (Http.Raw not_found) /\
  forall msg : string,
    @GradeService.getGrade nat (Rx.Fail not_found)
      <> Rx.Fail (Http.ErrorObject msg).
Proof. split; [reflexivity | discriminate]. Qed.

(** C8 (amended). On every transport failure the subject, class and
    teacher clients deliver a new [Error] whose message is not empty;
    the grade client delivers the transport error unchanged; and
    [canTeachSubject] swallows the failure and emits [false]. *)
Theorem client_error_paths (A : Type) (error : Http.HttpErrorResponse) :
  (exists msg, @SubjectService.getSubject A (Rx.Fail error)
               = Rx.Fail (Http.ErrorObject msg) /\ msg <> "") /\
  (exists msg, @ClassService.getClass A (Rx.Fail error)
               = Rx.Fail (Http.ErrorObject msg) /\ msg <> "") /\
  (exists msg, @TeacherService.getTeacher A (Rx.Fail error)
               = Rx.Fail (Http.ErrorObject msg) /\ msg <> "") /\
  @GradeService.getGrade A (Rx.Fail error) = Rx.Fail (Http.Raw error) /\
  (forall teaches : A -> bool,
     TeacherService.canTeachSubject teaches (Rx.Fail error) = Rx.Emit false).
Proof.
  split; [|split; [|split; [|split]]].
  - destruct (@subject_message A error) as (msg & H & Hne). exists msg.
    unfold SubjectService.getSubject, Rx.catchError. now rewrite H.
  - destruct (@class_message A error) as (msg & H & Hne). exists msg.
    unfold ClassService.getClass, Rx.catchError. now rewrite H.
  - destruct (@teacher_message A error) as (msg & H & Hne). exists msg.
    unfold TeacherService.getTeacher, Rx.catchError. now rewrite H.
  - reflexivity.
  - intros teaches.
    unfold TeacherService.canTeachSubject, TeacherService.getTeacher.
    destruct (@teacher_message A error) as (msg & H & Hne).
    unfold Rx.catchError at 2. now rewrite H.
Qed.

End ClientSpec.

(* --------------------------------------------------------------------- *)
(** ** Appreciation of a grade                                            *)
(* --------------------------------------------------------------------- *)

Module GradeSpec.
Import GradeService QFacts.
Local Open Scope Q_scope.

(** C10. [getAppreciation(g)] is ['CA'] exactly when [g > 10], ['CANT']
    exactly when [7 <= g <= 10] (so 10 gives ['CANT']), and ['NC']
    exactly when [g < 7], negative grades included. *)
Theorem getAppreciation_spec (g : Q) :
  (getAppreciation g = CA <-> 10 < g) /\
  (getAppreciation g = CANT <-> 7 <= g /\ g <= 10) /\
  (getAppreciation g = NC <-> g < 7) /\
  (g < 0 -> getAppreciation g = NC) /\
  getAppreciation 10 = CANT.
Proof.
  assert (H10 : getAppreciation 10 = CANT) by reflexivity.
  unfold getAppreciation in *.
  destruct (JS.Qltb 10 g) eqn:E1.
  - apply Qltb_lt in E1.
    split; [split; [auto | reflexivity]|].
    split; [split; [discriminate | intros; lra]|].
    split; [split; [discriminate | intros; lra]|].
    split; [intros; lra | exact H10].
  - apply Qltb_ge in E1.
    destruct (Qle_bool 7 g) eqn:E2.
    + apply Qle_bool_iff in E2.
      assert (E3 : Qle_bool g 10 = true) by now apply Qle_bool_iff.
      rewrite E3. cbn [andb].
      split; [split; [discriminate | intros; lra]|].
      split; [split; [auto | reflexivity]|].
      split; [split; [discriminate | intros; lra]|].
      split; [intros; lra | exact H10].
    + assert (L : g < 7).
      { apply Qnot_le_lt. intros H%Qle_bool_iff. congruence. }
      cbn [andb].
      split; [split; [discriminate | intros; lra]|].
      split; [split; [discriminate | intros; lra]|].
      split; [split; [auto | reflexivity]|].
      split; [reflexivity | exact H10].
Qed.

Lemma getAppreciation_spec_witness :
  getAppreciation (-3) = NC /\ getAppreciation 10 = CANT /\
  getAppreciation (21 # 2) = CA.
Proof.
  split; [|split].
  - apply (proj1 (proj2 (proj2 (proj2 (getAppreciation_spec (-3)))))). reflexivity.
  - apply (proj2 (proj2 (proj2 (proj2 (getAppreciation_spec 0))))).
  - apply (proj1 (getAppreciation_spec (21 # 2))). reflexivity.
Defined.

End GradeSpec.

(* --------------------------------------------------------------------- *)
(** ** Loading indicator                                                  *)
(* --------------------------------------------------------------------- *)

Module LoadingSpec.
Import LoadingService.

Lemma run_snoc cs c : run (cs ++ [c]) = step (run cs) c.
Proof. unfold run. now rewrite fold_left_app. Qed.

Lemma shows_snoc cs c :
  shows (cs ++ [c]) = shows cs + match c with Show => 1 | Hide => 0 end.
Proof.
  induction cs as [|[] cs IH]; cbn [app shows]; destruct c; cbn [shows] in *; lia.
Qed.

Lemma hides_snoc cs c :
  hides (cs ++ [c]) = hides cs + match c with Hide => 1 | Show => 0 end.
Proof.
  induction cs as [|[] cs IH]; cbn [app hides]; destruct c; cbn [hides] in *; lia.
Qed.

(** The indicator follows the counter whatever the calls are: the guard in
    [hide] keeps the counter from going below zero. *)
Lemma indicator_follows_counter cs :
  0 <= loadingCounter (run cs) /\
  isLoading (run cs) = (0 <? loadingCounter (run cs)).
Proof.
  induction cs as [|c cs IH] using rev_ind.
  - split; [cbn; lia | reflexivity].
  - rewrite run_snoc. destruct IH as [Hge Hind].
    unfold isLoading in *. destruct c; cbn [step show hide loadingCounter loadingSubject].
    + destruct (Z.eqb_spec (loadingCounter (run cs) + 1) 1) as [E|E]; cbn.
      * split; [lia|]. symmetry. apply Z.ltb_lt. lia.
      * split; [lia|]. rewrite Hind.
        transitivity true; [apply Z.ltb_lt; lia | symmetry; apply Z.ltb_lt; lia].
    + destruct (Z.gtb_spec (loadingCounter (run cs)) 0) as [G|G].
      * destruct (Z.eqb_spec (loadingCounter (run cs) - 1) 0) as [E|E]; cbn.
        -- split; [lia|]. symmetry. apply Z.ltb_ge. lia.
        -- split; [lia|]. rewrite Hind.
           transitivity true; [apply Z.ltb_lt; lia | symmetry; apply Z.ltb_lt; lia].
      * assert (E : loadingCounter (run cs) = 0) by lia.
        rewrite E. cbn. split; [lia | reflexivity].
Qed.

Lemma matched_init cs c : matched (cs ++ [c]) -> matched cs.
Proof.
  intros H n. specialize (H (Nat.min n (length cs))).
  rewrite take_app_le in H by lia.
  destruct (Nat.le_ge_cases n (length cs)) as [L|L].
  - now rewrite Nat.min_l in H by lia.
  - rewrite Nat.min_r in H by lia. rewrite firstn_all in H.
    now rewrite take_ge by lia.
Qed.

Lemma counter_is_reference_count cs :
  matched cs -> loadingCounter (run cs) = shows cs - hides cs.
Proof.
  induction cs as [|c cs IH] using rev_ind; intros Hm.
  - reflexivity.
  - pose proof (matched_init _ _ Hm) as Hm'. specialize (IH Hm').
    specialize (Hm (length (cs ++ [c]))). rewrite firstn_all in Hm.
    rewrite shows_snoc, hides_snoc in *. rewrite run_snoc.
    destruct c; cbn [step show hide loadingCounter].
    + lia.
    + destruct (Z.gtb_spec (loadingCounter (run cs)) 0); lia.
Qed.

(** C9. Starting from counter 0 and indicator off, along every sequence
    of [show()] and [hide()] calls in which [hide()] never outnumbers
    [show()] in a prefix, after every call the counter is the number of
    shows minus the number of hides and [isLoading()] equals
    [counter > 0]; hence the indicator is on exactly while some [show()]
    is still unmatched. *)
Theorem loading_reference_count (cs : list call) (Hm : matched cs) :
  forall n : nat,
    let s := run (take n cs) in
    loadingCounter s = shows (take n cs) - hides (take n cs) /\
    isLoading s = (0 <? loadingCounter s) /\
    (isLoading s = true <-> hides (take n cs) < shows (take n cs)).
Proof.
  intros n s.
  assert (Hp : matched (take n cs)).
  { intros k. rewrite take_take. apply Hm. }
  pose proof (counter_is_reference_count _ Hp) as Hc.
  pose proof (indicator_follows_counter (take n cs)) as [_ Hi].
  subst s. repeat split; auto.
  - rewrite Hi. intros H%Z.ltb_lt. lia.
  - rewrite Hi. intros H. apply Z.ltb_lt. lia.
Qed.

Lemma loading_reference_count_witness :
  matched [Show; Show; Hide; Hide] /\
  isLoading (run (take 3 [Show; Show; Hide; Hide])) = true /\
  isLoading (run (take 4 [Show; Show; Hide; Hide])) = false.
Proof.
  assert (Hm : matched [Show; Show; Hide; Hide]).
  { intros n. do 5 (destruct n as [|n]; [vm_compute; discriminate|]).
    vm_compute; discriminate. }
  split; [exact Hm|].
  pose proof (loading_reference_count _ Hm 3) as (_ & H3 & _).
  pose proof (loading_reference_count _ Hm 4) as (_ & H4 & _).
  split; [rewrite H3 | rewrite H4]; reflexivity.
Defined.

End LoadingSpec.

(* ===================================================================== *)
(** * Further properties of the code                                      *)
(* ===================================================================== *)

Module CacheOpsSpec.
Import CacheService CacheOps.

Section Facts.
Context {T : Type}.
Implicit Types (s : t T) (k : string) (now : N).

Lemma bool_decide_elem_cons {A} `{EqDecision A} (x y : A) (l : list A) :
  y <> x -> bool_decide (x ∈ y :: l) = bool_decide (x ∈ l).
Proof.
  intros Hne. apply bool_decide_ext. rewrite elem_of_cons.
  split; [intros [->|H]; [contradiction|exact H] | intros H; now right].
Qed.

Lemma lookup_notify k k' (v : option T)
    (subjects : gmap string (Rx.BehaviorSubject (option T))) :
  notify k v subjects !! k' =
    if decide (k = k') then Rx.next v <$> subjects !! k else subjects !! k'.
Proof.
  unfold notify. destruct (subjects !! k) as [subject|] eqn:E.
  - destruct (decide (k = k')) as [<-|Hne].
    + now rewrite lookup_insert_eq.
    + now rewrite lookup_insert_ne.
  - destruct (decide (k = k')) as [<-|Hne]; [now rewrite E | reflexivity].
Qed.

Lemma cache_delete k s : cache (delete k s).1 = base.delete k (cache s).
Proof. reflexivity. Qed.

Lemma subjects_delete_stored k s i :
  cache s !! k = Some i ->
  cacheSubjects (delete k s).1 = notify k None (cacheSubjects s).
Proof.
  intros H. unfold delete. cbn [fst cacheSubjects].
  rewrite bool_decide_eq_true_2; [reflexivity | now exists i].
Qed.

Lemma delete_stored k s i : cache s !! k = Some i -> (delete k s).2 = true.
Proof. intros H. unfold delete. cbn [snd]. apply bool_decide_eq_true. now exists i. Qed.

Lemma size_delete k s :
  (size (delete k s).1 + (if (delete k s).2 then 1 else 0) = size s)%nat.
Proof.
  unfold size, delete. cbn [fst snd cache].
  rewrite map_size_delete. destruct (cache s !! k) as [i|] eqn:E.
  - rewrite bool_decide_eq_true_2 by eauto.
    assert (base.size (cache s) <> 0%nat).
    { intros H0. apply map_size_empty_inv in H0. rewrite H0 in E.
      now rewrite lookup_empty in E. }
    cbn. lia.
  - rewrite bool_decide_eq_false_2 by (intros [? ?]; discriminate). cbn. lia.
Qed.

Lemma get_of_lookup now k s :
  (get now k s).2 =
    match cache s !! k with
    | Some item => if isExpired now item then None else Some (data item)
    | None => None
    end.
Proof.
  unfold get. destruct (cache s !! k) as [item|]; [|reflexivity].
  destruct (isExpired now item); reflexivity.
Qed.

Lemma has_of_lookup now k s :
  (has now k s).2 =
    match cache s !! k with
    | Some item => negb (isExpired now item)
    | None => false
    end.
Proof.
  unfold has. destruct (cache s !! k) as [item|]; [|reflexivity].
  destruct (isExpired now item); reflexivity.
Qed.

End Facts.

(** X1. Writing one key leaves every other key alone: its entry, what
    [get] and [has] answer for it at any time, and its watchers. *)
Theorem set_leaves_other_keys (T : Type) (now later : N) (k k' : string) (v : T)
    (options : CacheOptions) (s : t T) :
  k <> k' ->
  cache (set now k v options s) !! k' = cache s !! k' /\
  (get later k' (set now k v options s)).2 = (get later k' s).2 /\
  (has later k' (set now k v options s)).2 = (has later k' s).2 /\
  cacheSubjects (set now k v options s) !! k' = cacheSubjects s !! k'.
Proof.
  intros Hne.
  assert (Hc : cache (set now k v options s) !! k' = cache s !! k').
  { unfold set. cbn [cache]. now rewrite lookup_insert_ne. }
  split; [exact Hc|]. rewrite !get_of_lookup, !has_of_lookup, Hc.
  split; [reflexivity|]. split; [reflexivity|].
  unfold set. cbn [cacheSubjects]. rewrite lookup_notify.
  destruct (decide (k = k')); [contradiction|reflexivity].
Qed.

Lemma set_leaves_other_keys_witness :
  (get 1500 "b" (set 1000 "a" 1%nat no_options (set 900 "b" 2%nat no_options init))).2
    = Some 2%nat.
Proof.
  destruct (set_leaves_other_keys nat 1000 1500 "a" "b" 1%nat no_options
              (set 900 "b" 2%nat no_options init)) as (_ & H & _); [discriminate|].
  rewrite H. vm_compute. reflexivity.
Defined.

(** X2. [delete(k)] returns true exactly when an entry is stored under
    [k] (expired or not); afterwards [get(k)] is null and [has(k)] false
    at any time, a second [delete(k)] returns false, the other keys keep
    their entries, [size()] has gone down by one exactly when true was
    returned, and the watchers of [k] were sent null exactly then. *)
Theorem delete_spec (T : Type) (k : string) (s : t T) :
  ((delete k s).2 = true <-> is_Some (cache s !! k)) /\
  (forall now, (get now k (delete k s).1).2 = None /\
               (has now k (delete k s).1).2 = false) /\
  (delete k (delete k s).1).2 = false /\
  (forall k', k <> k' -> cache (delete k s).1 !! k' = cache s !! k') /\
  (size (delete k s).1 + (if (delete k s).2 then 1 else 0) = size s)%nat /\
  cacheSubjects (delete k s).1 !! k =
    (if (delete k s).2 then Rx.next None <$> cacheSubjects s !! k
     else cacheSubjects s !! k).
Proof.
  split; [|split; [|split; [|split; [|split]]]].
  - unfold delete. cbn [snd]. apply bool_decide_eq_true.
  - intros now. rewrite get_of_lookup, has_of_lookup, cache_delete.
    now rewrite lookup_delete_eq.
  - unfold delete at 1. cbn [snd]. rewrite cache_delete.
    apply bool_decide_eq_false. rewrite lookup_delete_eq. intros [? ?]; discriminate.
  - intros k' Hne. rewrite cache_delete. now apply lookup_delete_ne.
  - apply size_delete.
  - unfold delete. cbn [fst snd cacheSubjects].
    destruct (bool_decide (is_Some (cache s !! k))); [|reflexivity].
    rewrite lookup_notify. destruct (decide (k = k)); [reflexivity|contradiction].
Qed.

Lemma delete_spec_witness :
  (delete "a" (set 1000 "a" 1%nat no_options (set 900 "b" 2%nat no_options init))).2 = true /\
  (get 1000 "b" (delete "a" (set 1000 "a" 1%nat no_options
                               (set 900 "b" 2%nat no_options init))).1).2 = Some 2%nat.
Proof.
  pose proof (delete_spec nat "a" (set 1000 "a" 1%nat no_options
                                     (set 900 "b" 2%nat no_options init)))
    as (H1 & _ & _ & H4 & _).
  split.
  - apply H1. vm_compute. eauto.
  - rewrite get_of_lookup, (H4 "b"); [vm_compute; reflexivity | discriminate].
Defined.

Section Sweep.
Context {T : Type}.
Implicit Types (s : t T) (k : string) (now : N).

(** The loop of [cleanup] over a list of entries that are all stored. *)
Lemma sweep_fold now : forall (l : list (string * CacheItem T)) (acc : t T * nat),
  NoDup l.*1 ->
  (forall k i, (k, i) ∈ l -> cache acc.1 !! k = Some i) ->
  let r := fold_left (sweep now) l acc in
  (forall k,
     cache r.1 !! k =
       match cache acc.1 !! k with
       | Some i => if bool_decide (k ∈ l.*1) && isExpired now i then None else Some i
       | None => None
       end) /\
  (forall k,
     cacheSubjects r.1 !! k =
       match cache acc.1 !! k with
       | Some i => if bool_decide (k ∈ l.*1) && isExpired now i
                   then Rx.next None <$> cacheSubjects acc.1 !! k
                   else cacheSubjects acc.1 !! k
       | None => cacheSubjects acc.1 !! k
       end) /\
  (size r.1 + r.2 = size acc.1 + acc.2)%nat.
Proof.
  induction l as [|[k0 i0] l IH]; intros acc Hnd Hin; cbn [fold_left].
  - cbn. split; [|split]; [| |reflexivity]; intros k;
      destruct (cache acc.1 !! k); reflexivity.
  - cbn [fmap list_fmap fst] in Hnd. apply NoDup_cons in Hnd as [Hk0 Hnd].
    assert (H0 : cache acc.1 !! k0 = Some i0) by (apply Hin; left).
    assert (Hstep : sweep now acc (k0, i0)
                    = if isExpired now i0 then ((delete k0 acc.1).1, S acc.2) else acc)
      by reflexivity.
    rewrite Hstep. clear Hstep. cbv zeta.
    destruct (isExpired now i0) eqn:Ex.
    + specialize (IH ((delete k0 acc.1).1, S acc.2) Hnd).
      cbv zeta in IH. cbn [fst snd] in IH. destruct IH as (IHc & IHs & IHn).
      { intros k i Hki. rewrite cache_delete, lookup_delete_ne; [apply Hin; now right|].
        intros ->. apply Hk0. apply list_elem_of_fmap. now exists (k, i). }
      split; [|split].
      * intros k. rewrite IHc, cache_delete.
        destruct (decide (k0 = k)) as [<-|Hne].
        -- rewrite lookup_delete_eq, H0.
           rewrite bool_decide_eq_true_2 by (cbn; left). now rewrite Ex.
        -- rewrite lookup_delete_ne by done.
           destruct (cache acc.1 !! k) as [i|]; [|reflexivity].
           change (((k0, i0) :: l).*1) with (k0 :: l.*1).
           now rewrite (bool_decide_elem_cons k k0 (l.*1)) by done.
      * intros k. rewrite IHs, cache_delete, (subjects_delete_stored _ _ _ H0).
        rewrite !lookup_notify.
        destruct (decide (k0 = k)) as [<-|Hne].
        -- rewrite lookup_delete_eq, H0.
           rewrite bool_decide_eq_true_2 by (cbn; left). now rewrite Ex.
        -- rewrite lookup_delete_ne by done.
           destruct (cache acc.1 !! k) as [i|]; [|reflexivity].
           change (((k0, i0) :: l).*1) with (k0 :: l.*1).
           now rewrite (bool_decide_elem_cons k k0 (l.*1)) by done.
      * rewrite IHn. pose proof (size_delete k0 acc.1) as Hs.
        rewrite (delete_stored _ _ _ H0) in Hs. lia.
    + specialize (IH acc Hnd). cbv zeta in IH. destruct IH as (IHc & IHs & IHn).
      { intros k i Hki. apply Hin. now right. }
      split; [|split]; [| |exact IHn].
      * intros k. rewrite IHc.
        destruct (cache acc.1 !! k) as [i|] eqn:Ek; [|reflexivity].
        destruct (decide (k0 = k)) as [<-|Hne].
        -- assert (Hi : i = i0) by congruence. subst i. rewrite Ex.
           rewrite !andb_false_r. reflexivity.
        -- change (((k0, i0) :: l).*1) with (k0 :: l.*1).
           now rewrite (bool_decide_elem_cons k k0 (l.*1)) by done.
      * intros k. rewrite IHs.
        destruct (cache acc.1 !! k) as [i|] eqn:Ek; [|reflexivity].
        destruct (decide (k0 = k)) as [<-|Hne].
        -- assert (Hi : i = i0) by congruence. subst i. rewrite Ex.
           rewrite !andb_false_r. reflexivity.
        -- change (((k0, i0) :: l).*1) with (k0 :: l.*1).
           now rewrite (bool_decide_elem_cons k k0 (l.*1)) by done.
Qed.

End Sweep.

(** X3. [cleanup()] removes exactly the entries that are expired at that
    moment and keeps every other entry as it is; it returns the number of
    entries removed; it sends null to the watchers of the removed keys
    and to no others; and [get] at that moment answers the same for
    every key before and after. *)
Theorem cleanup_spec (T : Type) (now : N) (s : t T) :
  (forall k,
     cache (cleanup now s).1 !! k =
       match cache s !! k with
       | Some i => if isExpired now i then None else Some i
       | None => None
       end) /\
  (size (cleanup now s).1 + (cleanup now s).2 = size s)%nat /\
  (forall k, (get now k (cleanup now s).1).2 = (get now k s).2) /\
  (forall k,
     cacheSubjects (cleanup now s).1 !! k =
       match cache s !! k with
       | Some i => if isExpired now i then Rx.next None <$> cacheSubjects s !! k
                   else cacheSubjects s !! k
       | None => cacheSubjects s !! k
       end).
Proof.
  destruct (sweep_fold now (map_to_list (cache s)) (s, 0%nat)) as (Hc & Hs & Hn).
  { apply NoDup_fst_map_to_list. }
  { intros k i. apply elem_of_map_to_list. }
  cbn [fst snd] in *. fold (cleanup now s) in *.
  assert (Hin : forall k i, cache s !! k = Some i ->
                  bool_decide (k ∈ (map_to_list (cache s)).*1) = true).
  { intros k i Hk. apply bool_decide_eq_true. apply list_elem_of_fmap.
    exists (k, i). split; [reflexivity|]. now apply elem_of_map_to_list. }
  assert (Hc' : forall k,
     cache (cleanup now s).1 !! k =
       match cache s !! k with
       | Some i => if isExpired now i then None else Some i
       | None => None
       end).
  { intros k. rewrite Hc. destruct (cache s !! k) as [i|] eqn:E; [|reflexivity].
    now rewrite (Hin _ _ E). }
  split; [exact Hc'|]. split; [lia|]. split.
  - intros k. rewrite !get_of_lookup, Hc'.
    destruct (cache s !! k) as [i|]; [|reflexivity].
    destruct (isExpired now i) eqn:E; [reflexivity|now rewrite E].
  - intros k. rewrite Hs. destruct (cache s !! k) as [i|] eqn:E; [|reflexivity].
    now rewrite (Hin _ _ E).
Qed.

Section Deleting.
Context {T : Type}.
Implicit Types (s : t T) (k : string).

Lemma delete_counting_fold : forall (l : list string) (acc : t T * nat),
  let r := fold_left delete_counting l acc in
  (forall k, cache r.1 !! k
             = if bool_decide (k ∈ l) then None else cache acc.1 !! k) /\
  (size r.1 + r.2 = size acc.1 + acc.2)%nat.
Proof.
  induction l as [|k0 l IH]; intros acc; cbn [fold_left].
  - split; [intros k; now rewrite bool_decide_eq_false_2 by apply not_elem_of_nil|].
    reflexivity.
  - destruct (IH (delete_counting acc k0)) as (IHc & IHn). split.
    + intros k. rewrite IHc. unfold delete_counting.
      destruct (decide (k = k0)) as [->|Hne].
      * rewrite (bool_decide_eq_true_2 (k0 ∈ k0 :: l)) by (left).
        destruct (bool_decide (k0 ∈ l)); [reflexivity|].
        cbn. apply lookup_delete_eq.
      * rewrite (bool_decide_elem_cons k k0 l) by done.
        destruct (bool_decide (k ∈ l)); [reflexivity|].
        cbn. now rewrite lookup_delete_ne.
    + rewrite IHn. pose proof (size_delete k0 acc.1) as Hs.
      unfold delete_counting. destruct (delete k0 acc.1) as [s' d].
      cbn [fst snd] in *. destruct d; lia.
Qed.

End Deleting.

(** X4. [deleteMultiple(keys)] leaves no entry under a listed key and
    keeps the entry of every other key; the number it returns is the
    number of entries it removed, so a key listed twice or not stored
    does not count. *)
Theorem deleteMultiple_spec (T : Type) (l : list string) (s : t T) :
  (forall k, k ∈ l -> cache (deleteMultiple l s).1 !! k = None) /\
  (forall k, k ∉ l -> cache (deleteMultiple l s).1 !! k = cache s !! k) /\
  (size (deleteMultiple l s).1 + (deleteMultiple l s).2 = size s)%nat /\
  ((deleteMultiple l s).2 <= length l)%nat.
Proof.
  destruct (delete_counting_fold l (s, 0%nat)) as (Hc & Hn).
  cbn [fst snd] in *. fold (deleteMultiple l s) in *.
  split; [|split; [|split]].
  - intros k Hk. now rewrite Hc, bool_decide_eq_true_2.
  - intros k Hk. now rewrite Hc, bool_decide_eq_false_2.
  - lia.
  - clear Hc Hn. unfold deleteMultiple.
    assert (H : forall (acc : t T * nat),
              ((fold_left delete_counting l acc).2 <= acc.2 + length l)%nat).
    { induction l as [|k0 l IH]; intros acc; cbn [fold_left length]; [lia|].
      etransitivity; [apply IH|]. unfold delete_counting.
      destruct (delete k0 acc.1) as [s' d]. cbn [snd]. destruct d; lia. }
    apply (H (s, 0%nat)).
Qed.

Lemma deleteMultiple_spec_witness :
  (deleteMultiple ["a"; "a"; "zz"]
     (set 1000 "a" 1%nat no_options (set 900 "b" 2%nat no_options init))).2 = 1%nat.
Proof.
  pose proof (deleteMultiple_spec nat ["a"; "a"; "zz"]
                (set 1000 "a" 1%nat no_options (set 900 "b" 2%nat no_options init)))
    as (H1 & H2 & H3 & _).
  assert (Hs : size (set 1000 "a" 1%nat no_options
                       (set 900 "b" 2%nat no_options (@init nat))) = 2%nat)
    by (vm_compute; reflexivity).
  assert (Ha : cache (deleteMultiple ["a"; "a"; "zz"]
              (set 1000 "a" 1%nat no_options (set 900 "b" 2%nat no_options init))).1
              !! "a" = None) by (apply H1; left).
  assert (Hd : size (deleteMultiple ["a"; "a"; "zz"]
              (set 1000 "a" 1%nat no_options (set 900 "b" 2%nat no_options init))).1
              = 1%nat) by (vm_compute; reflexivity).
  lia.
Defined.

(** X5. [clearByPrefix(p)] leaves no entry whose key starts with [p],
    keeps the entry of every other key, and returns the number of entries
    it removed. *)
Theorem clearByPrefix_spec (T : Type) (p : string) (s : t T) :
  (forall k, String.prefix p k = true -> cache (clearByPrefix p s).1 !! k = None) /\
  (forall k, String.prefix p k = false ->
     cache (clearByPrefix p s).1 !! k = cache s !! k) /\
  (size (clearByPrefix p s).1 + (clearByPrefix p s).2 = size s)%nat.
Proof.
  destruct (delete_counting_fold (List.filter (String.prefix p) (keys s)) (s, 0%nat))
    as (Hc & Hn).
  cbn [fst snd] in *. fold (clearByPrefix p s) in *.
  split; [|split; [|lia]].
  - intros k Hk. rewrite Hc.
    destruct (cache s !! k) as [i|] eqn:E.
    + rewrite bool_decide_eq_true_2; [reflexivity|].
      apply list_elem_of_In, filter_In. split; [|exact Hk].
      apply list_elem_of_In. unfold keys. apply list_elem_of_fmap.
      exists (k, i). split; [reflexivity|]. now apply elem_of_map_to_list.
    + destruct (bool_decide _); reflexivity.
  - intros k Hk. rewrite Hc. rewrite bool_decide_eq_false_2; [reflexivity|].
    intros Hin%list_elem_of_In%filter_In. destruct Hin as [_ Hp]. congruence.
Qed.

Lemma clearByPrefix_spec_witness :
  cache (clearByPrefix "user_"
           (set 1000 "user_7_grades" 1%nat no_options
              (set 900 "student_list" 2%nat no_options init))).1 !! "user_7_grades" = None /\
  (clearByPrefix "user_"
     (set 1000 "user_7_grades" 1%nat no_options
        (set 900 "student_list" 2%nat no_options init))).2 = 1%nat.
Proof.
  pose proof (clearByPrefix_spec nat "user_"
                (set 1000 "user_7_grades" 1%nat no_options
                   (set 900 "student_list" 2%nat no_options init))) as (H1 & _ & H3).
  split; [apply H1; reflexivity|].
  vm_compute. reflexivity.
Defined.

Section Writes.
Context {T : Type}.
Implicit Types (s : t T) (k : string) (now : N).

Lemma cache_set now k (v : T) options s :
  cache (set now k v options s) !! k =
    Some (mkItem v (Z.of_N now)
            (if effective_ttl options >? 0
             then Some (Z.of_N now + effective_ttl options) else None) k).
Proof. unfold set. cbn [cache]. apply lookup_insert_eq. Qed.

Lemma effective_ttl_nonzero options : effective_ttl options <> 0.
Proof.
  unfold effective_ttl, defaultTTL. destruct (ttl options) as [x|]; [|lia].
  destruct (Z.eqb_spec x 0); lia.
Qed.

(** An entry is never expired at the moment it is written. *)
Lemma set_fresh now k (v : T) options s :
  (get now k (set now k v options s)).2 = Some v /\
  (get now k (set now k v options s)).1 = set now k v options s.
Proof.
  unfold get. rewrite cache_set. unfold isExpired. cbn [expiry data].
  destruct (Z.gtb_spec (effective_ttl options) 0); [|split; reflexivity].
  destruct (Z.eqb_spec (Z.of_N now + effective_ttl options) 0); [split; reflexivity|].
  destruct (Z.gtb_spec (Z.of_N now) (Z.of_N now + effective_ttl options));
    [lia | split; reflexivity].
Qed.

End Writes.

(** X6. Expiry alone tells the watchers nothing.  With a subject already
    on [k], after [set(k, v)] and once the TTL has passed, a new
    subscriber of [watch(k)] is still handed [v] and the entry is still
    in the map; the watchers are sent null only by the read that evicts
    the entry, for which [get(k)] returns null. *)
Theorem expiry_reaches_watchers_on_read (T : Type) (now later : N) (k : string)
    (v : T) (options : CacheOptions) (s : t T)
    (subject : Rx.BehaviorSubject (option T)) :
  cacheSubjects s !! k = Some subject ->
  0 < effective_ttl options ->
  Z.of_N now + effective_ttl options < Z.of_N later ->
  cacheSubjects (subscribe later k (set now k v options s)) !! k
    = Some (Rx.subscribe (Rx.next (Some v) subject)) /\
  Rx.value (Rx.subscribe (Rx.next (Some v) subject)) = Some v /\
  is_Some (cache (subscribe later k (set now k v options s)) !! k) /\
  (get later k (set now k v options s)).2 = None /\
  cacheSubjects (get later k (set now k v options s)).1 !! k
    = Some (Rx.next None (Rx.next (Some v) subject)).
Proof.
  intros Hs Hpos Hlate.
  assert (Hsub : cacheSubjects (set now k v options s) !! k
                 = Some (Rx.next (Some v) subject)).
  { unfold set. cbn [cacheSubjects]. rewrite lookup_notify, Hs.
    destruct (decide (k = k)); [reflexivity|contradiction]. }
  assert (Hw : watch later k (set now k v options s) = set now k v options s).
  { unfold watch. now rewrite Hsub. }
  assert (Hex : isExpired later
                  (mkItem v (Z.of_N now)
                     (if effective_ttl options >? 0
                      then Some (Z.of_N now + effective_ttl options) else None) k) = true).
  { unfold isExpired. cbn [expiry].
    destruct (Z.gtb_spec (effective_ttl options) 0); [|lia].
    destruct (Z.eqb_spec (Z.of_N now + effective_ttl options) 0); [lia|].
    destruct (Z.gtb_spec (Z.of_N later) (Z.of_N now + effective_ttl options));
      [reflexivity|lia]. }
  split; [|split; [|split; [|split]]].
  - unfold subscribe. rewrite Hw. cbn [cacheSubjects].
    now rewrite lookup_alter_eq, Hsub.
  - reflexivity.
  - unfold subscribe. rewrite Hw. cbn [cache]. rewrite cache_set. eauto.
  - rewrite get_of_lookup, cache_set. now rewrite Hex.
  - unfold get. rewrite cache_set, Hex. cbn [fst].
    rewrite (subjects_delete_stored _ _ _ (cache_set now k v options s)).
    rewrite lookup_notify, Hsub.
    destruct (decide (k = k)); [reflexivity|contradiction].
Qed.

Lemma expiry_reaches_watchers_on_read_witness :
  (get 400000 "grades"
     (set 1000 "grades" 42%nat no_options (subscribe 1000 "grades" init))).2 = None /\
  Rx.inboxes <$> cacheSubjects
     (subscribe 400000 "grades"
        (set 1000 "grades" 42%nat no_options (subscribe 1000 "grades" init)))
     !! "grades" = Some [[None; Some 42%nat]; [Some 42%nat]].
Proof.
  destruct (expiry_reaches_watchers_on_read nat 1000 400000 "grades" 42%nat no_options
              (subscribe 1000 "grades" init) (Rx.mkSubject None [[None]]))
    as (H1 & _ & _ & H4 & _); [vm_compute; reflexivity | reflexivity | reflexivity |].
  split; [exact H4|]. rewrite H1. reflexivity.
Defined.

(** X7. A negative [ttl] makes an entry that never expires: [get]
    returns the value and [has] returns true at any later time. *)
Theorem negative_ttl_never_expires (T : Type) (now later : N) (k : string) (v : T)
    (options : CacheOptions) (s : t T) (x : Z) :
  ttl options = Some x -> x < 0 ->
  (get later k (set now k v options s)).2 = Some v /\
  (has later k (set now k v options s)).2 = true /\
  expiry <$> cache (set now k v options s) !! k = Some None.
Proof.
  intros Ht Hx.
  assert (He : effective_ttl options = x).
  { unfold effective_ttl. rewrite Ht. destruct (Z.eqb_spec x 0); [lia|reflexivity]. }
  rewrite get_of_lookup, has_of_lookup, cache_set, He.
  destruct (Z.gtb_spec x 0); [lia|]. split; [|split]; reflexivity.
Qed.

Lemma negative_ttl_never_expires_witness :
  (get 999999999999 "k"
     (set 1000 "k" 42%nat (mkOptions (Some (-1)) false false) init)).2 = Some 42%nat.
Proof.
  exact (proj1 (negative_ttl_never_expires nat 1000 999999999999 "k" 42%nat
                  (mkOptions (Some (-1)) false false) init (-1) eq_refl eq_refl)).
Defined.

(** X8. Whatever the options, a value is readable at the moment it is
    written: [get(k)] right after [set(k, v)] returns [v] and evicts
    nothing, and right after [update(k, f)] it returns [f] applied to
    what [get(k)] returned before (null for a missing or expired
    entry). *)
Theorem write_then_read (T : Type) (now : N) (k : string) (v : T)
    (updater : option T -> T) (options : CacheOptions) (s : t T) :
  (get now k (set now k v options s)).2 = Some v /\
  (has now k (set now k v options s)).2 = true /\
  (get now k (update now k updater options s)).2
    = Some (updater (get now k s).2).
Proof.
  split; [apply set_fresh|]. split.
  - pose proof (set_fresh now k v options s) as [H _].
    rewrite get_of_lookup in H. rewrite has_of_lookup.
    destruct (cache (set now k v options s) !! k) as [i|]; [|discriminate].
    destruct (isExpired now i); [discriminate|reflexivity].
  - unfold update. destruct (get now k s) as [s1 current]. cbn [snd].
    apply set_fresh.
Qed.

(** X9. [cacheObservable]: a value that [get] still serves is emitted
    without the source being consulted and the cache stays as it is; on
    a miss, or whenever [forceRefresh] is set, the source is consulted:
    what it emits is emitted and stored (readable at that moment), and
    its failure is passed on with nothing stored under the key. *)
Theorem cacheObservable_spec (T E : Type) (now later : N) (k : string)
    (options : CacheOptions) (s : t T) :
  (forall (observable : Rx.Observable E T) d,
     forceRefresh options = false -> (get now k s).2 = Some d ->
     cacheObservable now later k observable options s = (s, Rx.Emit d)) /\
  (forall d,
     forceRefresh options = true \/ (get now k s).2 = None ->
     (cacheObservable now later k (Rx.Emit d : Rx.Observable E T) options s).2
       = Rx.Emit d /\
     (get later k
        (cacheObservable now later k (Rx.Emit d : Rx.Observable E T) options s).1).2
       = Some d) /\
  (forall e,
     forceRefresh options = true \/ (get now k s).2 = None ->
     (cacheObservable now later k (Rx.Fail e : Rx.Observable E T) options s).2
       = Rx.Fail e /\
     cache (cacheObservable now later k (Rx.Fail e : Rx.Observable E T) options s).1
       !! k = None).
Proof.
  assert (Hmiss : forall s1 : t T,
            (get now k s1).2 = None -> cache (get now k s1).1 !! k = None).
  { intros s1. unfold get. destruct (cache s1 !! k) as [i|] eqn:Ei; [|now intros _].
    destruct (isExpired now i); [|discriminate].
    intros _. cbn [fst]. rewrite cache_delete. apply lookup_delete_eq. }
  assert (Hforce : forall s1 : t T,
            forceRefresh options = true \/ (get now k s).2 = None ->
            s1 = (if forceRefresh options then (delete k s).1 else s) ->
            (get now k s1).2 = None).
  { intros s1 [Hf|Hg] ->.
    - rewrite Hf, get_of_lookup, cache_delete. now rewrite lookup_delete_eq.
    - destruct (forceRefresh options); [|exact Hg].
      rewrite get_of_lookup, cache_delete. now rewrite lookup_delete_eq. }
  split; [|split].
  - intros observable d Hf Hg. unfold cacheObservable. rewrite Hf.
    assert (Hs : (get now k s).1 = s).
    { unfold get in Hg |- *. destruct (cache s !! k) as [i|]; [|reflexivity].
      destruct (isExpired now i); [discriminate|reflexivity]. }
    destruct (get now k s) as [s2 c]. cbn [fst snd] in *. now subst.
  - intros d H. unfold cacheObservable.
    specialize (Hforce _ H eq_refl).
    destruct (get now k (if forceRefresh options then (delete k s).1 else s))
      as [s2 c]. cbn [snd] in Hforce. subst c. cbn [Rx.tap fst snd].
    split; [reflexivity|]. apply set_fresh.
  - intros e H. unfold cacheObservable.
    pose proof (Hmiss _ (Hforce _ H eq_refl)) as Hm.
    specialize (Hforce _ H eq_refl).
    destruct (get now k (if forceRefresh options then (delete k s).1 else s))
      as [s2 c]. cbn [fst snd] in *. subst c. cbn [Rx.tap fst snd].
    split; [reflexivity|exact Hm].
Qed.

Lemma cacheObservable_spec_witness :
  cacheObservable (E := string) 2000 2500 "k" (Rx.Fail "offline") no_options
    (set 1000 "k" 42%nat no_options init)
  = (set 1000 "k" 42%nat no_options init, Rx.Emit 42%nat).
Proof.
  apply (proj1 (cacheObservable_spec nat string 2000 2500 "k" no_options
                  (set 1000 "k" 42%nat no_options init))); vm_compute; reflexivity.
Defined.
End CacheOpsSpec.

Module LoadingOpsSpec.
Import LoadingService LoadingOps.

Lemma sound_show s : sound s -> sound (show s).
Proof.
  intros [Hc Hi]. unfold sound, isLoading, show in *. cbn [loadingCounter loadingSubject].
  destruct (Z.eqb_spec (loadingCounter s + 1) 1) as [E|E]; cbn.
  - split; [lia|]. symmetry. apply Z.ltb_lt. lia.
  - split; [lia|]. rewrite Hi.
    transitivity true; [apply Z.ltb_lt; lia | symmetry; apply Z.ltb_lt; lia].
Qed.

Lemma sound_hide s : sound s -> sound (hide s).
Proof.
  intros [Hc Hi]. unfold sound, isLoading, hide in *. cbn [loadingCounter loadingSubject].
  destruct (Z.gtb_spec (loadingCounter s) 0) as [G|G].
  - destruct (Z.eqb_spec (loadingCounter s - 1) 0) as [E|E]; cbn.
    + split; [lia|]. symmetry. apply Z.ltb_ge. lia.
    + split; [lia|]. rewrite Hi.
      transitivity true; [apply Z.ltb_lt; lia | symmetry; apply Z.ltb_lt; lia].
  - assert (E : loadingCounter s = 0) by lia. rewrite E. cbn. split; [lia|reflexivity].
Qed.

Lemma sound_act s a : sound s -> sound (act s a).
Proof.
  intros H. destruct a as [| | | |b|b e|b|b]; cbn [act].
  - now apply sound_show.
  - now apply sound_hide.
  - split; [cbn; lia | reflexivity].
  - split; [cbn; lia | reflexivity].
  - unfold withLoading. destruct b; [now apply sound_show | exact H].
  - unfold withLoading_end. destruct b, e; auto using sound_hide.
  - unfold withLoadingAsync_begin. destruct b; [now apply sound_show | exact H].
  - unfold withLoadingAsync_finally. destruct b; [now apply sound_hide | exact H].
Qed.

Lemma play_snoc l a : play (l ++ [a]) = act (play l) a.
Proof. unfold play. now rewrite fold_left_app. Qed.

(** X10. Whatever the public methods called and in whatever order
    ([show], [hide], [forceHide], [reset], [withLoading] and
    [withLoadingAsync], balanced or not), the counter is never negative
    and [isLoading()] is true exactly when the counter is positive;
    [forceHide()] and [reset()] bring the counter to 0 and the indicator
    off from any state. *)
Theorem indicator_sound_for_all_methods (l : list action) :
  0 <= getLoadingCount (play l) /\
  isLoading (play l) = (0 <? getLoadingCount (play l)) /\
  getLoadingCount (forceHide (play l)) = 0 /\
  isLoading (forceHide (play l)) = false /\
  getLoadingCount (reset (play l)) = 0 /\
  isLoading (reset (play l)) = false.
Proof.
  assert (H : sound (play l)).
  { induction l as [|a l IH] using rev_ind.
    - split; [cbn; lia | reflexivity].
    - rewrite play_snoc. now apply sound_act. }
  destruct H as [Hc Hi]. unfold getLoadingCount.
  split; [exact Hc|]. split; [exact Hi|]. repeat split.
Qed.

(** X11. A request run through [withLoading] that completes or fails
    calls [hide()] twice for its one [show()]: the counter ends one below
    where it was before the request began (or at 0), so a request that
    was already in flight loses its count.  Unsubscribing before the end,
    [withLoadingAsync], and a plain [show()]/[hide()] pair leave the
    counter where it was. *)
Theorem withLoading_hides_twice (s : t) :
  0 <= loadingCounter s ->
  (forall e, e <> Unsubscribed ->
     loadingCounter (withLoading_end true e (withLoading true s))
       = Z.max 0 (loadingCounter s - 1)) /\
  loadingCounter (withLoading_end true Unsubscribed (withLoading true s))
    = loadingCounter s /\
  loadingCounter (withLoadingAsync_finally true (withLoadingAsync_begin true s))
    = loadingCounter s /\
  loadingCounter (hide (show s)) = loadingCounter s /\
  (forall e, withLoading_end false e (withLoading false s) = s).
Proof.
  intros Hc.
  assert (H1 : loadingCounter (hide (show s)) = loadingCounter s).
  { unfold hide, show. cbn [loadingCounter].
    destruct (Z.gtb_spec (loadingCounter s + 1) 0); lia. }
  assert (H2 : loadingCounter (hide (hide (show s))) = Z.max 0 (loadingCounter s - 1)).
  { unfold hide at 1. cbn [loadingCounter]. rewrite H1.
    destruct (Z.gtb_spec (loadingCounter s) 0); lia. }
  split; [|split; [|split; [|split]]].
  - intros e He. destruct e; [exact H2 | exact H2 | contradiction].
  - exact H1.
  - exact H1.
  - exact H1.
  - intros e. destruct e; reflexivity.
Qed.

(** Two overlapping requests: the indicator goes off when the first one
    completes, while the second is still running. *)
Lemma withLoading_hides_twice_witness :
  isLoading (play [DoWithLoading true; DoWithLoading true]) = true /\
  loadingCounter
    (play [DoWithLoading true; DoWithLoading true; DoWithLoadingEnd true Completed]) = 0 /\
  isLoading
    (play [DoWithLoading true; DoWithLoading true; DoWithLoadingEnd true Completed])
    = false.
Proof.
  split; [reflexivity|].
  pose proof (proj1 (withLoading_hides_twice (play [DoWithLoading true])
                       ltac:(vm_compute; discriminate)) Completed ltac:(discriminate)) as H.
  split; [exact H | reflexivity].
Defined.
End LoadingOpsSpec.

Module AuthOpsSpec.
Import JS AuthService AuthOps Examples QFacts.

(** What [isAuthenticated] answers depends on the stored token alone,
    and on the token only through what [decodeJWT] makes of it. *)
Lemma isAuthenticated_by_token (s1 s2 : t) (now : N) (t1 t2 : jstring) :
  getToken s1 = Some t1 -> getToken s2 = Some t2 ->
  decodeJWT t1 = decodeJWT t2 ->
  isAuthenticated s1 now = isAuthenticated s2 now.
Proof.
  intros H1 H2 Hd. unfold isAuthenticated, hasValidToken.
  rewrite !AuthSpec.hasValidToken_value_eq, H1, H2, Hd. reflexivity.
Qed.

Lemma isAuthenticated_no_token (s : t) (now : N) :
  getToken s = None -> isAuthenticated s now = Normal false.
Proof.
  intros H. unfold isAuthenticated, hasValidToken.
  now rewrite AuthSpec.hasValidToken_value_eq, H.
Qed.

Lemma isAuthenticated_undecodable (s : t) (now : N) token e :
  getToken s = Some token -> decodeJWT token = Throw e ->
  isAuthenticated s now = Normal false.
Proof.
  intros H Hd. unfold isAuthenticated, hasValidToken.
  now rewrite AuthSpec.hasValidToken_value_eq, H, Hd.
Qed.

(** X12. [logout()] from any state: the token and the user are gone from
    storage, both subjects have pushed (null and false), one navigation
    to [/login] is added, [isAuthenticated()] is false at any time and
    every role test is false; the session storage and the other keys of
    the local storage are kept. *)
Theorem logout_spec (s : t) :
  getToken (logout s) = None /\
  Browser.localStorage (browser (logout s)) !! USER_KEY = None /\
  (forall k, k <> TOKEN_KEY -> k <> USER_KEY ->
     Browser.localStorage (browser (logout s)) !! k
       = Browser.localStorage (browser s) !! k) /\
  Browser.sessionStorage (browser (logout s)) = Browser.sessionStorage (browser s) /\
  Browser.navigations (browser (logout s))
    = (Browser.navigations (browser s) ++ ["/login"])%list /\
  currentUserSubject (logout s) = Rx.next None (currentUserSubject s) /\
  isAuthenticatedSubject (logout s) = Rx.next false (isAuthenticatedSubject s) /\
  (forall now, isAuthenticated (logout s) now = Normal false) /\
  (forall r, hasRole (logout s) r = false) /\
  (forall rs, hasAnyRole (logout s) rs = false).
Proof.
  assert (Ht : getToken (logout s) = None).
  { unfold getToken, logout. cbn.
    rewrite lookup_delete_ne by discriminate. apply lookup_delete_eq. }
  split; [exact Ht|]. split; [cbn; apply lookup_delete_eq|].
  split.
  { intros k H1 H2. cbn. rewrite !lookup_delete_ne by congruence. reflexivity. }
  do 4 (split; [reflexivity|]).
  split; [intros now; now apply isAuthenticated_no_token|].
  split; intros; reflexivity.
Qed.

Lemma logout_spec_witness :
  isAuthenticated (logout (signed_in alice token_exp_number)) a_time = Normal false /\
  isAuthenticated (signed_in alice token_exp_number) a_time = Normal true.
Proof.
  split.
  - apply (logout_spec (signed_in alice token_exp_number)).
  - vm_compute. reflexivity.
Defined.

(** X13. The role tests read the current user: with a user signed in,
    [hasRole(r)] is true exactly for the user's role, [hasAnyRole(rs)]
    exactly when the role is in the list (so never for the empty list),
    and exactly one of [isAdmin], [isTeacher], [isStudent] holds; with no
    user all are false.  After a successful [login] the user is the one
    of the response. *)
Theorem role_tests (s : t) :
  (forall u, getCurrentUser s = Some u ->
     (forall r, hasRole s r = true <-> r = role_name (role u)) /\
     (forall rs, hasAnyRole s rs = true <-> In (role_name (role u)) rs) /\
     (isAdmin s, isTeacher s, isStudent s)
       = match role u with
         | admin => (true, false, false)
         | teacher => (false, true, false)
         | student => (false, false, true)
         end) /\
  (getCurrentUser s = None ->
     (forall r, hasRole s r = false) /\ (forall rs, hasAnyRole s rs = false)) /\
  (forall JSON_stringify http_post credentials response,
     http_post credentials = Rx.Emit response ->
     getCurrentUser (login JSON_stringify http_post credentials s).1
       = Some (user response)).
Proof.
  split; [|split].
  - intros u Hu. split; [|split].
    + intros r. unfold hasRole, getUserRole. rewrite Hu.
      destruct (String.eqb_spec (role_name (role u)) r); split; congruence.
    + intros rs. unfold hasAnyRole, getUserRole. rewrite Hu.
      assert (Hne : String.eqb (role_name (role u)) "" = false)
        by (destruct (role u); reflexivity).
      rewrite Hne, existsb_exists. split.
      * intros (x & Hin & Hx). apply String.eqb_eq in Hx. now subst x.
      * intros Hin. exists (role_name (role u)). split; [exact Hin|].
        apply String.eqb_refl.
    + unfold isAdmin, isTeacher, isStudent, hasRole, getUserRole. rewrite Hu.
      destruct (role u); reflexivity.
  - intros Hu. unfold hasRole, hasAnyRole, getUserRole. rewrite Hu.
    split; intros; reflexivity.
  - intros JSON_stringify http_post credentials response H.
    unfold login. rewrite H. reflexivity.
Qed.

Lemma role_tests_witness :
  hasAnyRole (login stringify server_accepts credentials anonymous).1
    ["admin"; "student"] = true /\
  isAdmin (login stringify server_accepts credentials anonymous).1 = false.
Proof.
  pose proof (role_tests (login stringify server_accepts credentials anonymous).1)
    as (H & _ & _).
  destruct (H alice eq_refl) as (_ & H2 & H3).
  split.
  - apply H2. right. left. reflexivity.
  - exact (f_equal (fun p => p.1.1) H3).
Defined.

(** X14. [login] pushes [true] on the authenticated observable without
    looking at the token.  When the response carries a token that
    [decodeJWT] cannot decode, the observable says authenticated while
    [isAuthenticated()] says not, at any time: the class guard
    [AuthGuard] lets the navigation through and the functional
    [authGuard] denies it. *)
Theorem login_trusts_the_response (JSON_stringify : User -> jstring)
    (http_post : LoginRequest -> Rx.Observable Http.HttpErrorResponse LoginResponse)
    (credentials : LoginRequest) (s : t) (response : LoginResponse) (e : exn) :
  http_post credentials = Rx.Emit response ->
  decodeJWT (access_token response) = Throw e ->
  let s' := (login JSON_stringify http_post credentials s).1 in
  Rx.value (isAuthenticatedSubject s') = true /\
  (forall now, isAuthenticated s' now = Normal false) /\
  (forall route url, (Guards.AuthGuard.canActivate route url s').2 = true) /\
  (forall route url now, (Guards.authGuard route url now s').2 = Normal false).
Proof.
  intros H Hd s'.
  assert (Ht : getToken s' = Some (access_token response)).
  { subst s'. unfold login. rewrite H. unfold getToken. cbn.
    rewrite lookup_insert_ne by discriminate. apply lookup_insert_eq. }
  assert (Hv : Rx.value (isAuthenticatedSubject s') = true).
  { subst s'. unfold login. rewrite H. reflexivity. }
  assert (Ha : forall now, isAuthenticated s' now = Normal false).
  { intros now. exact (isAuthenticated_undecodable s' now _ e Ht Hd). }
  split; [exact Hv|]. split; [exact Ha|]. split.
  - intros route url. unfold Guards.AuthGuard.canActivate, Guards.AuthGuard.checkAuth.
    now rewrite Hv.
  - intros route url now. unfold Guards.authGuard. now rewrite Ha.
Qed.

Lemma login_trusts_the_response_witness :
  let bad := fun _ : LoginRequest =>
               @Rx.Emit Http.HttpErrorResponse _ (mkLoginResponse (js "not-a-jwt") alice) in
  Rx.value (isAuthenticatedSubject (login stringify bad credentials anonymous).1) = true /\
  isAuthenticated (login stringify bad credentials anonymous).1 a_time = Normal false.
Proof.
  intros bad.
  destruct (login_trusts_the_response stringify bad credentials anonymous
              (mkLoginResponse (js "not-a-jwt") alice) (Error "Token JWT invalide")
              eq_refl eq_refl) as (H1 & H2 & _).
  split; [exact H1 | apply H2].
Defined.
(** A number that is greater than [t] is not less than [t]. *)
Lemma greater_not_less (v : value) (t : Q) :
  greater_than v t = Normal true -> less_than v t = Normal false.
Proof.
  unfold greater_than, less_than. destruct (ToNumber v) as [n|e]; [|discriminate].
  cbn [bind]. destruct n as [| | |q]; try discriminate; try reflexivity.
  intros [= H]. apply Qltb_lt in H. f_equal. apply Qltb_ge. lra.
Qed.

Lemma isAuthenticated_true_inv (s : t) (now : N) :
  isAuthenticated s now = Normal true ->
  exists token payload exp,
    getToken s = Some token /\ token <> [] /\
    decodeJWT token = Normal payload /\
    get payload (js "exp") = Normal exp /\
    ToBoolean exp = true /\
    greater_than exp (seconds now) = Normal true.
Proof.
  unfold isAuthenticated, hasValidToken. rewrite AuthSpec.hasValidToken_value_eq.
  destruct (getToken s) as [token|] eqn:Ht; [|discriminate].
  destruct (decodeJWT token) as [payload|e] eqn:Hd; [|discriminate].
  unfold verdict. destruct (get payload (js "exp")) as [exp|e] eqn:He; [|discriminate].
  cbn [bind try_catch]. destruct (ToBoolean exp) eqn:Eb.
  - destruct (greater_than exp (seconds now)) as [[]|] eqn:Eg; try discriminate.
    intros _. exists token, payload, exp.
    split; [reflexivity|]. split; [|auto].
    intros ->. rewrite AuthSpec.decodeJWT_empty in Hd. discriminate.
  - cbn. rewrite Eb. discriminate.
Qed.

(** X15. [checkTokenValidity()], the start-up check of the constructor,
    either leaves the service as it is or logs out.  It never logs out a
    session that [isAuthenticated()] accepts; it logs out on a stored
    token that cannot be decoded and on a numeric [exp] that is non-zero
    and less than the current time.  It is not the negation of
    [isAuthenticated()]: with no token, with a payload without [exp],
    with an [exp] of zero and with an [exp] that is not less than the
    current time (equal to it included) the service is left as it is.
    The [exp] is the Number that [JSON.parse] made of the claim, and
    the current time the Number [Date.now() / 1000]. *)
Theorem checkTokenValidity_spec (s : t) (now : N) :
  (checkTokenValidity now s = s \/ checkTokenValidity now s = logout s) /\
  (isAuthenticated s now = Normal true -> checkTokenValidity now s = s) /\
  (getToken s = None -> checkTokenValidity now s = s) /\
  (forall token e, getToken s = Some token -> token <> [] ->
     decodeJWT token = Throw e -> checkTokenValidity now s = logout s) /\
  (forall token payload, getToken s = Some token ->
     decodeJWT token = Normal payload ->
     (get payload (js "exp") = Normal Undefined -> checkTokenValidity now s = s) /\
     (forall q, get payload (js "exp") = Normal (Num (Fin q)) ->
        ((seconds now <= q)%Q \/ (q == 0)%Q -> checkTokenValidity now s = s) /\
        ((q < seconds now)%Q -> ~ (q == 0)%Q ->
           checkTokenValidity now s = logout s))).
Proof.
  split; [|split; [|split; [|split]]].
  - unfold checkTokenValidity.
    destruct (getToken s) as [[|c token]|]; auto.
    match goal with |- context [match ?c with Normal _ => _ | Throw _ => _ end] =>
      destruct c as [[]|] end; auto.
  - intros H. apply isAuthenticated_true_inv in H
      as (token & payload & exp & Ht & Hne & Hd & He & Hb & Hg).
    unfold checkTokenValidity. rewrite Ht.
    destruct token as [|c token]; [congruence|].
    rewrite Hd. cbn [bind]. rewrite He. cbn [bind]. rewrite Hb.
    rewrite (greater_not_less _ _ Hg). reflexivity.
  - intros H. unfold checkTokenValidity. now rewrite H.
  - intros token e Ht Hne Hd. unfold checkTokenValidity. rewrite Ht.
    destruct token as [|c token]; [congruence|]. now rewrite Hd.
  - intros token payload Ht Hd.
    assert (Hne : token <> []).
    { intros ->. rewrite AuthSpec.decodeJWT_empty in Hd. discriminate. }
    destruct token as [|c token]; [congruence|].
    split.
    + intros He. unfold checkTokenValidity. rewrite Ht, Hd. cbn [bind].
      rewrite He. reflexivity.
    + intros q He. unfold checkTokenValidity. rewrite Ht, Hd. cbn [bind].
      rewrite He. cbn [bind ToBoolean]. split.
      * intros [Hq|Hz].
        -- destruct (negb (Qeq_bool q 0)); [|reflexivity].
           unfold less_than. cbn [ToNumber bind].
           apply Qltb_ge in Hq. now rewrite Hq.
        -- apply Qeq_bool_iff in Hz. now rewrite Hz.
      * intros Hq Hz.
        assert (Qeq_bool q 0 = false) as ->.
        { destruct (Qeq_bool q 0) eqn:E; [|reflexivity].
          apply Qeq_bool_iff in E. contradiction. }
        cbn [negb]. unfold less_than. cbn [ToNumber bind].
        apply Qltb_lt in Hq. now rewrite Hq.
Qed.

(** A valid token, an undecodable one, one without [exp]; then a claim
    [1699999999.9999999999], which is read as [1700000000] and so is
    not before the current time [1700000000], and a claim [1e-400],
    which is read as [0]. *)
Lemma checkTokenValidity_spec_witness :
  checkTokenValidity a_time (signed_in alice token_exp_number)
    = signed_in alice token_exp_number /\
  checkTokenValidity a_time (signed_in alice (js "not-a-jwt"))
    = logout (signed_in alice (js "not-a-jwt")) /\
  checkTokenValidity a_time (signed_in alice token_no_exp)
    = signed_in alice token_no_exp /\
  checkTokenValidity a_time (signed_in alice token_exp_just_below)
    = signed_in alice token_exp_just_below /\
  checkTokenValidity a_time (signed_in alice token_exp_tiny)
    = signed_in alice token_exp_tiny /\
  checkTokenValidity a_time (signed_in alice token_expired)
    = logout (signed_in alice token_expired).
Proof.
  split; [|split; [|split; [|split; [|split]]]].
  - apply (proj1 (proj2
      (checkTokenValidity_spec (signed_in alice token_exp_number) a_time))).
    vm_compute. reflexivity.
  - refine (proj1 (proj2 (proj2 (proj2
      (checkTokenValidity_spec (signed_in alice (js "not-a-jwt")) a_time))))
      (js "not-a-jwt") (Error "Token JWT invalide") _ _ _).
    + vm_compute. reflexivity.
    + discriminate.
    + vm_compute. reflexivity.
  - refine (proj1 (proj2 (proj2 (proj2 (proj2
      (checkTokenValidity_spec (signed_in alice token_no_exp) a_time))))
      token_no_exp (Obj [(js "sub", Str (js "1"))]) _ _) _).
    + vm_compute. reflexivity.
    + vm_compute. reflexivity.
    + vm_compute. reflexivity.
  - refine (proj1 (proj2 (proj2 (proj2 (proj2 (proj2
      (checkTokenValidity_spec (signed_in alice token_exp_just_below) a_time))))
      token_exp_just_below (Obj [(js "exp", Num (Fin 1700000000))]) _ _)
      1700000000%Q _) _).
    + vm_compute. reflexivity.
    + vm_compute. reflexivity.
    + vm_compute. reflexivity.
    + left. vm_compute. discriminate.
  - refine (proj1 (proj2 (proj2 (proj2 (proj2 (proj2
      (checkTokenValidity_spec (signed_in alice token_exp_tiny) a_time))))
      token_exp_tiny (Obj [(js "exp", Num (Fin 0))]) _ _)
      0%Q _) _).
    + vm_compute. reflexivity.
    + vm_compute. reflexivity.
    + vm_compute. reflexivity.
    + right. reflexivity.
  - refine (proj2 (proj2 (proj2 (proj2 (proj2 (proj2
      (checkTokenValidity_spec (signed_in alice token_expired) a_time))))
      token_expired (Obj [(js "exp", Num (Fin 1))]) _ _)
      1%Q _) _ _).
    + vm_compute. reflexivity.
    + vm_compute. reflexivity.
    + vm_compute. reflexivity.
    + vm_compute. reflexivity.
    + vm_compute. discriminate.
Defined.

(** [split] at the first separator. *)
Lemma split_first (sep : N) (h r : jstring) :
  ~ In sep h -> split sep (h ++ sep :: r) = h :: split sep r.
Proof.
  induction h as [|c h IH]; intros Hn; cbn [app split].
  - now rewrite N.eqb_refl.
  - destruct (N.eqb_spec c sep) as [->|Hc]; [exfalso; apply Hn; now left|].
    rewrite IH; [reflexivity|]. intros Hin. apply Hn. now right.
Qed.

Lemma split_none (sep : N) (h : jstring) : ~ In sep h -> split sep h = [h].
Proof.
  induction h as [|c h IH]; intros Hn; cbn [split]; [reflexivity|].
  destruct (N.eqb_spec c sep) as [->|Hc]; [exfalso; apply Hn; now left|].
  rewrite IH; [reflexivity|]. intros Hin. apply Hn. now right.
Qed.

Lemma decodeJWT_by_segment (t1 t2 : jstring) :
  nth_error (split 46 t1) 1 = nth_error (split 46 t2) 1 ->
  decodeJWT t1 = decodeJWT t2.
Proof. intros H. unfold decodeJWT. now rewrite H. Qed.

(** X16. [decodeJWT] reads the second dot-separated segment and nothing
    else: tokens that differ in the header or in the signature, or that
    have no signature segment at all, decode alike, and so
    [isAuthenticated()] cannot tell them apart.  No signature is ever
    checked. *)
Theorem signature_never_checked (h h' p sig sig' : jstring) :
  ~ In 46%N h -> ~ In 46%N h' -> ~ In 46%N p ->
  decodeJWT (h ++ 46%N :: p ++ 46%N :: sig)
    = decodeJWT (h' ++ 46%N :: p ++ 46%N :: sig') /\
  decodeJWT (h ++ 46%N :: p ++ 46%N :: sig) = decodeJWT (h' ++ 46%N :: p) /\
  (forall s1 s2 now,
     getToken s1 = Some (h ++ 46%N :: p ++ 46%N :: sig) ->
     getToken s2 = Some (h' ++ 46%N :: p ++ 46%N :: sig') ->
     isAuthenticated s1 now = isAuthenticated s2 now).
Proof.
  intros Hh Hh' Hp.
  assert (E1 : forall a b, ~ In 46%N a ->
            nth_error (split 46 (a ++ 46%N :: p ++ 46%N :: b)) 1 = Some p).
  { intros a b Ha. rewrite (split_first 46 a) by exact Ha.
    rewrite (split_first 46 p) by exact Hp. reflexivity. }
  assert (E2 : nth_error (split 46 (h' ++ 46%N :: p)) 1 = Some p).
  { rewrite (split_first 46 h') by exact Hh'.
    rewrite (split_none 46 p) by exact Hp. reflexivity. }
  assert (D : decodeJWT (h ++ 46%N :: p ++ 46%N :: sig)
              = decodeJWT (h' ++ 46%N :: p ++ 46%N :: sig')).
  { apply decodeJWT_by_segment. now rewrite !E1. }
  split; [exact D|]. split.
  - apply decodeJWT_by_segment. now rewrite E1, E2.
  - intros s1 s2 now H1 H2. exact (isAuthenticated_by_token s1 s2 now _ _ H1 H2 D).
Qed.

Lemma signature_never_checked_witness :
  isAuthenticated
    (session (js "eyJhbGciOiJIUzI1NiIsInR5cCI6IkpXVCJ9.eyJleHAiOjk5OTk5OTk5OTk5fQ.c2ln"))
    a_time
  = isAuthenticated (session (js "x.eyJleHAiOjk5OTk5OTk5OTk5fQ.forged")) a_time.
Proof.
  refine (proj2 (proj2 (signature_never_checked
            (js "eyJhbGciOiJIUzI1NiIsInR5cCI6IkpXVCJ9") (js "x")
            (js "eyJleHAiOjk5OTk5OTk5OTk5fQ") (js "c2ln") (js "forged") _ _ _))
          (session (js "eyJhbGciOiJIUzI1NiIsInR5cCI6IkpXVCJ9.eyJleHAiOjk5OTk5OTk5OTk5fQ.c2ln"))
          (session (js "x.eyJleHAiOjk5OTk5OTk5OTk5fQ.forged")) a_time _ _).
  - vm_compute. intuition discriminate.
  - vm_compute. intuition discriminate.
  - vm_compute. intuition discriminate.
  - vm_compute. reflexivity.
  - vm_compute. reflexivity.
Defined.

Lemma hex_digit_hex_char (d : N) : (d < 16)%N -> hex_digit (hex_char d) = Some d.
Proof.
  intros H. rewrite <- (N2Nat.id d).
  assert (Hn : (N.to_nat d < 16)%nat) by lia.
  clear H. revert Hn. generalize (N.to_nat d). intros n Hn.
  do 16 (destruct n as [|n]; [reflexivity|]). lia.
Qed.

Lemma hex_octet_percent_encode (b : N) (r : jstring) :
  (b < 256)%N -> hex_octet (percent_encode b ++ r) = Some (b, r).
Proof.
  intros H. unfold percent_encode, hex_octet. cbn [app].
  rewrite N.eqb_refl, N.mod_small by exact H.
  rewrite !hex_digit_hex_char.
  - f_equal. f_equal. rewrite N.mul_comm. symmetry. apply N.div_mod'.
  - apply N.mod_lt. discriminate.
  - apply N.Div0.div_lt_upper_bound. lia.
Qed.

Lemma length_percent_encoded (bs : jstring) :
  length (concat (List.map percent_encode bs)) = (3 * length bs)%nat.
Proof.
  induction bs as [|b bs IH]; [reflexivity|].
  cbn [List.map concat]. rewrite length_app, IH. cbn [percent_encode length]. lia.
Qed.

Lemma decode_uri_percent_encoded (bs : jstring) :
  Forall (fun b => (b < 128)%N) bs ->
  forall f, (3 * length bs <= f)%nat ->
    decode_uri f (concat (List.map percent_encode bs)) = Some bs.
Proof.
  induction 1 as [|b bs Hb _ IH]; intros f Hf.
  - destruct f; reflexivity.
  - destruct f as [|f]; [cbn in Hf; lia|].
    cbn [List.map concat].
    change (decode_uri (S f) (percent_encode b ++ concat (List.map percent_encode bs)))
      with (match hex_octet (percent_encode b ++ concat (List.map percent_encode bs)) with
            | None => None
            | Some (b0, r) =>
                match announced b0 with
                | O => option_map (cons b0) (decode_uri f r)
                | S O => None
                | S (S k) =>
                    if (2 <? N.of_nat k)%N then None
                    else match hex_octets (S k) r with
                         | None => None
                         | Some (bs0, r') =>
                             match utf8_code_point (b0 :: bs0), decode_uri f r' with
                             | Some cp, Some rest => Some (utf16_encode cp ++ rest)
                             | _, _ => None
                             end
                         end
                end
            end).
    rewrite hex_octet_percent_encode by lia.
    unfold announced. apply N.ltb_lt in Hb. rewrite Hb.
    rewrite IH by (cbn [length] in Hf; lia). reflexivity.
Qed.

(** X17. On bytes below 128 the percent-encoding detour of [decodeJWT]
    is the identity: [decodeURIComponent] gives back the bytes that
    [atob] produced, so a token whose payload segment decodes to ASCII
    text yields exactly what [JSON.parse] makes of that text, and fails
    with the one error of [decodeJWT] when [JSON.parse] fails. *)
Theorem ascii_payload_decoding (bytes : jstring) :
  Forall (fun b => (b < 128)%N) bytes ->
  decodeURIComponent (concat (List.map percent_encode bytes)) = Normal bytes /\
  (forall token segment,
     nth_error (split 46 token) 1 = Some segment ->
     atob (replace_all 95 47 (replace_all 45 43 segment)) = Normal bytes ->
     decodeJWT token
       = match JSON_parse bytes with
         | Normal payload => Normal payload
         | Throw _ => Throw (Error "Token JWT invalide")
         end).
Proof.
  intros H.
  assert (E : decodeURIComponent (concat (List.map percent_encode bytes)) = Normal bytes).
  { unfold decodeURIComponent.
    rewrite (decode_uri_percent_encoded bytes H) by (rewrite length_percent_encoded; lia).
    reflexivity. }
  split; [exact E|].
  intros token segment Hs Ha. unfold decodeJWT. rewrite Hs. cbn [of_option bind].
  rewrite Ha. cbn [bind]. rewrite E. cbn [bind].
  destruct (JSON_parse bytes); reflexivity.
Qed.

Lemma ascii_payload_decoding_witness :
  decodeJWT token_expired = Normal (Obj [(js "exp", Num (Fin 1))]).
Proof.
  refine (proj2 (ascii_payload_decoding (js "{" ++ [34%N] ++ js "exp" ++ [34%N] ++ js ":1}") _)
            token_expired (js "eyJleHAiOjF9") _ _).
  - vm_compute. repeat constructor.
  - vm_compute. reflexivity.
  - vm_compute. reflexivity.
Defined.

(** X18. [canAccessStudent(id)]: nobody signed in is refused; an admin
    and (for now) a teacher may access every student; a student may
    access exactly the student whose id is the one of their own
    [student_info], and none when they have no [student_info]. *)
Theorem canAccessStudent_spec (s : t) (studentId : Z) :
  (getCurrentUser s = None -> canAccessStudent s studentId = false) /\
  (forall u, getCurrentUser s = Some u ->
     match role u with
     | admin | teacher => canAccessStudent s studentId = true
     | student =>
         canAccessStudent s studentId = true <->
         exists info, student_info u = Some info /\ student_id info = studentId
     end).
Proof.
  split.
  - intros H. unfold canAccessStudent. now rewrite H.
  - intros u H. unfold canAccessStudent, getStudentInfo. rewrite H.
    destruct (role u); try reflexivity.
    destruct (student_info u) as [info|]; split.
    + intros E. exists info. split; [reflexivity|]. now apply Z.eqb_eq.
    + intros (i & [= <-] & E). now apply Z.eqb_eq.
    + discriminate.
    + intros (i & E & _). discriminate.
Qed.

Lemma canAccessStudent_spec_witness :
  let bob := mkUser 8 "bob" "bob@school.test" student "2024-09-01" true
               (Some (mkStudentInfo 12 "M-0012" "Bob B" 3)) None in
  canAccessStudent (signed_in bob token_exp_number) 12 = true.
Proof.
  intros bob.
  apply (proj2 (proj2 (canAccessStudent_spec (signed_in bob token_exp_number) 12)
                  bob eq_refl)).
  exists (mkStudentInfo 12 "M-0012" "Bob B" 3). split; reflexivity.
Defined.
End AuthOpsSpec.

Module GuardOpsSpec.
Import AuthService Guards GuardFrame Examples.

Lemma redirected_navigate (target : string) (s : t) :
  redirected target s (with_browser (Browser.navigate target) s).
Proof. repeat split. Qed.

Lemma redirected_stored (target url : string) (s : t) :
  redirected target s
    (with_browser (Browser.navigate target)
       (with_browser (Browser.setSession REDIRECT_KEY url) s)).
Proof.
  split; [reflexivity|]. split; [reflexivity|]. split; [|split; reflexivity].
  intros k Hk. cbn. now rewrite lookup_insert_ne by congruence.
Qed.

(** X19. Every guard of the file either permits and leaves the service
    and the browser exactly as they were, or denies and makes exactly
    one navigation; a denial never touches the local storage (token and
    user), the two subjects, or any session-storage entry other than
    [redirectUrl]. *)
Theorem guards_permit_or_redirect (route : RouteData) (url : string) (s : t) :
  Forall (fun guard : t -> t * bool =>
            if (guard s).2 then (guard s).1 = s
            else exists target, redirected target s (guard s).1)
         (class_guards route url).
Proof.
  unfold class_guards.
  repeat apply Forall_cons_2; try apply Forall_nil_2.
  1,2: unfold AuthGuard.canActivateChild, AuthGuard.canActivate, AuthGuard.checkAuth;
       destruct (Rx.value (isAuthenticatedSubject s)); [reflexivity|];
       exists "/login"; cbn [fst snd];
       destruct (Opt.truthy (Some url));
       [apply redirected_stored | apply redirected_navigate].
  - unfold AuthGuard.canLoad, AuthGuard.checkAuth.
    destruct (Rx.value (isAuthenticatedSubject s)); [reflexivity|].
    exists "/login". apply redirected_navigate.
  - unfold RoleGuard.canActivate, RoleGuard.checkRole.
    destruct (Rx.value (isAuthenticatedSubject s)); cbn [negb].
    + destruct (negb (bool_decide (is_Some (data_roles route)))
                && negb (Opt.truthy (data_role route))); [reflexivity|].
      destruct (getCurrentUser s).
      * match goal with |- context [if negb ?b then _ else _] => destruct b end;
          cbn [negb fst snd]; [reflexivity|].
        eexists. apply redirected_navigate.
      * eexists. apply redirected_navigate.
    + exists "/login". apply redirected_stored.
  - unfold AdminGuard.checkAdminRole.
    destruct (Rx.value (isAuthenticatedSubject s)); cbn [negb].
    + destruct (isAdmin s); cbn [negb fst snd]; [reflexivity|].
      eexists. apply redirected_navigate.
    + exists "/login". apply redirected_stored.
  - unfold TeacherGuard.checkTeacherRole.
    destruct (Rx.value (isAuthenticatedSubject s)); cbn [negb].
    + destruct (hasAnyRole s ["admin"; "teacher"]); cbn [negb fst snd]; [reflexivity|].
      eexists. apply redirected_navigate.
    + exists "/login". apply redirected_stored.
  - unfold StudentGuard.checkStudentRole.
    destruct (Rx.value (isAuthenticatedSubject s)); cbn [negb].
    + destruct (hasAnyRole s ["admin"; "student"]); cbn [negb fst snd]; [reflexivity|].
      eexists. apply redirected_navigate.
    + exists "/login". apply redirected_stored.
  - unfold LoginGuard.canActivate.
    destruct (Rx.value (isAuthenticatedSubject s)); cbn [fst snd]; [|reflexivity].
    eexists. apply redirected_navigate.
Qed.

(** The role of the user, read as the guards read it. *)
Lemma getUserRole_user (s : t) (u : User) :
  getCurrentUser s = Some u -> getUserRole s = Some (role_name (role u)).
Proof. intros H. unfold getUserRole. now rewrite H. Qed.

(** X20. [LoginGuard] is the complement of [AuthGuard]: it permits
    exactly when [AuthGuard] denies.  When it denies, a signed-in user
    is sent to the dashboard of their role, and a session that counts as
    authenticated without a current user to [/dashboard]. *)
Theorem login_guard_complements_auth_guard (route : RouteData) (url : string) (s : t) :
  (LoginGuard.canActivate s).2 = negb (AuthGuard.canActivate route url s).2 /\
  (Rx.value (isAuthenticatedSubject s) = true ->
     (LoginGuard.canActivate s).1
       = with_browser
           (Browser.navigate
              match getCurrentUser s with
              | Some u => "/" +:+ role_name (role u) +:+ "/dashboard"
              | None => "/dashboard"
              end) s).
Proof.
  split.
  - unfold LoginGuard.canActivate, AuthGuard.canActivate, AuthGuard.checkAuth.
    destruct (Rx.value (isAuthenticatedSubject s)); reflexivity.
  - intros H. unfold LoginGuard.canActivate. rewrite H. cbn [fst].
    unfold LoginGuard.redirectToDashboard, getUserRole.
    destruct (getCurrentUser s) as [u|]; [|reflexivity].
    destruct (role u); reflexivity.
Qed.

Lemma login_guard_complements_auth_guard_witness :
  Browser.navigations (browser (LoginGuard.canActivate
                                  (signed_in alice token_exp_number)).1)
    = ["/student/dashboard"].
Proof.
  rewrite (proj2 (login_guard_complements_auth_guard admin_only "/x"
                    (signed_in alice token_exp_number)) eq_refl).
  reflexivity.
Defined.

(** X21. The three fixed-role guards form a hierarchy: whoever passes
    [AdminGuard] passes [TeacherGuard] and [StudentGuard], and passing
    both of these takes passing [AdminGuard].  On the verdict,
    [TeacherGuard] is [RoleGuard] with [roles: ['admin','teacher']] and
    [StudentGuard] is [RoleGuard] with [roles: ['admin','student']]. *)
Theorem fixed_role_guards (url : string) (s : t) :
  let admin_ok := (AdminGuard.checkAdminRole url s).2 in
  let teacher_ok := (TeacherGuard.checkTeacherRole url s).2 in
  let student_ok := (StudentGuard.checkStudentRole url s).2 in
  admin_ok = teacher_ok && student_ok /\
  teacher_ok = (RoleGuard.canActivate (mkData (Some ["admin"; "teacher"]) None) url s).2 /\
  student_ok = (RoleGuard.canActivate (mkData (Some ["admin"; "student"]) None) url s).2.
Proof.
  cbv zeta.
  unfold AdminGuard.checkAdminRole, TeacherGuard.checkTeacherRole,
    StudentGuard.checkStudentRole, RoleGuard.canActivate, RoleGuard.checkRole.
  destruct (Rx.value (isAuthenticatedSubject s)); cbn [negb]; [|auto].
  cbn [data_roles data_role Opt.truthy andb negb length Nat.ltb Nat.leb].
  assert (Hd : forall l : list string, bool_decide (is_Some (Some l)) = true)
    by (intros l; apply bool_decide_eq_true_2; eauto).
  rewrite !Hd. cbn [negb andb].
  unfold isAdmin, hasRole, hasAnyRole, getUserRole.
  destruct (getCurrentUser s) as [u|]; [|auto].
  destruct (role u); auto.
Qed.

(** X22. [RoleGuard] at the edges of its route data, for a session that
    counts as authenticated: a route that declares neither [roles] nor
    [role] is open even when there is no current user; a route whose
    allow-list is the empty array, with no [role], is closed to
    everybody, admins included; and an empty [role] string is ignored,
    so that the route is judged by [roles] alone. *)
Theorem role_guard_edges (url : string) (s : t) :
  Rx.value (isAuthenticatedSubject s) = true ->
  RoleGuard.canActivate (mkData None None) url s = (s, true) /\
  (RoleGuard.canActivate (mkData (Some []) None) url s).2 = false /\
  (forall roles,
     RoleGuard.canActivate (mkData roles (Some "")) url s
       = RoleGuard.canActivate (mkData roles None) url s).
Proof.
  intros H. unfold RoleGuard.canActivate, RoleGuard.checkRole. rewrite H.
  cbn [negb data_roles data_role Opt.truthy String.eqb andb].
  split; [|split].
  - rewrite bool_decide_eq_false_2; [reflexivity|]. now intros [x Hx].
  - rewrite bool_decide_eq_true_2 by eauto. cbn [negb andb].
    destruct (getCurrentUser s); reflexivity.
  - intros roles. reflexivity.
Qed.

Lemma role_guard_edges_witness :
  let root := mkUser 1 "root" "root@school.test" admin "2024-09-01" true None None in
  (RoleGuard.canActivate (mkData (Some []) None) "/admin"
     (signed_in root token_exp_number)).2 = false.
Proof.
  intros root.
  apply (proj1 (proj2 (role_guard_edges "/admin" (signed_in root token_exp_number)
                         eq_refl))).
Defined.


End GuardOpsSpec.

Module InterceptorSpec.
Import HttpInterceptorService.

Lemma handleError_loading validationErrors (error : Http.HttpErrorResponse) (s : t) :
  loadingService (handleError validationErrors error s).1 = loadingService s.
Proof.
  unfold handleError.
  repeat match goal with
         | |- context [if ?b then _ else _] => destruct b
         end; reflexivity.
Qed.

Lemma hide_show_counter (l : LoadingService.t) :
  0 <= LoadingService.loadingCounter l ->
  LoadingService.loadingCounter (LoadingService.hide (LoadingService.show l))
    = LoadingService.loadingCounter l.
Proof.
  intros H. unfold LoadingService.hide, LoadingService.show.
  cbn [LoadingService.loadingCounter].
  destruct (Z.gtb_spec (LoadingService.loadingCounter l + 1) 0); lia.
Qed.

Lemma loading_of_intercept {A} validationErrors (request : HttpRequest)
    (next : HttpRequest -> Rx.Observable Http.HttpErrorResponse A) (s : t) :
  loadingService (intercept validationErrors request next s).1
    = if shouldShowLoading request
      then LoadingService.hide (LoadingService.show (loadingService s))
      else loadingService s.
Proof.
  unfold intercept.
  destruct (shouldShowLoading request);
    destruct (next _) as [event|error]; try reflexivity.
  - destruct (handleError validationErrors error (with_loading LoadingService.show s))
      as [s' e] eqn:E. cbn [fst with_loading loadingService].
    change s' with (s', e).1. rewrite <- E, handleError_loading. reflexivity.
  - destruct (handleError validationErrors error s) as [s' e] eqn:E. cbn [fst].
    change s' with (s', e).1. rewrite <- E. apply handleError_loading.
Qed.

(** X24. A request that went through [intercept] and settled, with a
    response or with any error, leaves the loading counter where it
    was: [show] and the [finalize] callback are both run or both
    skipped.  A request that found the counter at zero leaves the
    indicator off, and a request to one of the skip URLs, or a GET
    outside the report and import URLs, never touches the loading
    service. *)
Theorem intercept_restores_loading (A : Type)
    (validationErrors : Http.HttpErrorResponse -> option string)
    (request : HttpRequest)
    (next : HttpRequest -> Rx.Observable Http.HttpErrorResponse A) (s : t) :
  0 <= LoadingService.loadingCounter (loadingService s) ->
  let s' := (intercept validationErrors request next s).1 in
  LoadingService.loadingCounter (loadingService s')
    = LoadingService.loadingCounter (loadingService s) /\
  (shouldShowLoading request = true ->
   LoadingService.loadingCounter (loadingService s) = 0 ->
   LoadingService.isLoading (loadingService s') = false) /\
  (existsb (fun u => includes (url request) u) skipLoadingUrls = true ->
   loadingService s' = loadingService s) /\
  (method request = "GET" ->
   includes (url request) "/api/reports/" = false ->
   includes (url request) "/api/grades/import" = false ->
   loadingService s' = loadingService s).
Proof.
  intros H s'. subst s'. rewrite loading_of_intercept.
  split; [|split; [|split]].
  - destruct (shouldShowLoading request); [now apply hide_show_counter|reflexivity].
  - intros -> H0. unfold LoadingService.isLoading, LoadingService.hide, LoadingService.show.
    cbn [LoadingService.loadingCounter LoadingService.loadingSubject].
    rewrite H0. reflexivity.
  - intros Hs. unfold shouldShowLoading. now rewrite Hs.
  - intros Hm H1 H2. unfold shouldShowLoading. rewrite Hm, H1, H2.
    cbn. now rewrite andb_false_r.
Qed.

Lemma intercept_restores_loading_witness :
  let request := mkRequest "POST" "/api/grades" false ∅ in
  let unauthorized := fun _ : HttpRequest =>
        @Rx.Fail Http.HttpErrorResponse unit (Http.mkResponse 401 "Unauthorized" None) in
  let s := mk LoadingService.init (Browser.mk ∅ ∅ []) "/grades" [] in
  shouldShowLoading request = true /\
  LoadingService.loadingCounter
    (loadingService (intercept (fun _ => None) request unauthorized s).1) = 0.
Proof.
  intros request unauthorized s. split; [reflexivity|].
  refine (proj1 (intercept_restores_loading unit (fun _ => None) request unauthorized s _)).
  cbn. lia.
Defined.

(** X25. The headers of the request handed to the next handler: the
    Content-Type is [application/json] unless the body is a [FormData],
    in which case there is none, so a Content-Type set by the caller is
    never kept; the Authorization header is [Bearer <token>] when the
    storage holds a non-empty token and the caller's own otherwise;
    every other header, the method, the URL and the body are the
    caller's. *)
Theorem sent_headers (token : option JS.jstring) (request : HttpRequest) :
  let sent := prepare token request in
  headers sent !! CONTENT_TYPE
    = (if body_is_FormData request then None else Some (JS.js "application/json")) /\
  headers sent !! AUTHORIZATION
    = match token with
      | Some (c :: tk) => Some (JS.js "Bearer " ++ c :: tk)%list
      | _ => headers request !! AUTHORIZATION
      end /\
  (forall k, k <> CONTENT_TYPE -> k <> AUTHORIZATION ->
     headers sent !! k = headers request !! k) /\
  method sent = method request /\ url sent = url request /\
  body_is_FormData sent = body_is_FormData request.
Proof.
  cbv zeta. unfold prepare, isFileUpload.
  split; [|split; [|split; [|split; [|split]]]].
  - destruct (body_is_FormData request).
    + cbn [deleteHeader headers]. apply lookup_delete_eq.
    + destruct token as [[|c tk]|]; cbn; apply lookup_insert_eq.
  - destruct (body_is_FormData request), token as [[|c tk]|]; cbn;
      rewrite ?lookup_delete_ne by discriminate;
      rewrite ?(lookup_insert_ne _ CONTENT_TYPE AUTHORIZATION) by discriminate;
      rewrite ?lookup_insert_eq; reflexivity.
  - intros k H1 H2.
    destruct (body_is_FormData request), token as [[|c tk]|]; cbn;
      rewrite ?lookup_delete_ne by congruence;
      rewrite ?lookup_insert_ne by congruence; reflexivity.
  - destruct (body_is_FormData request), token as [[|c tk]|]; reflexivity.
  - destruct (body_is_FormData request), token as [[|c tk]|]; reflexivity.
  - destruct (body_is_FormData request) eqn:E, token as [[|c tk]|]; cbn; now rewrite ?E.
Qed.

Lemma sent_headers_authorization_none (request : HttpRequest) :
  headers (prepare None request) !! AUTHORIZATION = headers request !! AUTHORIZATION.
Proof.
  unfold prepare, isFileUpload. destruct (body_is_FormData request); cbn.
  - rewrite lookup_delete_ne by discriminate.
    now rewrite lookup_insert_ne by discriminate.
  - now rewrite lookup_insert_ne by discriminate.
Qed.

(** X26. The interceptor and [AuthService] do not share their storage
    keys.  [login], whatever its outcome, leaves what [getAuthToken]
    reads as it was, so a request made after a login into an empty
    storage carries no Authorization header of the interceptor's.  On a
    401 the interceptor's [handleUnauthorized] leaves the token and the
    user that [AuthService] stored in place, so [isAuthenticated()]
    answers after it what it answered before. *)
Theorem interceptor_and_auth_keys_differ :
  (forall JSON_stringify http_post credentials (a : AuthService.t),
     let a' := (AuthService.login JSON_stringify http_post credentials a).1 in
     getAuthToken (AuthService.browser a') = getAuthToken (AuthService.browser a) /\
     (getAuthToken (AuthService.browser a) = None ->
      forall request,
        headers (prepare (getAuthToken (AuthService.browser a')) request) !! AUTHORIZATION
          = headers request !! AUTHORIZATION)) /\
  (forall (s : t) (a : AuthService.t) (now : N),
     AuthService.browser a = browser s ->
     let a' := AuthService.with_browser (fun _ => browser (handleUnauthorized s)) a in
     AuthService.getToken a' = AuthService.getToken a /\
     Browser.localStorage (AuthService.browser a') !! AuthService.USER_KEY
       = Browser.localStorage (AuthService.browser a) !! AuthService.USER_KEY /\
     AuthService.isAuthenticated a' now = AuthService.isAuthenticated a now).
Proof.
  split.
  - intros JSON_stringify http_post credentials a a'.
    assert (E : getAuthToken (AuthService.browser a')
                = getAuthToken (AuthService.browser a)).
    { subst a'. unfold AuthService.login.
      destruct (http_post credentials) as [response|e]; [|reflexivity].
      unfold getAuthToken. cbn.
      rewrite !lookup_insert_ne by discriminate. reflexivity. }
    split; [exact E|].
    intros Hn request. rewrite E, Hn.
    apply (sent_headers_authorization_none request).
  - intros s a now Hb a'.
    assert (Ht : AuthService.getToken a' = AuthService.getToken a).
    { subst a'. unfold AuthService.getToken. cbn. rewrite Hb.
      rewrite !lookup_delete_ne by discriminate. reflexivity. }
    split; [exact Ht|]. split.
    + subst a'. cbn. rewrite Hb. rewrite !lookup_delete_ne by discriminate. reflexivity.
    + unfold AuthService.isAuthenticated, AuthService.hasValidToken.
      rewrite !AuthSpec.hasValidToken_value_eq, Ht. reflexivity.
Qed.

Lemma interceptor_and_auth_keys_differ_witness :
  let a := (AuthService.login Examples.stringify Examples.server_accepts
              Examples.credentials Examples.anonymous).1 in
  AuthService.isAuthenticated a Examples.a_time = JS.Normal true /\
  headers (prepare (getAuthToken (AuthService.browser a))
             (mkRequest "GET" "/api/grades" false ∅)) !! AUTHORIZATION = None.
Proof.
  intros a. split; [vm_compute; reflexivity|].
  exact (proj2 (proj1 interceptor_and_auth_keys_differ Examples.stringify
                  Examples.server_accepts Examples.credentials Examples.anonymous)
           eq_refl (mkRequest "GET" "/api/grades" false ∅)).
Defined.


End InterceptorSpec.

Module GradeOpsSpec.
Import JS GradeService GradeOps QFacts.

(** X28. [validateGrade] accepts exactly the finite numbers from 0 to
    20; whatever the input, an accepted value has no message and a
    rejected one has one or two, never all three: NaN is only "not a
    valid number", and an infinity is both out of range and not a valid
    number. *)
Theorem validateGrade_spec (v : number) :
  (isValid (validateGrade v) = true <-> exists q, v = Fin q /\ (0 <= q <= 20)%Q) /\
  (isValid (validateGrade v) = true <-> errors (validateGrade v) = []) /\
  (length (errors (validateGrade v)) <= 2)%nat /\
  (forall q, v = Fin q -> isValid (validateGrade v) = true ->
     getAppreciation q = CA <-> (10 < q)%Q).
Proof.
  split; [|split; [|split]].
  - destruct v as [| | |q].
    1-3: split; [discriminate|intros (q & H & _); discriminate].
    unfold validateGrade, number_lt, number_gt, isFinite. cbn [negb].
    destruct (Qltb q 0) eqn:E1; [apply Qltb_lt in E1 | apply Qltb_ge in E1];
      (destruct (Qltb 20 q) eqn:E2; [apply Qltb_lt in E2 | apply Qltb_ge in E2]);
      cbn; split;
      try discriminate;
      try (intros (q' & [= <-] & H1 & H2); lra);
      try (intros _; exists q; auto);
      try (intros; reflexivity).
  - unfold validateGrade. cbn [isValid errors].
    match goal with |- context [length ?l] => destruct l end; cbn; split; congruence.
  - destruct v as [| | |q]; try (cbn; lia).
    unfold validateGrade, number_lt, number_gt, isFinite. cbn [negb errors].
    destruct (Qltb q 0) eqn:E1, (Qltb 20 q) eqn:E2; cbn; try lia.
  - intros q -> _. unfold getAppreciation.
    destruct (Qltb 10 q) eqn:E.
    + apply Qltb_lt in E. tauto.
    + apply Qltb_ge in E. split; [|lra].
      destruct (Qle_bool 7 q && Qle_bool q 10); discriminate.
Qed.

Lemma validateGrade_spec_witness :
  isValid (validateGrade (Fin 20)) = true /\
  errors (validateGrade PosInf)
    = ["La note ne peut pas être supérieure à 20"; "La note doit être un nombre valide"].
Proof.
  split; [|reflexivity].
  apply (proj1 (validateGrade_spec (Fin 20))). exists 20%Q. split; [reflexivity|lra].
Defined.

Lemma group_of_snoc key k grades g :
  group_of key k (grades ++ [g])
    = (group_of key k grades ++ if String.eqb (key g) k then [g] else [])%list.
Proof. unfold group_of. rewrite List.filter_app. reflexivity. Qed.

Lemma group_of_inherited key grades g :
  existsb (fun g => inherited (key g)) grades = false ->
  inherited (key g) = true -> group_of key (key g) grades = [].
Proof.
  intros Hn Hg. induction grades as [|x l IH]; [reflexivity|].
  cbn [existsb] in Hn. apply orb_false_iff in Hn as [Hx Hl].
  unfold group_of. cbn [List.filter].
  destruct (String.eqb_spec (key x) (key g)) as [E|E].
  - rewrite E in Hx. congruence.
  - now apply IH.
Qed.

(** The fold computes the groups, for any member to group by. *)
Lemma group_step_fold (key : Grade -> string) (grades : list Grade) :
  grouped key grades (fold_left (group_step key) grades (Normal ∅)).
Proof.
  induction grades as [|g grades IH] using rev_ind.
  - exists ∅. split; [reflexivity|]. intros k. apply lookup_empty.
  - unfold grouped in *. rewrite fold_left_app, existsb_app. cbn [fold_left existsb].
    destruct (existsb (fun g => inherited (key g)) grades) eqn:En.
    + rewrite IH. reflexivity.
    + destruct IH as (groups & -> & Hg). cbn [orb group_step bind].
      rewrite orb_false_r.
      destruct (inherited (key g)) eqn:Ei.
      * rewrite Hg, (group_of_inherited key grades g En Ei). reflexivity.
      * exists (<[key g := (group_of key (key g) grades ++ [g])%list]> groups).
        split.
        { rewrite Hg. destruct (group_of key (key g) grades); reflexivity. }
        intros k. rewrite group_of_snoc.
        destruct (String.eqb_spec (key g) k) as [<-|Hk].
        -- rewrite lookup_insert_eq.
           destruct (group_of key (key g) grades); reflexivity.
        -- rewrite lookup_insert_ne by exact Hk. rewrite app_nil_r. apply Hg.
Qed.

(** X29. The three grouping methods, by subject name, by semester and
    by exam type: when no grade carries a key that is a property name
    of [Object.prototype], the result holds under each key exactly the
    grades with that key, in their input order, and has no empty group;
    as soon as one grade carries such a key ([constructor],
    [toString], [__proto__], ...) the call throws a TypeError. *)
Theorem grouping_spec (grades : list Grade) :
  grouped subject_name grades (groupGradesBySubject grades) /\
  grouped semester grades (groupGradesBySemester grades) /\
  grouped exam_type grades (groupGradesByExamType grades).
Proof.
  split; [|split]; apply group_step_fold.
Qed.

(** X30. A consequence for the caller of [groupGradesBySubject]:
    whenever it returns, no grade is lost and none is invented: every
    grade of the input is in the group of its own subject name, and
    every group is a non-empty sub-list of the input, in input order,
    whose grades all carry the key of the group. *)
Theorem grouping_keeps_every_grade (grades : list Grade)
    (groups : gmap string (list Grade)) :
  groupGradesBySubject grades = Normal groups ->
  (forall g, In g grades ->
     exists l, groups !! subject_name g = Some l /\ In g l) /\
  (forall k l, groups !! k = Some l ->
     l <> [] /\ Forall (fun g => subject_name g = k) l /\ sublist l grades).
Proof.
  intros H. pose proof (group_step_fold subject_name grades) as G.
  unfold grouped in G. fold (groupGradesBySubject grades) in G. rewrite H in G.
  destruct (existsb _ grades); [discriminate|].
  destruct G as (groups' & [= <-] & Hg).
  split.
  - intros g Hin.
    assert (Hf : In g (group_of subject_name (subject_name g) grades)).
    { unfold group_of. apply List.filter_In. split; [exact Hin|apply String.eqb_refl]. }
    rewrite Hg. destruct (group_of subject_name (subject_name g) grades) as [|x l] eqn:E.
    + destruct Hf.
    + exists (x :: l). split; [reflexivity|exact Hf].
  - intros k l Hl. rewrite Hg in Hl.
    destruct (group_of subject_name k grades) as [|x l'] eqn:E; [discriminate|].
    injection Hl as <-. split; [discriminate|]. rewrite <- E. split.
    + apply List.Forall_forall. intros g Hin. unfold group_of in Hin.
      apply List.filter_In in Hin as [_ Hk]. now apply String.eqb_eq.
    + unfold group_of. clear. induction grades as [|g grades IH]; cbn [List.filter].
      * constructor.
      * destruct (String.eqb (subject_name g) k); now constructor.
Qed.
Lemma grouping_keeps_every_grade_witness :
  let g1 := mkGrade 1 7 "Alice A" 3 "Maths" 2 "M. T" 15 CA "S1" "2024-2025" "exam" "" "" in
  let g2 := mkGrade 2 7 "Alice A" 4 "Physique" 2 "M. T" 8 CANT "S1" "2024-2025" "exam" "" "" in
  let groups : gmap string (list Grade) :=
    <["Physique" := [g2]]> (<["Maths" := [g1]]> ∅) in
  exists l, groups !! "Maths" = Some l /\ In g1 l.
Proof.
  intros g1 g2 groups.
  apply (proj1 (grouping_keeps_every_grade [g1; g2] groups eq_refl) g1).
  left. reflexivity.
Defined.
End GradeOpsSpec.
